(** * win_app: remote test-execution orchestration

    A shallow embedding of the orchestration core of the Test Case Manager
    (src/network/connection.py, src/files/manager.py,
    src/gui/result_handler.py, src/gui/file_processor.py,
    src/storage/database.py) and the properties its specification states.

    Conventions of the embedding:
    - Python text (a str) is a [string] of bytes, its UTF-8 encoding;
      [strip], [split] and slicing work on the characters those bytes
      encode; [lower] folds the ASCII letters. A str with an unpaired
      surrogate has no such encoding and is not represented.
    - [os.path] is the one of Windows, where the application runs, on
      paths without drive letters.
    - A parsed JSON document is a [json] value; numbers are integers.
    - A Python exception is [Raise msg], where [msg] is [str(e)].
    - Stateful code is written in the monad [M] over a [World] that holds the
      SSHConnection object, the environment (remote answers, local files,
      clock, cancellation), the GUI table and the database tables.
    - Logging calls ([self.logger.*], [self.gui.log_*], [status_summary.set])
      have no effect on any modelled state and are left out. *)

From Stdlib Require Import String Ascii List ZArith Lia Bool DecimalString
  Permutation.
Import ListNotations.
Open Scope string_scope.
Open Scope Z_scope.

(* ================================================================== *)
(** * Python values and string operations *)
(* ================================================================== *)

Module Py.

(** Result of evaluating Python code that may raise. *)
Inductive Exc (A : Type) : Type :=
| Ok (a : A)
| Raise (msg : string).
Arguments Ok {A} a.
Arguments Raise {A} msg.

(** [str.isspace] on the ASCII range: U+0009 to U+000D, U+001C to U+0020. *)
Definition is_space (c : ascii) : bool :=
  let n := nat_of_ascii c in
  (Nat.leb 9 n && Nat.leb n 13) || (Nat.leb 28 n && Nat.leb n 32).

(** The number of bytes of the whitespace character [s] starts with, 0 when
    it starts with none. Python's whitespace beyond ASCII is U+0085, U+00A0,
    U+1680, U+2000 to U+200A, U+2028, U+2029, U+202F, U+205F and U+3000; in
    UTF-8 these are C2 85, C2 A0, E1 9A 80, E2 80 80 to E2 80 8A, E2 80 A8,
    E2 80 A9, E2 80 AF, E2 81 9F and E3 80 80. *)
Definition space_width (s : string) : nat :=
  match s with
  | EmptyString => 0
  | String a r =>
      if is_space a then 1
      else
        let x := nat_of_ascii a in
        match r with
        | EmptyString => 0
        | String b r' =>
            let y := nat_of_ascii b in
            if Nat.eqb x 194 && (Nat.eqb y 133 || Nat.eqb y 160) then 2
            else
              match r' with
              | EmptyString => 0
              | String c _ =>
                  let z := nat_of_ascii c in
                  if (Nat.eqb x 225 && Nat.eqb y 154 && Nat.eqb z 128)
                     || (Nat.eqb x 226 && Nat.eqb y 128
                         && ((Nat.leb 128 z && Nat.leb z 138)
                             || Nat.eqb z 168 || Nat.eqb z 169
                             || Nat.eqb z 175))
                     || (Nat.eqb x 226 && Nat.eqb y 129 && Nat.eqb z 159)
                     || (Nat.eqb x 227 && Nat.eqb y 128 && Nat.eqb z 128)
                  then 3
                  else 0
              end
        end
  end.

(** [s.lstrip()]; [skip] counts the bytes still to drop of the whitespace
    character being removed. *)
Fixpoint lstrip_from (skip : nat) (s : string) : string :=
  match s with
  | EmptyString => EmptyString
  | String _ s' =>
      match skip with
      | S k => lstrip_from k s'
      | O =>
          match space_width s with
          | O => s
          | S k => lstrip_from k s'
          end
      end
  end.

Definition lstrip (s : string) : string := lstrip_from 0 s.

(** Nothing but whitespace characters. *)
Fixpoint all_space_from (skip : nat) (s : string) : bool :=
  match s with
  | EmptyString => true
  | String _ s' =>
      match skip with
      | S k => all_space_from k s'
      | O =>
          match space_width s with
          | O => false
          | S k => all_space_from k s'
          end
      end
  end.

(** [s.rstrip()]: the text up to the point from which only whitespace
    follows. *)
Fixpoint rstrip (s : string) : string :=
  match s with
  | EmptyString => EmptyString
  | String c s' =>
      if all_space_from 0 s then EmptyString else String c (rstrip s')
  end.

(** [s.strip()] *)
Definition strip (s : string) : string := rstrip (lstrip s).

(** A byte that continues a character of more than one byte. *)
Definition is_continuation (c : ascii) : bool :=
  let n := nat_of_ascii c in Nat.leb 128 n && Nat.ltb n 192.

(** [s[:n]]: the first [n] characters. *)
Fixpoint take_chars (n : nat) (s : string) : string :=
  match s with
  | EmptyString => EmptyString
  | String c s' =>
      if is_continuation c then String c (take_chars n s')
      else
        match n with
        | O => EmptyString
        | S k => String c (take_chars k s')
        end
  end.

(** [len(s)]: the number of characters. *)
Definition char_count (s : string) : nat :=
  length (filter (fun c => negb (is_continuation c)) (list_ascii_of_string s)).

(** [list(s)]: the characters, each a string. *)
Fixpoint chars (s : string) : list string :=
  match s with
  | EmptyString => []
  | String c s' =>
      match s' with
      | String c' _ =>
          if is_continuation c'
          then match chars s' with
               | h :: t => String c h :: t
               | [] => [String c EmptyString]
               end
          else String c EmptyString :: chars s'
      | EmptyString => [String c EmptyString]
      end
  end.

Definition lower_ascii (c : ascii) : ascii :=
  let n := nat_of_ascii c in
  if Nat.leb 65 n && Nat.leb n 90 then ascii_of_nat (n + 32) else c.

(** [s.lower()] *)
Fixpoint lower (s : string) : string :=
  match s with
  | EmptyString => EmptyString
  | String c s' => String (lower_ascii c) (lower s')
  end.

(** [sub in s] for two strings. *)
Fixpoint contains (sub s : string) : bool :=
  prefix sub s ||
  match s with
  | EmptyString => false
  | String _ s' => contains sub s'
  end.

(** [any(w in s for w in words)] *)
Definition any_in (words : list string) (s : string) : bool :=
  existsb (fun w => contains w s) words.

(** [s.split(sep)] for a one-character separator. *)
Fixpoint split_on (sep : ascii) (s : string) : list string :=
  match s with
  | EmptyString => [EmptyString]
  | String c s' =>
      let r := split_on sep s' in
      if Ascii.eqb c sep then EmptyString :: r
      else match r with
           | h :: t => String c h :: t
           | [] => [String c EmptyString]
           end
  end.

(** The fields between the whitespace characters of [s], empty ones
    included; [skip] counts the bytes still to drop of a whitespace
    character. *)
Fixpoint split_spaces (skip : nat) (s : string) : list string :=
  match s with
  | EmptyString => [EmptyString]
  | String c s' =>
      match skip with
      | S k => split_spaces k s'
      | O =>
          match space_width s with
          | S k => EmptyString :: split_spaces k s'
          | O =>
              match split_spaces 0 s' with
              | h :: t => String c h :: t
              | [] => [String c EmptyString]
              end
          end
      end
  end.

(** [s.split()]: fields separated by runs of whitespace. *)
Definition split_ws (s : string) : list string :=
  filter (fun field => negb (field =? "")%string) (split_spaces 0 s).

(** [sep.join(parts)] *)
Definition join (sep : string) (parts : list string) : string :=
  String.concat sep parts.

(** [l[-1]] and [l[-2]]: [None] stands for IndexError. *)
Definition index_last {A} (l : list A) : option A := nth_error (rev l) 0.
Definition index_last2 {A} (l : list A) : option A := nth_error (rev l) 1.

(** [sorted(l)] on strings, by insertion. *)
Fixpoint insert_sorted (x : string) (l : list string) : list string :=
  match l with
  | [] => [x]
  | y :: l' => if String.leb x y then x :: l else y :: insert_sorted x l'
  end.

Definition sorted (l : list string) : list string :=
  fold_right insert_sorted [] l.

(** [x in l] for a list or set of strings. *)
Definition mem (x : string) (l : list string) : bool :=
  existsb (String.eqb x) l.

(** [set(l)]: the elements without repetition, first occurrences kept. *)
Fixpoint to_set (l : list string) : list string :=
  match l with
  | [] => []
  | x :: l' => x :: filter (fun y => negb (String.eqb x y)) (to_set l')
  end.

(** Parsed JSON, as [json.load] returns it: dict, list, str, int, bool,
    None. *)
#[local] Set Warnings "-register-all".
Inductive json : Type :=
| JNull
| JBool (b : bool)
| JNum (n : Z)
| JStr (s : string)
| JList (l : list json)
| JObj (kvs : list (string * json)).

(** [bool(v)] *)
Definition truthy (v : json) : bool :=
  match v with
  | JNull => false
  | JBool b => b
  | JNum n => negb (n =? 0)
  | JStr s => negb (s =? "")%string
  | JList l => match l with [] => false | _ => true end
  | JObj kvs => match kvs with [] => false | _ => true end
  end.

(** [v == s] against a string literal. *)
Definition eq_str (v : json) (s : string) : bool :=
  match v with
  | JStr t => (t =? s)%string
  | _ => false
  end.

Fixpoint lookup (k : string) (kvs : list (string * json)) : option json :=
  match kvs with
  | [] => None
  | (k', v) :: kvs' => if (k =? k')%string then Some v else lookup k kvs'
  end.

Definition type_name (v : json) : string :=
  match v with
  | JNull => "NoneType"
  | JBool _ => "bool"
  | JNum _ => "int"
  | JStr _ => "str"
  | JList _ => "list"
  | JObj _ => "dict"
  end.

Definition attribute_error (v : json) (attr : string) : string :=
  "'" ++ type_name v ++ "' object has no attribute '" ++ attr ++ "'".

(** [d.get(key, default)]; only a dict has [get]. *)
Definition get (d : json) (key : string) (default : json) : Exc json :=
  match d with
  | JObj kvs => Ok (match lookup key kvs with Some v => v | None => default end)
  | _ => Raise (attribute_error d "get")
  end.

(** [v.lower()]; only a str has [lower]. *)
Definition lower_of (v : json) : Exc string :=
  match v with
  | JStr s => Ok (lower s)
  | _ => Raise (attribute_error v "lower")
  end.

(** [for x in v]: the items a [for] loop or [all(...)] visits. *)
Definition iter (v : json) : Exc (list json) :=
  match v with
  | JList l => Ok l
  | JObj kvs => Ok (map (fun kv => JStr (fst kv)) kvs)
  | JStr s => Ok (map JStr (chars s))
  | _ => Raise ("'" ++ type_name v ++ "' object is not iterable")
  end.

(** [s in v] for a string [s]: substring of a str, element of a list, key
    of a dict; TypeError otherwise. *)
Definition str_in (s : string) (v : json) : Exc bool :=
  match v with
  | JStr t => Ok (contains s t)
  | JList l => Ok (existsb (fun x => eq_str x s) l)
  | JObj kvs => Ok (match lookup s kvs with Some _ => true | None => false end)
  | _ => Raise ("argument of type '" ++ type_name v ++ "' is not iterable")
  end.

Definition str_of_Z (n : Z) : string := NilZero.string_of_int (Z.to_int n).

Section Str.
(** [repr] of a list or a dict depends on Unicode printability of the
    strings inside; it is left as a parameter. *)
Variable repr_container : json -> string.

(** [str(v)] *)
Definition str (v : json) : string :=
  match v with
  | JNull => "None"
  | JBool true => "True"
  | JBool false => "False"
  | JNum n => str_of_Z n
  | JStr s => s
  | JList _ | JObj _ => repr_container v
  end.
End Str.

End Py.

Import Py.

(* ================================================================== *)
(** * The world the program runs in *)
(* ================================================================== *)

(** What the remote side (paramiko) answers to one call: the call completes
    with output and exit status, or raises. The output is the text that
    [decode()] makes of the bytes read; a read or a decode that raises is an
    answer [Raises]. *)
Inductive Response : Type :=
| Done (stdout stderr : string) (exit_status : Z)
| Raises (msg : string).

(** What [json.load(open(path))] meets on the local disk. *)
Inductive FileContent : Type :=
| Unreadable (msg : string)
| NotJson (msg : string)
| Json (data : json).

(** A file on the local disk: [os.path.getsize] and what loading it
    gives. *)
Record LocalFile : Type := mkLocalFile {
  file_size : Z;
  file_content : FileContent
}.

(** Observable effects, newest first in [trace]. *)
Inductive Effect : Type :=
| FsExists (path : string)
| FsLoad (path : string)
| SshClose
| SshConnect (host : string) (port : Z) (user pass : string) (timeout : Z)
| SshExec (command : string) (timeout : Z)
| Sleep (seconds : Z).

Definition is_remote (e : Effect) : bool :=
  match e with
  | SshClose | SshConnect _ _ _ _ _ | SshExec _ _ => true
  | FsExists _ | FsLoad _ | Sleep _ => false
  end.

Inductive SSHClient : Type := ParamikoClient.

(** The fields of an [SSHConnection] object. *)
Record SSHConnection : Type := mkSSH {
  client : option SSHClient;
  connected : bool;
  hostname : option string;
  username : option string;
  password : option string;
  port : option Z
}.

(** The environment: [remote] lists the answers of the remote side to the
    coming paramiko calls, in order (when it runs out every call raises);
    [clock] is [time.time()] in whole seconds, moved on by [time.sleep]
    alone; [cancel_at] is the time from which [gui.processing] reads
    False. *)
Record Env : Type := mkEnv {
  remote : list Response;
  local_files : string -> option LocalFile;
  clock : Z;
  cancel_at : option Z;
  trace : list Effect
}.

(** One row of the file table: the status, result and time columns. *)
Record FileRow : Type := mkRow {
  row_status : string;
  row_result : json;
  row_time : string
}.

Record Gui : Type := mkGui {
  file_table : list FileRow;
  file_data : list (string * json);
  lan_ip_var : string;
  username_var : string;
  password_var : string
}.

(** Rows of the [test_results] and [test_cases] tables, holding the values
    as they were bound; what a SELECT reads back from a column follows the
    column's affinity. *)
Record ResultRow : Type := mkResultRow {
  r_id : Z;
  r_file_name : json;
  r_file_size : json;
  r_test_count : json;
  r_send_status : json;
  r_overall_result : json;
  r_affects_wan : json;
  r_affects_lan : json;
  r_execution_time : json;
  r_target_ip : json;
  r_target_username : json
}.

Record CaseRow : Type := mkCaseRow {
  c_id : Z;
  c_result_id : Z;
  c_service : json;
  c_action : json;
  c_status : json;
  c_details : json;
  c_execution_time : json
}.

(** The two tables and their AUTOINCREMENT counters (sqlite_sequence). *)
Record Database : Type := mkDb {
  test_results : list ResultRow;
  test_cases : list CaseRow;
  seq_results : Z;
  seq_cases : Z
}.

Record World : Type := mkWorld {
  ssh : SSHConnection;
  env : Env;
  gui : Gui;
  db : Database
}.

Definition with_ssh (f : SSHConnection -> SSHConnection) (w : World) : World :=
  mkWorld (f (ssh w)) (env w) (gui w) (db w).
Definition with_env (f : Env -> Env) (w : World) : World :=
  mkWorld (ssh w) (f (env w)) (gui w) (db w).
Definition with_gui (f : Gui -> Gui) (w : World) : World :=
  mkWorld (ssh w) (env w) (f (gui w)) (db w).
Definition with_db (f : Database -> Database) (w : World) : World :=
  mkWorld (ssh w) (env w) (gui w) (f (db w)).

Definition set_connected (b : bool) (s : SSHConnection) : SSHConnection :=
  mkSSH (client s) b (hostname s) (username s) (password s) (port s).

Definition log_effect (e : Effect) (v : Env) : Env :=
  mkEnv (remote v) (local_files v) (clock v) (cancel_at v) (e :: trace v).

Definition advance (dt : Z) (v : Env) : Env :=
  mkEnv (remote v) (local_files v) (clock v + dt) (cancel_at v) (trace v).

Definition pop_remote (v : Env) : Response * Env :=
  match remote v with
  | [] => (Raises "Socket is closed", v)
  | r :: rs =>
      (r, mkEnv rs (local_files v) (clock v) (cancel_at v) (trace v))
  end.

(** ** The monad of stateful code that may raise

    [SE S] is code over a state [S]: it returns a value or raises, and
    leaves a state either way, so what a [try] block wrote before it raised
    is still there in the handler. [M] is code over the [World]; a function
    with local variables that a [try] block assigns runs over the world
    paired with those locals. *)

Definition SE (S A : Type) : Type := S -> Exc A * S.
Definition M (A : Type) : Type := SE World A.

Definition ret {S A} (a : A) : SE S A := fun w => (Ok a, w).
Definition raise {S A} (msg : string) : SE S A := fun w => (Raise msg, w).
Definition bind {S A B} (m : SE S A) (k : A -> SE S B) : SE S B :=
  fun w =>
    match m w with
    | (Ok a, w') => k a w'
    | (Raise e, w') => (Raise e, w')
    end.

(** [try: m except Exception as e: handler e] *)
Definition try_except {S A} (m : SE S A) (handler : string -> SE S A)
  : SE S A :=
  fun w =>
    match m w with
    | (Ok a, w') => (Ok a, w')
    | (Raise e, w') => handler e w'
    end.

Definition lift {S A} (x : Exc A) : SE S A := fun w => (x, w).
Definition read {S A} (f : S -> A) : SE S A := fun w => (Ok (f w), w).
Definition update {S} (f : S -> S) : SE S unit := fun w => (Ok tt, f w).

(** Code over the world, run where locals are in scope. *)
Definition in_world {L A} (m : M A) : SE (World * L) A :=
  fun wl =>
    match m (fst wl) with
    | (r, w') => (r, (w', snd wl))
    end.
Definition local {L A} (f : L -> A) : SE (World * L) A :=
  fun wl => (Ok (f (snd wl)), wl).
Definition assign {L} (f : L -> L) : SE (World * L) unit :=
  fun wl => (Ok tt, (fst wl, f (snd wl))).

Declare Scope py_scope.
Delimit Scope py_scope with py.
Notation "x <- m ;; k" := (bind m (fun x => k))
  (at level 61, m at next level, right associativity) : py_scope.
Notation "' pat <- m ;; k" := (bind m (fun x => match x with pat => k end))
  (at level 61, pat pattern, m at next level, right associativity) : py_scope.
Notation "m ;; k" := (bind m (fun _ => k))
  (at level 61, right associativity) : py_scope.
Open Scope py_scope.

(** [time.sleep(n)] *)
Definition sleep (n : Z) : M unit :=
  update (with_env (fun v => advance n (log_effect (Sleep n) v))).

(** [time.time()] *)
Definition time_now : M Z := read (fun w => clock (env w)).

(** [self.gui.processing] *)
Definition processing : M bool :=
  read (fun w => match cancel_at (env w) with
                 | None => true
                 | Some t => clock (env w) <? t
                 end).

(** The answer the remote side gives to the next paramiko call, and the
    world after a call [e] got it. *)
Definition next_answer (w : World) : Response := fst (pop_remote (env w)).
Definition answered (e : Effect) (w : World) : World :=
  with_env (fun v => snd (pop_remote (log_effect e v))) w.

(** One call into paramiko: the effect is logged, the remote side's next
    answer is consumed; an answer [Raises] becomes a Python exception. *)
Definition paramiko (e : Effect) : M (string * string * Z) :=
  fun w =>
    let (r, v) := pop_remote (log_effect e (env w)) in
    let w' := with_env (fun _ => v) w in
    match r with
    | Done out err st => (Ok (out, err, st), w')
    | Raises msg => (Raise msg, w')
    end.

(** ** The clock

    Used to show that the loops that wait for a deadline end. *)

(** States that carry the clock. *)
Class HasClock (S : Type) : Type := now_of : S -> Z.
#[export] Instance world_clock : HasClock World := fun w => clock (env w).
#[export] Instance locals_clock {L} : HasClock (World * L) :=
  fun s => clock (env (fst s)).

(** Code that never sets the clock back. *)
Definition advancing {S} `{HasClock S} {A} (m : SE S A) : Prop :=
  forall s, now_of s <= now_of (snd (m s)).

(** Code that moves the clock on by at least [bound r] when it ends with
    the result [r]. *)
Definition advances {S} `{HasClock S} {A} (bound : Exc A -> Z) (m : SE S A)
  : Prop :=
  forall s, now_of s + bound (fst (m s)) <= now_of (snd (m s)).


(* ================================================================== *)
(** * src/files/manager.py: TestFileManager *)
(* ================================================================== *)

Module Manager.

(** The [impacts] dict of [analyze_test_impacts]. *)
Record Impacts : Type := mkImpacts {
  affects_wan : bool;
  affects_lan : bool;
  restarts_network : bool
}.

Definition no_impacts : Impacts := mkImpacts false false false.

(** The three assignments
    [impacts["restarts_network"] = True; impacts["affects_wan"] = True;
     impacts["affects_lan"] = True]. *)
Definition set_restart (i : Impacts) : Impacts := mkImpacts true true true.
Definition set_wan (i : Impacts) : Impacts :=
  mkImpacts true (affects_lan i) (restarts_network i).
Definition set_lan (i : Impacts) : Impacts :=
  mkImpacts (affects_wan i) true (restarts_network i).

(** [validate_json_file(file_path)]: returns [(ok, message, data)]. *)
Definition validate_json_file (file_path : string)
  : M (bool * string * option json) :=
  try_except
    (update (with_env (log_effect (FsExists file_path))) ;;
     found <- read (fun w => local_files (env w) file_path) ;;
     match found with
     | None => ret (false, "File not found", None)
     | Some file =>
         update (with_env (log_effect (FsLoad file_path))) ;;
         match file_content file with
         | Unreadable msg => raise msg
         | NotJson msg => ret (false, "Invalid JSON: " ++ msg, None)
         | Json data =>
             has <- lift (str_in "test_cases" data) ;;
             if negb has
             then ret (false, "Missing 'test_cases' section", None)
             else ret (true, "", Some data)
         end
     end)
    (fun e => ret (false, "Error: " ++ e, None)).

Section Analyze.
Variable repr_container : json -> string.

(** The [if]/[elif] chain on [service] and [action]. *)
Definition classify_service (service action : string) (impacts : Impacts)
  : Impacts :=
  if contains "network" service && any_in ["restart"; "reset"; "reboot"] action
  then set_restart impacts
  else if any_in ["wan"; "internet"; "ppp"; "dhcp"; "modem"] service
  then set_wan impacts
  else if any_in ["lan"; "network"; "interface"; "wifi"; "ethernet"] service
  then set_lan impacts
  else impacts.

(** The check on [params["command"]]. *)
Definition classify_command (params : json) (impacts : Impacts) : Impacts :=
  match params with
  | JObj kvs =>
      let cmd :=
        lower (str repr_container
                 (match lookup "command" kvs with
                  | Some v => v
                  | None => JStr ""
                  end)) in
      if negb (cmd =? "")%string
      then if contains "restart" cmd
              && any_in ["network"; "wan"; "firewall"; "interface"] cmd
           then set_restart impacts
           else impacts
      else impacts
  | _ => impacts
  end.

(** The body of [for test in test_cases], on the current [impacts]: the
    new [impacts], or the exception that left [impacts] as it was (the three
    reads that can raise come before any assignment). *)
Definition analyze_case (test : json) (impacts : Impacts) : Exc Impacts :=
  match get test "service" (JStr "") with
  | Raise e => Raise e
  | Ok sv =>
  match lower_of sv with
  | Raise e => Raise e
  | Ok service =>
  match get test "action" (JStr "") with
  | Raise e => Raise e
  | Ok av =>
  match lower_of av with
  | Raise e => Raise e
  | Ok action =>
  match get test "params" (JObj []) with
  | Raise e => Raise e
  | Ok params =>
      Ok (classify_command params (classify_service service action impacts))
  end end end end end.

(** The [for] loop inside [try]: an exception ends the loop and the flags
    computed so far are what is returned. *)
Fixpoint analyze_loop (tests : list json) (impacts : Impacts) : Impacts :=
  match tests with
  | [] => impacts
  | test :: rest =>
      match analyze_case test impacts with
      | Ok impacts' => analyze_loop rest impacts'
      | Raise _ => impacts
      end
  end.

(** [analyze_test_impacts(data)] *)
Definition analyze_test_impacts (data : json) : Impacts :=
  match get data "test_cases" (JList []) with
  | Raise _ => no_impacts
  | Ok test_cases =>
      match iter test_cases with
      | Raise _ => no_impacts
      | Ok tests => analyze_loop tests no_impacts
      end
  end.

End Analyze.

(** Pointwise order on the flags: a flag that is set stays set. *)
Definition flags_le (a b : Impacts) : Prop :=
  (affects_wan a = true -> affects_wan b = true) /\
  (affects_lan a = true -> affects_lan b = true) /\
  (restarts_network a = true -> restarts_network b = true).

(** [restarts_network] implies the other two flags. *)
Definition restart_implies_both (i : Impacts) : Prop :=
  restarts_network i = true -> affects_wan i = true /\ affects_lan i = true.

End Manager.

(* ================================================================== *)
(** * src/network/connection.py: SSHConnection *)
(* ================================================================== *)

Module Connection.

(** [disconnect()]: the body of the [try]; [client.close()] may raise, and
    then the fields keep their values. *)
Definition disconnect : M unit :=
  try_except
    (c <- read (fun w => client (ssh w)) ;;
     match c with
     | Some _ =>
         paramiko SshClose ;;
         update (with_ssh (fun s =>
           mkSSH None (connected s) (hostname s) (username s) (password s)
                 (port s)))
     | None => ret tt
     end ;;
     update (with_ssh (fun s => mkSSH (client s) false None None None (port s))))
    (fun _ => ret tt).

(** The body of the [try] of [connect]. *)
Definition connect_body (host user pass : string) (prt timeout : Z) : M bool :=
  disconnect ;;
  update (with_ssh (fun s =>
    mkSSH (client s) (connected s) (Some host) (Some user) (Some pass)
          (Some prt))) ;;
  update (with_ssh (fun s =>
    mkSSH (Some ParamikoClient) (connected s) (hostname s) (username s)
          (password s) (port s))) ;;
  paramiko (SshConnect host prt user pass timeout) ;;
  '(out, _, _) <- paramiko (SshExec "echo 'connection_test'" 5) ;;
  let result := strip out in
  if (result =? "connection_test")%string
  then update (with_ssh (set_connected true)) ;; ret true
  else ret false.

(** [connect(hostname, username, password, port=22, timeout=10)] *)
Definition connect (host user pass : string) (prt timeout : Z) : M bool :=
  try_except (connect_body host user pass prt timeout)
             (fun _ => ret false).

(** [is_connected()] *)
Definition is_connected : M bool :=
  s <- read ssh ;;
  if negb (connected s) || match client s with None => true | Some _ => false end
  then ret false
  else
    try_except
      ('(out, _, _) <- paramiko (SshExec "echo 'keepalive'" 3) ;;
       let result := strip out in
       ret (result =? "keepalive")%string)
      (fun _ => update (with_ssh (set_connected false)) ;; ret false).

Definition max_retries : Z := 2.

(** What one pass through the [while] loop of [execute_command] does:
    return a value, or go round again with the new [retry_count]. *)
Inductive Step (A : Type) : Type :=
| Return (a : A)
| Continue (retry_count : Z).
Arguments Return {A} a.
Arguments Continue {A} retry_count.

Definition execute_iteration (command : string) (timeout retry_count : Z)
  : M (Step (bool * string * string)) :=
  alive <- is_connected ;;
  if negb alive then ret (Return (false, "", "Not connected"))
  else
    try_except
      (c <- read (fun w => client (ssh w)) ;;
       match c with
       | None => ret (Return (false, "", "Client is None"))
       | Some _ =>
           '(stdout_data, stderr_data, exit_code) <-
              paramiko (SshExec command timeout) ;;
           let success := exit_code =? 0 in
           ret (Return (success, stdout_data, stderr_data))
       end)
      (fun e =>
         let retry_count := retry_count + 1 in
         if (retry_count >? max_retries) || negb (contains "timed out" (lower e))
         then ret (Return (false, "", e))
         else
           update (with_ssh (set_connected false)) ;;
           sleep 2 ;;
           ret (Continue retry_count)).

(** [while retry_count <= max_retries: ...]; [None] is the value of a
    function whose loop ends without [return]. [fuel] bounds the passes. *)
Fixpoint execute_loop (fuel : nat) (command : string) (timeout retry_count : Z)
  : M (option (bool * string * string)) :=
  match fuel with
  | O => raise "out of fuel"
  | S fuel' =>
      if retry_count <=? max_retries
      then
        r <- execute_iteration command timeout retry_count ;;
        match r with
        | Return v => ret (Some v)
        | Continue retry_count' =>
            execute_loop fuel' command timeout retry_count'
        end
      else ret None
  end.

(** [execute_command(command, timeout=30)]: the loop runs at most
    [max_retries + 1] passes, one more lets it see its exit test. *)
Definition execute_command (command : string) (timeout : Z)
  : M (option (bool * string * string)) :=
  execute_loop 4 command timeout 0.

(** How often [command] was sent to the remote side between two worlds. *)
Definition executions (command : string) (timeout : Z) (t : list Effect) : nat :=
  length (filter (fun e => match e with
                           | SshExec c t' => (c =? command)%string && (t' =? timeout)
                           | _ => false
                           end) t).

(** The keepalive command of [is_connected]. *)
Definition canary : Effect := SshExec "echo 'keepalive'" 3.

(** The cached flag is set and a client is stored. *)
Definition has_session (w : World) : bool :=
  connected (ssh w)
  && match client (ssh w) with Some _ => true | None => false end.

Definition not_connected : bool * string * string :=
  (false, "", "Not connected").

(** The answers of the remote side to [client.connect] and to the canary
    command that make [connect] succeed: both calls complete and the
    stripped output of the canary is the expected string. *)
Definition canary_matches (answers : list Response) : bool :=
  match answers with
  | Done _ _ _ :: Done out _ _ :: _ => (strip out =? "connection_test")%string
  | _ => false
  end.

End Connection.

(* ================================================================== *)
(** * os.path, as far as the program uses it *)
(* ================================================================== *)

Module OsPath.

Fixpoint rfind_from (i : Z) (c : ascii) (s : string) : Z :=
  match s with
  | EmptyString => -1
  | String a s' =>
      let r := rfind_from (i + 1) c s' in
      if r >=? 0 then r else if Ascii.eqb a c then i else -1
  end.

(** [s.rfind(c)] *)
Definition rfind (c : ascii) (s : string) : Z := rfind_from 0 c s.

(** [s[i:j]] for [0 <= i <= j]. *)
Definition slice (s : string) (i j : Z) : string :=
  substring (Z.to_nat i) (Z.to_nat (j - i)) s.

Definition backslash : ascii := ascii_of_nat 92.
Definition slash : ascii := ascii_of_nat 47.
Definition dot : ascii := ascii_of_nat 46.

(** [os.path.splitext(p)] of ntpath: [genericpath._splitext] with the
    separators backslash and slash. The extension starts at the last dot of
    the last component, unless only dots come before it there. *)
Definition splitext (p : string) : string * string :=
  let sepIndex := Z.max (rfind backslash p) (rfind slash p) in
  let dotIndex := rfind dot p in
  if dotIndex >? sepIndex
  then
    if existsb (fun c => negb (Ascii.eqb c dot))
               (list_ascii_of_string (slice p (sepIndex + 1) dotIndex))
    then (slice p 0 dotIndex, slice p dotIndex (Z.of_nat (String.length p)))
    else (p, "")
  else (p, "").

(** [os.path.basename] and [os.path.join] of ntpath, for paths that have
    no drive letter and do not start with two separators: the part after the
    last backslash or slash; the second path if it starts with a separator,
    else the two joined, with a backslash unless the first path is empty or
    ends with a separator. The result handler takes both functions as
    parameters, these are the instances its runs are evaluated with. *)
Definition basename (p : string) : string :=
  slice p (Z.max (rfind backslash p) (rfind slash p) + 1)
        (Z.of_nat (String.length p)).

Definition ends_with_separator (a : string) : bool :=
  Z.max (rfind backslash a) (rfind slash a) =? Z.of_nat (String.length a) - 1.

(** [os.path.join(a, b)] under the same restriction. *)
Definition join (a b : string) : string :=
  match b with
  | String c _ =>
      if Ascii.eqb c slash || Ascii.eqb c backslash then b
      else if (a =? "")%string || ends_with_separator a
           then a ++ b
           else a ++ String backslash b
  | EmptyString =>
      if (a =? "")%string || ends_with_separator a
      then a
      else a ++ String backslash EmptyString
  end.

End OsPath.

(* ================================================================== *)
(** * src/gui/result_handler.py: ResultHandler *)
(* ================================================================== *)

Module ResultHandler.

Import Connection.

(** [success, out, err = self.ssh_connection.execute_command(cmd)] *)
Definition execute {S} (r : option (bool * string * string))
  : SE S (bool * string * string) :=
  match r with
  | Some t => ret t
  | None => raise "cannot unpack non-iterable NoneType object"
  end.

(** [_verify_file_ready(file_path)] *)
Definition _verify_file_ready (file_path : string) : M bool :=
  try_except
    (r <- execute_command
            ("test -f " ++ file_path ++ " && echo 'exists' || echo 'missing'") 30 ;;
     '(success, output, _) <- execute r ;;
     if negb success || negb (strip output =? "exists")%string
     then ret false
     else
       r1 <- execute_command ("stat -c %s " ++ file_path) 30 ;;
       '(success1, size1, _) <- execute r1 ;;
       if negb success1 || (strip size1 =? "")%string
       then ret false
       else
         sleep 1 ;;
         r2 <- execute_command ("stat -c %s " ++ file_path) 30 ;;
         '(success2, size2, _) <- execute r2 ;;
         if negb success2 || negb (strip size1 =? strip size2)%string
         then ret false
         else ret true)
    (fun _ => ret false).

(** [f"{parts[-2]}_{parts[-1].split('.')[0]}"] when [len(parts) >= 3]. *)
Definition timestamp_of (name : string) : option string :=
  let parts := split_on "_" name in
  if (3 <=? length parts)%nat
  then
    match index_last2 parts, index_last parts with
    | Some p2, Some p1 =>
        match split_on "." p1 with
        | first :: _ => Some (p2 ++ "_" ++ first)
        | [] => None
        end
    | _, _ => None
    end
  else None.

(** [latest_timestamp and timestamp_in_name > latest_timestamp] *)
Definition newer_than (latest_timestamp : option string) (ts : string) : bool :=
  match latest_timestamp with
  | Some l => negb (l =? "")%string && String.ltb l ts
  | None => false
  end.

Section Wait.
Variable os_path_join : string -> string -> string.
Variable os_path_basename : string -> string.

(** The timestamp of the latest existing file: the one of
    [sorted(list(initial_files))[-1]]. *)
Definition latest_timestamp_of (initial_files : list string) : option string :=
  match initial_files with
  | [] => None
  | _ =>
      match index_last (sorted initial_files) with
      | Some latest_file => timestamp_of (os_path_basename latest_file)
      | None => None
      end
  end.

(** [set(s.strip().split(newline) if s.strip() else [])] *)
Definition parse_file_list (initial_files_str : string) : list string :=
  if negb (strip initial_files_str =? "")%string
  then to_set (split_on (ascii_of_nat 10) (strip initial_files_str))
  else [].

(** The locals of [wait_for_result_file] that its loop assigns. *)
Record Locals : Type := mkLocals {
  last_log_time : Z;
  reconnect_attempts : Z
}.

Definition max_reconnect_attempts : Z := 3.
Definition check_interval : Z := 3.

(** How the [try] block of the loop body ends. *)
Inductive Flow : Type :=
| Found (full_path newest_file : string)
| ContinueLoop
| FallThrough.

Definition W (A : Type) : Type := SE (World * Locals) A.

(** The [try] block of the loop body. *)
Definition poll (result_dir pattern : string) (initial_files : list string)
  (latest_timestamp : option string) : W Flow :=
  alive <- in_world is_connected ;;
  reconnected <-
    (if negb alive
     then
       attempts <- local reconnect_attempts ;;
       if attempts >=? max_reconnect_attempts
       then raise ("Failed to reconnect after "
                     ++ str_of_Z max_reconnect_attempts ++ " attempts")
       else
         assign (fun l => mkLocals (last_log_time l) (reconnect_attempts l + 1)) ;;
         host <- in_world (read (fun w => lan_ip_var (gui w))) ;;
         user <- in_world (read (fun w => username_var (gui w))) ;;
         pass <- in_world (read (fun w => password_var (gui w))) ;;
         success <- in_world (connect host user pass 22 10) ;;
         if negb success
         then in_world (sleep 5) ;; ret false
         else ret true
     else ret true) ;;
  if negb reconnected then ret ContinueLoop
  else
    r <- in_world (execute_command
           ("ls -lt " ++ result_dir ++ "/" ++ pattern ++ " 2>/dev/null | head -1")
           30) ;;
    '(success, newest_file_info, _) <- execute r ;;
    if negb success || (strip newest_file_info =? "")%string
    then in_world (sleep check_interval) ;; ret ContinueLoop
    else
      match index_last (split_ws (strip newest_file_info)) with
      | None => raise "list index out of range"
      | Some newest_file =>
          let full_path := os_path_join result_dir newest_file in
          let is_new_file := negb (mem full_path initial_files) in
          let is_new_file :=
            match timestamp_of newest_file with
            | Some timestamp_in_name =>
                if newer_than latest_timestamp timestamp_in_name
                then true else is_new_file
            | None => is_new_file
            end in
          if is_new_file
          then
            in_world (sleep 2) ;;
            ready <- in_world (_verify_file_ready full_path) ;;
            if ready then ret (Found full_path newest_file)
            else ret FallThrough
          else ret FallThrough
      end.

(** The body of the [while] loop; [None] means go round again. *)
Definition wait_iteration (start_wait : Z) (result_dir pattern : string)
  (initial_files : list string) (latest_timestamp : option string)
  : W (option (string * string)) :=
  now <- in_world time_now ;;
  let elapsed := now - start_wait in
  flow <- try_except
            (poll result_dir pattern initial_files latest_timestamp)
            (fun _ =>
               in_world (update (with_ssh (set_connected false))) ;;
               in_world (sleep check_interval) ;;
               ret ContinueLoop) ;;
  match flow with
  | Found full_path newest_file => ret (Some (full_path, newest_file))
  | ContinueLoop => ret None
  | FallThrough =>
      last <- local last_log_time ;;
      (if elapsed - last >=? 15
       then assign (fun l => mkLocals elapsed (reconnect_attempts l))
       else ret tt) ;;
      running <- in_world processing ;;
      if negb running then raise "Processing cancelled by user"
      else in_world (sleep check_interval) ;; ret None
  end.

(** [while time.time() - start_wait < timeout: ...] and the [raise] after
    it; [fuel] bounds the passes through the loop. *)
Fixpoint wait_loop (fuel : nat) (start_wait timeout : Z)
  (result_dir pattern : string) (initial_files : list string)
  (latest_timestamp : option string) : W (string * string) :=
  match fuel with
  | O => raise "out of fuel"
  | S fuel' =>
      now <- in_world time_now ;;
      if now - start_wait <? timeout
      then
        r <- wait_iteration start_wait result_dir pattern initial_files
               latest_timestamp ;;
        match r with
        | Some found => ret found
        | None =>
            wait_loop fuel' start_wait timeout result_dir pattern
                      initial_files latest_timestamp
        end
      else raise ("Timeout waiting for result file after "
                    ++ str_of_Z timeout ++ " seconds")
  end.

(** The initial snapshot: the files that match the pattern when the wait
    starts. *)
Definition snapshot (result_dir pattern : string) : M (list string) :=
  r <- execute_command
         ("find " ++ result_dir ++ " -name '" ++ pattern
            ++ "' -type f 2>/dev/null || echo ''") 30 ;;
  '(_, initial_files_str, _) <- execute r ;;
  ret (parse_file_list initial_files_str).

(** [wait_for_result_file(base_filename, result_dir, upload_time, timeout)] *)
Definition wait_for_result_file (fuel : nat) (base_filename result_dir : string)
  (timeout : Z) : M (string * string) :=
  start_wait <- time_now ;;
  let base_name := fst (OsPath.splitext base_filename) in
  let pattern := base_name ++ "_*.json" in
  initial_files <- snapshot result_dir pattern ;;
  let latest_timestamp := latest_timestamp_of initial_files in
  fun w =>
    match wait_loop fuel start_wait timeout result_dir pattern initial_files
                    latest_timestamp (w, mkLocals 0 0) with
    | (r, (w', _)) => (r, w')
    end.

End Wait.

(** The least time a pass through the body of the wait loop takes when it
    ends by going round again. *)
Definition continue_bound (r : Exc Flow) : Z :=
  match r with
  | Ok ContinueLoop => 3
  | _ => 0
  end.

Definition again_bound (r : Exc (option (string * string))) : Z :=
  match r with
  | Ok None => 3
  | _ => 0
  end.

(** One successful read of the size of [file_path]: the command completes
    with exit status 0. *)
Definition size_read (file_path size : string) (before after : World) : Prop :=
  exists err,
    execute_command ("stat -c %s " ++ file_path) 30 before
    = (Ok (Some (true, size, err)), after).

(** What [_verify_file_ready] saw when it answered True on the way from
    [start] to [finish]: the file exists, and two successful size reads with
    a sleep of one second between them gave the same non-empty size. *)
Definition stable_reads (file_path : string) (start finish : World) : Prop :=
  exists out err w1 w2 size1 size2,
    execute_command
      ("test -f " ++ file_path ++ " && echo 'exists' || echo 'missing'") 30 start
    = (Ok (Some (true, out, err)), w1)
    /\ strip out = "exists"
    /\ size_read file_path size1 w1 w2
    /\ size_read file_path size2
         (with_env (fun v => advance 1 (log_effect (Sleep 1) v)) w2) finish
    /\ strip size1 = strip size2
    /\ strip size1 <> "".

(** A candidate counts as new: its path is not in the snapshot, or the
    timestamp in its name is greater than [latest_timestamp]. *)
Definition counts_as_new (initial_files : list string)
  (latest_timestamp : option string) (full_path newest_file : string) : Prop :=
  mem full_path initial_files = false
  \/ exists ts, timestamp_of newest_file = Some ts
               /\ newer_than latest_timestamp ts = true.

(** Following the specification's words: the greatest timestamp suffix
    among the files of the snapshot. *)
Definition max_string (a b : string) : string := if String.ltb a b then b else a.

Fixpoint greatest_timestamp (basename : string -> string)
  (files : list string) : option string :=
  match files with
  | [] => None
  | f :: rest =>
      match timestamp_of (basename f), greatest_timestamp basename rest with
      | Some t, Some m => Some (max_string t m)
      | Some t, None => Some t
      | None, m => m
      end
  end.

End ResultHandler.

(* ================================================================== *)
(** * src/storage/database.py: TestDatabase *)
(* ================================================================== *)

Module TestDatabase.

(** Values sqlite3 binds to a [?]: None, bool, str, and an int that fits
    64 bits. A list, a dict or a larger int makes [cursor.execute] raise. *)
Definition bindable (v : json) : bool :=
  match v with
  | JList _ | JObj _ => false
  | JNum n => (- 2 ^ 63 <=? n) && (n <? 2 ^ 63)
  | _ => true
  end.

(** What a SELECT reads from a TEXT column that was given [v]: [None] for
    NULL, and the text of a number, by the column's affinity. *)
Definition text_column (v : json) : option string :=
  match v with
  | JStr s => Some s
  | JNum n => Some (str_of_Z n)
  | JBool b => Some (if b then "1" else "0")
  | JNull | JList _ | JObj _ => None
  end.

(** The rowid AUTOINCREMENT chooses: one more than the largest that ever
    existed in the table. *)
Definition next_id (ids : list Z) (seq : Z) : Z :=
  fold_right Z.max seq ids + 1.

(** The keyword arguments of [save_test_file_result]. *)
Record FileResult : Type := mkFileResult {
  k_file_name : json;
  k_file_size : json;
  k_test_count : json;
  k_send_status : json;
  k_overall_result : json;
  k_affects_wan : json;
  k_affects_lan : json;
  k_execution_time : json;
  k_target_ip : json;
  k_target_username : json
}.

(** [save_test_file_result] with its keyword arguments: the new row's id, or -1. *)
Definition save_test_file_result (k : FileResult) : M Z :=
  try_except
    (if forallb bindable
          [k_file_name k; k_file_size k; k_test_count k; k_send_status k;
           k_overall_result k; k_affects_wan k; k_affects_lan k;
           k_execution_time k; k_target_ip k; k_target_username k]
     then
       d <- read db ;;
       let result_id := next_id (map r_id (test_results d)) (seq_results d) in
       update (with_db (fun d =>
         mkDb (test_results d ++
                 [mkResultRow result_id (k_file_name k) (k_file_size k)
                    (k_test_count k) (k_send_status k) (k_overall_result k)
                    (k_affects_wan k) (k_affects_lan k) (k_execution_time k)
                    (k_target_ip k) (k_target_username k)])
              (test_cases d) result_id (seq_cases d))) ;;
       ret result_id
     else raise "Error binding parameter: type is not supported")
    (fun _ => ret (-1)).

(** [d[key] = value] on a dict. *)
Fixpoint dict_set (key : string) (value : json) (kvs : list (string * json))
  : list (string * json) :=
  match kvs with
  | [] => [(key, value)]
  | (k, v) :: rest =>
      if (key =? k)%string then (k, value) :: rest
      else (k, v) :: dict_set key value rest
  end.

(** The body of the first loop of [save_test_case_results]: a test case
    whose service is the string unknown gets service, action and details
    from the file name. *)
Definition apply_defaults (default_service default_action : string)
  (test : json) : Exc json :=
  match test with
  | JObj kvs =>
      if match lookup "service" kvs with
         | Some service => eq_str service "unknown"
         | None => false
         end
      then
        let kvs1 := dict_set "service" (JStr default_service) kvs in
        let kvs2 := dict_set "action" (JStr default_action) kvs1 in
        let status :=
          match lookup "status" kvs2 with Some v => v | None => JStr "pass" end in
        let status_text :=
          if eq_str status "pass" then "completed successfully" else "failed" in
        Ok (JObj (dict_set "details"
                    (JStr (default_service ++ " " ++ default_action ++ " "
                             ++ status_text)) kvs2))
      else Ok test
  | _ => Raise (attribute_error test "get")
  end.

Fixpoint map_exc {A B} (f : A -> Exc B) (l : list A) : Exc (list B) :=
  match l with
  | [] => Ok []
  | x :: rest =>
      match f x with
      | Raise e => Raise e
      | Ok y =>
          match map_exc f rest with
          | Raise e => Raise e
          | Ok ys => Ok (y :: ys)
          end
      end
  end.

(** The parameters of one INSERT into [test_cases]. *)
Definition case_values (test : json) : Exc (json * json * json * json * json) :=
  match test with
  | JObj kvs =>
      let field k d := match lookup k kvs with Some v => v | None => d end in
      let service := field "service" (JStr "unknown") in
      let action := field "action" (JStr "") in
      let status := field "status" (JStr "unknown") in
      let details := field "details" (JStr "") in
      let execution_time := field "execution_time" (JNum 0) in
      if forallb bindable [service; action; status; details; execution_time]
      then Ok (service, action, status, details, execution_time)
      else Raise "Error binding parameter: type is not supported"
  | _ => Raise (attribute_error test "get")
  end.

(** The INSERTs of one transaction, each with the next rowid. *)
Fixpoint insert_cases (result_id : Z)
  (values : list (json * json * json * json * json))
  (rows : list CaseRow) (seq : Z) : list CaseRow * Z :=
  match values with
  | [] => (rows, seq)
  | (service, action, status, details, execution_time) :: rest =>
      let id := next_id (map c_id rows) seq in
      insert_cases result_id rest
        (rows ++ [mkCaseRow id result_id service action status details
                    execution_time])
        id
  end.

(** [save_test_case_results(result_id, test_cases)]. Nothing is written
    unless the [commit] at the end is reached. *)
Definition save_test_case_results (result_id : Z) (test_cases_arg : json)
  : M bool :=
  try_except
    (if negb (truthy test_cases_arg) then ret true
     else
       d <- read db ;;
       tests <- lift (iter test_cases_arg) ;;
       tests' <-
         match find (fun r => r_id r =? result_id) (test_results d) with
         | Some row =>
             match text_column (r_file_name row) with
             | Some file_name =>
                 let base_name := fst (OsPath.splitext file_name) in
                 let parts := split_on "_" base_name in
                 let default_service :=
                   match parts with p :: _ => p | [] => "unknown" end in
                 let default_action :=
                   if (1 <? length parts)%nat then join "_" (tl parts) else "" in
                 lift (map_exc (apply_defaults default_service default_action)
                               tests)
             | None =>
                 raise "expected str, bytes or os.PathLike object, not NoneType"
             end
         | None => ret tests
         end ;;
       values <- lift (map_exc case_values tests') ;;
       update (with_db (fun d =>
         let '(rows, seq) :=
           insert_cases result_id values (test_cases d) (seq_cases d) in
         mkDb (test_results d) rows (seq_results d) seq)) ;;
       ret true)
    (fun _ => ret false).

(** The rows of [test_cases] that belong to one result. *)
Definition cases_of (result_id : Z) (d : Database) : list CaseRow :=
  filter (fun c => c_result_id c =? result_id) (test_cases d).

End TestDatabase.

(* ================================================================== *)
(** * src/gui/file_processor.py: FileProcessor *)
(* ================================================================== *)

Module FileProcessor.

Import Connection TestDatabase.

(** [all(case.get("status", "").lower() == "pass" for case in test_cases)]:
    stops at the first case that is not a pass; a case without [get] or a
    status without [lower] raises when it is reached. *)
Fixpoint all_pass (cases : list json) : Exc bool :=
  match cases with
  | [] => Ok true
  | case :: rest =>
      match get case "status" (JStr "") with
      | Raise e => Raise e
      | Ok status =>
          match lower_of status with
          | Raise e => Raise e
          | Ok s => if (s =? "pass")%string then all_pass rest else Ok false
          end
      end
  end.

(** The block that determines [overall_result], as it stands in
    [_download_and_process_result] and again in
    [_process_downloaded_result]. *)
Definition determine_overall_result (result_data : json) : Exc json :=
  match get result_data "overall_result" (JStr "Unknown") with
  | Raise e => Raise e
  | Ok overall_result =>
      if negb (truthy overall_result) || eq_str overall_result "Unknown"
      then
        match str_in "pass" result_data with
        | Raise e => Raise e
        | Ok true =>
            match get result_data "pass" JNull with
            | Raise e => Raise e
            | Ok p => Ok (JStr (if truthy p then "Pass" else "Fail"))
            end
        | Ok false =>
            match get result_data "test_results" (JList []) with
            | Raise e => Raise e
            | Ok test_cases =>
                if truthy test_cases
                then
                  match iter test_cases with
                  | Raise e => Raise e
                  | Ok cases =>
                      match all_pass cases with
                      | Raise e => Raise e
                      | Ok ok => Ok (JStr (if ok then "Pass" else "Fail"))
                      end
                  end
                else Ok (JStr "Pass")
            end
        end
      else Ok overall_result
  end.

(** [len(v)] *)
Definition len (v : json) : Exc Z :=
  match v with
  | JList l => Ok (Z.of_nat (length l))
  | JObj kvs => Ok (Z.of_nat (length kvs))
  | JStr s => Ok (Z.of_nat (char_count s))
  | _ => Raise ("object of type '" ++ type_name v ++ "' has no len()")
  end.

(** [update_file_status(file_index, status, result, time_str)]: a row
    outside the table is left alone; an empty result or time keeps the
    column. *)
Definition set_row (status : string) (result : json) (time_str : string)
  (r : FileRow) : FileRow :=
  mkRow status
        (if truthy result then result else row_result r)
        (if negb (time_str =? "")%string then time_str else row_time r).

Fixpoint update_nth {A} (n : nat) (f : A -> A) (l : list A) : list A :=
  match l, n with
  | [], _ => []
  | x :: rest, O => f x :: rest
  | x :: rest, S n' => x :: update_nth n' f rest
  end.

Definition update_file_status (file_index : nat) (status : string)
  (result : json) (time_str : string) : M unit :=
  update (with_gui (fun g =>
    mkGui (update_nth file_index (set_row status result time_str) (file_table g))
          (file_data g) (lan_ip_var g) (username_var g) (password_var g))).

(** The synthetic test case made from the overall result. *)
Definition synthetic_case (result_data overall_result : json)
  (execution_time : Z) : Exc json :=
  match get result_data "service" (JStr "unknown") with
  | Raise e => Raise e
  | Ok service =>
  match get result_data "action" (JStr "") with
  | Raise e => Raise e
  | Ok action =>
  match str_in "Pass" overall_result with
  | Raise e => Raise e
  | Ok is_pass =>
  match get result_data "details" (JStr "") with
  | Raise e => Raise e
  | Ok details =>
      Ok (JObj [("service", service);
                ("action", action);
                ("status", JStr (if is_pass then "pass" else "fail"));
                ("details", details);
                ("execution_time", JNum execution_time)])
  end end end end.

(** [impacts = self.gui.file_data.get(file_name, {}).get("impacts", {})]
    and the two flags read from it. *)
Definition impact_flags (file_name : string) : M (json * json) :=
  data <- read (fun w => file_data (gui w)) ;;
  info <- lift (get (JObj data) file_name (JObj [])) ;;
  impacts <- lift (get info "impacts" (JObj [])) ;;
  affects_wan <- lift (get impacts "affects_wan" (JBool false)) ;;
  affects_lan <- lift (get impacts "affects_lan" (JBool false)) ;;
  ret (affects_wan, affects_lan).

(** One pass of the loop that fills the detail table: the five [get]
    calls need a dict, and [status.capitalize()] a str. *)
Definition show_case (result : json) : Exc unit :=
  match get result "service" (JStr "") with
  | Raise e => Raise e
  | Ok _ =>
      match get result "status" (JStr "unknown") with
      | Raise e => Raise e
      | Ok (JStr _) => Ok tt
      | Ok status => Raise (attribute_error status "capitalize")
      end
  end.

Fixpoint show_details (test_cases : list json) : Exc unit :=
  match test_cases with
  | [] => Ok tt
  | result :: rest =>
      match show_case result with
      | Raise e => Raise e
      | Ok _ => show_details rest
      end
  end.

(** [_process_downloaded_result(file_index, file_path, file_name,
    file_start_time, result_data, result_file_name, overall_result=None)].
    The window has its detail table ([ui_components] makes it); what the
    table shows is presentation, the exceptions of the code that fills it
    are not. Without test cases that code repeats a test on the overall
    result that was made for the synthetic case and so cannot raise. *)
Definition _process_downloaded_result (file_index : nat)
  (file_path file_name : string) (file_start_time : Z) (result_data : json)
  (overall_result_arg : option json) : M bool :=
  try_except
    (overall_result <-
       match overall_result_arg with
       | Some r => ret r
       | None => lift (determine_overall_result result_data)
       end ;;
     now <- time_now ;;
     let execution_time := now - file_start_time in
     let time_str := str_of_Z execution_time ++ ".0s" in
     found <- read (fun w => local_files (env w) file_path) ;;
     let size := match found with Some f => file_size f | None => 0 end in
     test_cases <- lift (get result_data "test_results" (JList [])) ;;
     test_count <- (if truthy test_cases then lift (len test_cases) else ret 1) ;;
     '(affects_wan, affects_lan) <- impact_flags file_name ;;
     target_ip <- read (fun w => lan_ip_var (gui w)) ;;
     target_username <- read (fun w => username_var (gui w)) ;;
     result_id <- save_test_file_result
       (mkFileResult (JStr file_name) (JNum size) (JNum test_count)
          (JStr "Complete") overall_result affects_wan affects_lan
          (JNum execution_time) (JStr target_ip) (JStr target_username)) ;;
     (if truthy test_cases
      then save_test_case_results result_id test_cases
      else
        case <- lift (synthetic_case result_data overall_result execution_time) ;;
        save_test_case_results result_id (JList [case])) ;;
     update_file_status file_index "Complete" overall_result time_str ;;
     (if truthy test_cases
      then
        shown <- lift (iter test_cases) ;;
        lift (show_details shown)
      else ret tt) ;;
     ret true)
    (fun e =>
       update_file_status file_index "Error" (JStr ("Failed: " ++ e)) "" ;;
       ret false).

Section Download.
(** [os.path.join] and the transport's [download_file(remote_path,
    local_path)], with its three transfer methods, are parameters. *)
Variable os_path_join : string -> string -> string.
Variable download_file : string -> string -> M bool.

(** [_download_and_process_result(file_index, file_path, file_name,
    file_start_time, remote_result_path, result_file_name)] *)
Definition _download_and_process_result (file_index : nat)
  (file_path file_name : string) (file_start_time : Z)
  (remote_result_path result_file_name : string) : M bool :=
  try_except
    (let local_result_dir := os_path_join (os_path_join "data" "temp") "results" in
     let local_result_path := os_path_join local_result_dir result_file_name in
     download_success <- download_file remote_result_path local_result_path ;;
     if negb download_success
     then raise ("Failed to download result file " ++ result_file_name)
     else
       found <- read (fun w => local_files (env w) local_result_path) ;;
       result_data <-
         match found with
         | None => raise "No such file or directory"
         | Some file =>
             match file_content file with
             | Json data => ret data
             | NotJson msg => raise msg
             | Unreadable msg => raise msg
             end
         end ;;
       overall_result <- lift (determine_overall_result result_data) ;;
       _process_downloaded_result file_index file_path file_name file_start_time
         result_data (Some overall_result) ;;
       ret true)
    (fun e =>
       update_file_status file_index "Error" (JStr ("Failed: " ++ e)) "" ;;
       ret false).

End Download.

(** [self.ssh_connection.connect(hostname=self.gui.lan_ip_var.get(),
    username=self.gui.username_var.get(),
    password=self.gui.password_var.get(), timeout=10)] *)
Definition connect_from_fields : M bool :=
  host <- read (fun w => lan_ip_var (gui w)) ;;
  user <- read (fun w => username_var (gui w)) ;;
  pass <- read (fun w => password_var (gui w)) ;;
  connect host user pass 22 10.

Section ProcessFiles.
(** [_process_single_file(i, file_path, file_start_time)]: connects,
    uploads, waits for the result and stores it. It is a parameter here; what
    is used of it is that every [update_file_status] call in it and in the
    functions it calls is for [file_index]. *)
Variable _process_single_file : nat -> string -> Z -> M bool.

(** [for attempt in range(1, 4)]: connect again, stop at the first
    success. *)
Fixpoint reconnect (attempts : nat) : M bool :=
  match attempts with
  | O => ret false
  | S attempts' =>
      reconnect_success <-
        try_except connect_from_fields
                   (fun _ => sleep 3 ;; ret false) ;;
      if reconnect_success then ret true else reconnect attempts'
  end.

(** How the body of the loop over the files ends. *)
Inductive Loop : Type := Break | NextFile.

(** The body of [for i, file_path in enumerate(file_paths)]. *)
Definition process_file (i count : nat) (file_path : string) : M Loop :=
  file_start_time <- time_now ;;
  flow <-
    try_except
      (_process_single_file i file_path file_start_time ;;
       if (Z.of_nat i <? Z.of_nat count - 1)
       then
         alive <- is_connected ;;
         stop <-
           (if negb alive
            then
              reconnect_success <- reconnect 3 ;;
              ret (negb reconnect_success)
            else ret false) ;;
         if stop then ret Break
         else sleep 2 ;; ret NextFile
       else ret NextFile)
      (fun e =>
         if contains "cancelled by user" e then ret Break
         else
           update_file_status i "Error" (JStr (take_chars 20 e)) "" ;;
           ret NextFile) ;;
  match flow with
  | Break => ret Break
  | NextFile =>
      running <- processing ;;
      if negb running then ret Break else ret NextFile
  end.

Fixpoint process_loop (i count : nat) (file_paths : list string) : M unit :=
  match file_paths with
  | [] => ret tt
  | file_path :: rest =>
      flow <- process_file i count file_path ;;
      match flow with
      | Break => ret tt
      | NextFile => process_loop (S i) count rest
      end
  end.

(** [_process_files(file_paths)]; the [finally] clause sets
    [gui.processing] to False. *)
Definition _process_files (file_paths : list string) : M unit :=
  fun w =>
    match try_except (process_loop 0 (length file_paths) file_paths)
                     (fun _ => ret tt) w with
    | (r, w') =>
        (r, with_env (fun v =>
              mkEnv (remote v) (local_files v) (clock v) (Some (clock v))
                    (trace v)) w')
    end.

End ProcessFiles.

End FileProcessor.

(* ================================================================== *)
(** * The outcome of a result document, in the specification's words *)
(* ================================================================== *)

Module OutcomeSpec.

(** An entry of test_results whose status compares equal to pass without
    regard to case. *)
Definition status_is_pass (entry : json) : bool :=
  match entry with
  | JObj fields =>
      match lookup "status" fields with
      | Some (JStr s) => (lower s =? "pass")%string
      | _ => false
      end
  | _ => false
  end.

(** An entry that is an object whose status, if it has one, is a string. *)
Definition well_typed_case (entry : json) : bool :=
  match entry with
  | JObj fields =>
      match lookup "status" fields with
      | Some (JStr _) | None => true
      | Some _ => false
      end
  | _ => false
  end.

(** The document has no usable overall_result: the field is missing,
    empty, or the string Unknown. *)
Definition needs_fallback (kvs : list (string * json)) : bool :=
  match lookup "overall_result" kvs with
  | Some v => negb (truthy v) || eq_str v "Unknown"
  | None => true
  end.

(** Following the specification's words: overall_result if it is present,
    non-empty and not Unknown; otherwise Pass or Fail after a boolean pass
    field; otherwise, for a non-empty list test_results, Pass exactly when
    every entry's status is pass; otherwise Pass. *)
Definition claimed_outcome (kvs : list (string * json)) : json :=
  if needs_fallback kvs
  then
    match lookup "pass" kvs with
    | Some (JBool b) => JStr (if b then "Pass" else "Fail")
    | _ =>
        match lookup "test_results" kvs with
        | Some (JList (c :: cs)) =>
            JStr (if forallb status_is_pass (c :: cs) then "Pass" else "Fail")
        | _ => JStr "Pass"
        end
    end
  else
    match lookup "overall_result" kvs with
    | Some v => v
    | None => JStr "Pass"
    end.

(** The service and action a file name stands for: the part before the
    first underscore of the name without its extension, and the rest. *)
Definition filename_defaults (file_name : string) : string * string :=
  let parts := split_on "_" (fst (OsPath.splitext file_name)) in
  (match parts with p :: _ => p | [] => "unknown" end,
   if (1 <? length parts)%nat then join "_" (tl parts) else "").

(** A top-level field of the document, or the default the code takes. *)
Definition field (kvs : list (string * json)) (key : string) (default : json)
  : json :=
  match lookup key kvs with Some v => v | None => default end.





End OutcomeSpec.

(* ================================================================== *)
(** * Concrete inputs the statements below are evaluated on *)
(* ================================================================== *)

Module Examples.

(** A [repr] for containers, enough for inputs whose strings need no
    escaping. *)
Definition repr_plain (v : json) : string :=
  match v with
  | JList _ => "[...]"
  | JObj _ => "{...}"
  | _ => ""
  end.

Definition no_files (path : string) : option LocalFile := None.

Definition one_file (name : string) (f : LocalFile) (path : string)
  : option LocalFile :=
  if (path =? name)%string then Some f else None.

Definition fresh_ssh : SSHConnection := mkSSH None false None None None None.

Definition live_ssh : SSHConnection :=
  mkSSH (Some ParamikoClient) true (Some "192.168.1.1") (Some "root")
        (Some "secret") (Some 22).

Definition empty_gui : Gui := mkGui [] [] "192.168.1.1" "root" "secret".
Definition empty_db : Database := mkDb [] [] 0 0.

(** A world whose remote side will answer [answers]. *)
Definition world (s : SSHConnection) (answers : list Response)
  (files : string -> option LocalFile) (g : Gui) : World :=
  mkWorld s (mkEnv answers files 0 None []) g empty_db.

(** The answer of the remote shell to a command that prints [out]. *)
Definition prints (out : string) : Response := Done out "" 0.

Definition newline : string := String (ascii_of_nat 10) EmptyString.

(** U+00A0 and U+2003, whitespace outside ASCII, and the letter U+00E9, in
    UTF-8. *)
Definition no_break_space : string :=
  String (ascii_of_nat 194) (String (ascii_of_nat 160) EmptyString).
Definition em_space : string :=
  String (ascii_of_nat 226)
    (String (ascii_of_nat 128) (String (ascii_of_nat 131) EmptyString)).
Definition e_acute : string :=
  String (ascii_of_nat 195) (String (ascii_of_nat 169) EmptyString).

(** A live session whose remote side lets the command time out once and
    would answer it if it were sent again. *)
Definition timeout_world : World :=
  world live_ssh
        [prints ("keepalive" ++ newline); Raises "timed out";
         prints ("keepalive" ++ newline); prints ("done" ++ newline)]
        no_files empty_gui.

(** The result directory holds an old result of wan.json and an older
    one of wan_restart.json; both match the pattern wan_*.json. Nothing new
    appears: the listing by modification time shows the old result of
    wan.json, whose size does not change. *)
Definition old_result : string := "/tmp/results/wan_20250605_141606.json".
Definition other_result : string :=
  "/tmp/results/wan_restart_20250101_000000.json".

Definition alive : Response := prints ("keepalive" ++ newline).

(** The result directory is empty when the wait starts; the first poll
    shows a new result of wan.json, and its size does not change. *)
Definition new_result : string := "/tmp/results/wan_20250606_090000.json".

Definition fresh_world : World :=
  world live_ssh
        [alive; prints newline;
         alive;
         alive; prints ("-rw-r--r-- 1 root root 48 Jun 6 09:00 " ++ new_result
                          ++ newline);
         alive; prints ("exists" ++ newline);
         alive; prints ("48" ++ newline);
         alive; prints ("48" ++ newline)]
        no_files empty_gui.

Definition stale_world : World :=
  world live_ssh
        [alive; prints (old_result ++ newline ++ other_result ++ newline);
         alive;
         alive; prints ("-rw-r--r-- 1 root root 12 Jun 5 14:16 " ++ old_result
                          ++ newline);
         alive; prints ("exists" ++ newline);
         alive; prints ("12" ++ newline);
         alive; prints ("12" ++ newline)]
        no_files empty_gui.



Definition queued : FileRow := mkRow "Queued" (JStr "") "".


(** A stand-in for the processing of one file: it marks its own row
    Complete and stores nothing. *)
Definition mark_complete (i : nat) (file_path : string) (start : Z) : M bool :=
  FileProcessor.update_file_status i "Complete" (JStr "Pass") "1.0s" ;;
  ret true.

(** Three queued jobs on a session whose remote side is gone: every call
    into paramiko raises. *)
Definition three_jobs_world : World :=
  mkWorld live_ssh (mkEnv [] no_files 0 None [])
          (mkGui [queued; queued; queued] [] "192.168.1.1" "root" "secret")
          empty_db.

(** A definition file without the key test_cases. *)
Definition doc_without_cases : json :=
  JObj [("name", JStr "wan check")].

End Examples.

(* ================================================================== *)
(** * More of src/files/manager.py *)
(* ================================================================== *)

Module Counting.

(** [get_test_case_count(data)]: the bare [except] turns every exception
    into 0. *)
Definition get_test_case_count (data : json) : Z :=
  match get data "test_cases" (JList []) with
  | Raise _ => 0
  | Ok test_cases =>
      match FileProcessor.len test_cases with
      | Ok n => n
      | Raise _ => 0
      end
  end.

(** A test case the loop of [analyze_test_impacts] gets through: a dict
    whose service and action, where present, are strings. *)
Definition well_formed_case (test : json) : bool :=
  match test with
  | JObj kvs =>
      match lookup "service" kvs with
      | Some (JStr _) | None =>
          match lookup "action" kvs with
          | Some (JStr _) | None => true
          | Some _ => false
          end
      | Some _ => false
      end
  | _ => false
  end.

(** Flag by flag, the disjunction of two assessments. *)
Definition union (a b : Manager.Impacts) : Manager.Impacts :=
  Manager.mkImpacts
    (Manager.affects_wan a || Manager.affects_wan b)
    (Manager.affects_lan a || Manager.affects_lan b)
    (Manager.restarts_network a || Manager.restarts_network b).

End Counting.

(* ================================================================== *)
(** * More of src/storage/database.py *)
(* ================================================================== *)

Module Settings.

(** The [settings] table: key TEXT PRIMARY KEY, value TEXT. *)
Definition Table : Type := list (string * string).

Fixpoint delete_key (key : string) (t : Table) : Table :=
  match t with
  | [] => []
  | (k, v) :: rest =>
      if (k =? key)%string then delete_key key rest
      else (k, v) :: delete_key key rest
  end.

(** [save_setting(key, value)]: INSERT OR REPLACE removes the row that
    holds the key, if there is one, and inserts the new row. *)
Definition save_setting (key value : string) : SE Table bool :=
  try_except
    (update (fun t => (delete_key key t ++ [(key, value)])%list) ;;
     ret true)
    (fun _ => ret false).

Fixpoint select_value (key : string) (t : Table) : option string :=
  match t with
  | [] => None
  | (k, v) :: rest => if (k =? key)%string then Some v else select_value key rest
  end.

(** [get_setting(key, default)]: [result[0] if result else default] on the
    row [fetchone] gives. *)
Definition get_setting (key default : string) : SE Table string :=
  try_except
    (result <- read (select_value key) ;;
     ret (match result with Some v => v | None => default end))
    (fun _ => ret default).

End Settings.

Module History.

Import TestDatabase.


End History.

(* ================================================================== *)
(** * A device that does not answer *)
(* ================================================================== *)

Module Device.

Definition is_raise (r : Response) : bool :=
  match r with
  | Raises _ => true
  | Done _ _ _ => false
  end.

(** Every call into paramiko raises from now on: the answers left are all
    exceptions, and when they are used up the socket is closed. *)
Definition unreachable (w : World) : bool :=
  forallb is_raise (remote (env w)).

End Device.

(* ================================================================== *)
(** * src/gui/file_processor.py: one file, from upload to result *)
(* ================================================================== *)

Module SingleFile.

Import Connection ResultHandler FileProcessor.

(** The locals of [_wait_for_result_with_reconnect] that its loop assigns. *)
Record Reconnect : Type := mkReconnect {
  connected_local : bool;
  reconnect_attempt : Z
}.

Definition max_reconnect_attempts : Z := 6.
Definition reconnect_interval : Z := 10.
Definition max_retries : Z := 2.

Definition double_quote : string := String (ascii_of_nat 34) EmptyString.

(** How a pass through the loop of [_wait_for_result_with_reconnect]
    ends. *)
Inductive Pass : Type :=
| Returned (result : bool)
| BreakLoop
| Again.

(** How an attempt of [_process_single_file] ends when it does not raise:
    it returns, or the loop goes on to the next attempt. *)
Inductive Attempt : Type :=
| Returns (result : bool)
| NextAttempt.

Section Single.
(** [os.path.join], [os.path.basename], the transport's [upload_file] and
    [download_file] with their three transfer methods, the text of the two
    path fields of the window, which this code only reads, and
    [AppConfig.DEFAULT_TIMEOUT], 120 unless the settings dialog changed it,
    are parameters; [fuel] bounds the passes through each waiting loop. *)
Variable os_path_join : string -> string -> string.
Variable os_path_basename : string -> string.
Variable upload_file : string -> string -> M bool.
Variable download_file : string -> string -> M bool.
Variable config_path_var result_path_var : string.
Variable DEFAULT_TIMEOUT : Z.
Variable fuel : nat.

(** The [try] block of the loop of [_wait_for_result_with_reconnect]:
    [Some] is what the function returns from inside it. *)
Definition look_for_result (file_index : nat) (file_path file_name : string)
  (start_time upload_time : Z) (result_dir base_name : string)
  : SE (World * Reconnect) (option bool) :=
  success <- in_world connect_from_fields ;;
  if success
  then
    assign (fun l => mkReconnect true (reconnect_attempt l)) ;;
    let pattern := base_name ++ "_*.json" in
    r <- in_world (execute_command
           ("ls -lt " ++ result_dir ++ "/" ++ pattern ++ " 2>/dev/null | head -1")
           30) ;;
    '(success, newest_file_info, _) <- execute r ;;
    if success && negb (strip newest_file_info =? "")%string
    then
      match index_last (split_ws (strip newest_file_info)) with
      | None => raise "list index out of range"
      | Some newest_file =>
          let result_file_path := os_path_join result_dir newest_file in
          let cmd_check :=
            "find " ++ result_dir ++ " -name '" ++ pattern
              ++ "' -type f -newermt " ++ double_quote ++ "$(date -d @"
              ++ str_of_Z upload_time ++ " '+%Y-%m-%d %H:%M:%S')"
              ++ double_quote ++ " | grep '" ++ newest_file ++ "'" in
          r <- in_world (execute_command cmd_check 30) ;;
          '(check_success, check_output, _) <- execute r ;;
          if check_success && negb (strip check_output =? "")%string
          then
            result <- in_world
              (_download_and_process_result os_path_join download_file
                 file_index file_path file_name start_time result_file_path
                 newest_file) ;;
            ret (Some result)
          else ret None
      end
    else ret None
  else ret None.

(** The body of the [while] loop. *)
Definition reconnect_iteration (file_index : nat)
  (file_path file_name : string) (start_time upload_time : Z)
  (result_dir base_name : string) : SE (World * Reconnect) Pass :=
  running <- in_world processing ;;
  if negb running then raise "Processing cancelled by user"
  else
    connected <- local connected_local ;;
    returned <-
      (if negb connected
       then
         assign (fun l =>
           mkReconnect (connected_local l) (reconnect_attempt l + 1)) ;;
         try_except
           (look_for_result file_index file_path file_name start_time
                            upload_time result_dir base_name)
           (fun _ =>
              assign (fun l => mkReconnect false (reconnect_attempt l)) ;;
              ret None)
       else ret None) ;;
    match returned with
    | Some result => ret (Returned result)
    | None =>
        attempt <- local reconnect_attempt ;;
        if attempt >=? max_reconnect_attempts then ret BreakLoop
        else in_world (sleep reconnect_interval) ;; ret Again
    end.

(** [while time.time() - start_time < timeout: ...]; [None] when the loop
    ends without a [return]. *)
Fixpoint reconnect_loop (n : nat) (file_index : nat)
  (file_path file_name : string) (start_time upload_time timeout : Z)
  (result_dir base_name : string) : SE (World * Reconnect) (option bool) :=
  match n with
  | O => raise "out of fuel"
  | S n' =>
      now <- in_world time_now ;;
      if now - start_time <? timeout
      then
        pass <- reconnect_iteration file_index file_path file_name start_time
                  upload_time result_dir base_name ;;
        match pass with
        | Returned result => ret (Some result)
        | BreakLoop => ret None
        | Again =>
            reconnect_loop n' file_index file_path file_name start_time
                           upload_time timeout result_dir base_name
        end
      else ret None
  end.

(** [_wait_for_result_with_reconnect(file_name, file_path, file_index,
    upload_time, timeout)] *)
Definition _wait_for_result_with_reconnect (file_name file_path : string)
  (file_index : nat) (upload_time timeout : Z) : M bool :=
  start_time <- time_now ;;
  let result_dir := result_path_var in
  let base_name := fst (OsPath.splitext file_name) in
  update_file_status file_index "Network Reset" (JStr "") "" ;;
  returned <-
    (fun w =>
       match reconnect_loop fuel file_index file_path file_name start_time
                            upload_time timeout result_dir base_name
                            (w, mkReconnect false 0) with
       | (r, (w', _)) => (r, w')
       end) ;;
  match returned with
  | Some result => ret result
  | None =>
      update_file_status file_index "Failed" (JStr "Timeout")
                         (str_of_Z timeout ++ "s") ;;
      ret false
  end.

(** The body of [for attempt in range(1, max_retries + 1)]. *)
Definition attempt_body (attempt : Z) (file_index : nat)
  (file_path file_name : string) (file_start_time : Z)
  (affects_network : bool) (network_timeout : Z) : M Attempt :=
  try_except
    (running <- processing ;;
     if negb running then raise "Processing cancelled by user"
     else
       alive <- is_connected ;;
       proceed <-
         (if negb alive
          then
            success <- connect_from_fields ;;
            if negb success
            then
              if attempt =? max_retries then raise "Failed to reconnect SSH"
              else sleep 5 ;; ret false
            else ret true
          else ret true) ;;
       if negb proceed then ret NextAttempt
       else
         let remote_path := os_path_join config_path_var file_name in
         upload_success <- upload_file file_path remote_path ;;
         if negb upload_success then raise "File upload failed"
         else
           update_file_status file_index "Testing" (JStr "") "" ;;
           if affects_network
           then
             upload_time <- time_now ;;
             result <- _wait_for_result_with_reconnect file_name file_path
                         file_index upload_time network_timeout ;;
             ret (Returns result)
           else
             try_except
               ('(result_remote_path, actual_result_filename) <-
                  wait_for_result_file os_path_join os_path_basename fuel
                    (fst (OsPath.splitext file_name)) result_path_var
                    network_timeout ;;
                result <- _download_and_process_result os_path_join
                            download_file file_index file_path file_name
                            file_start_time result_remote_path
                            actual_result_filename ;;
                ret (Returns result))
               (fun e =>
                  if (attempt <? max_retries)
                     && negb (contains "cancelled by user" e)
                  then sleep 2 ;; ret NextAttempt
                  else raise e))
    (fun e =>
       if contains "cancelled by user" e then raise e
       else if attempt <? max_retries then sleep 2 ;; ret NextAttempt
       else raise e).

(** The [for] loop; [None] is what Python returns when the loop ends
    without a [return]. *)
Fixpoint attempts (range : list Z) (file_index : nat)
  (file_path file_name : string) (file_start_time : Z)
  (affects_network : bool) (network_timeout : Z) : M (option bool) :=
  match range with
  | [] => ret None
  | attempt :: rest =>
      a <- attempt_body attempt file_index file_path file_name file_start_time
             affects_network network_timeout ;;
      match a with
      | Returns result => ret (Some result)
      | NextAttempt =>
          attempts rest file_index file_path file_name file_start_time
                   affects_network network_timeout
      end
  end.

(** [_process_single_file(file_index, file_path, file_start_time)]; setting
    the progress bar, from the index and the number of selected files, of
    which the file processed is one, is presentation. *)
Definition _process_single_file (file_index : nat) (file_path : string)
  (file_start_time : Z) : M (option bool) :=
  let file_name := os_path_basename file_path in
  update_file_status file_index "Sending" (JStr "") "" ;;
  '(affects_wan, affects_lan) <- impact_flags file_name ;;
  let affects_network := truthy affects_wan || truthy affects_lan in
  let network_timeout :=
    if affects_network then DEFAULT_TIMEOUT * 2 else DEFAULT_TIMEOUT in
  attempts [1; 2] file_index file_path file_name file_start_time
           affects_network network_timeout.

End Single.

End SingleFile.

(* ================================================================== *)
(** * What code leaves alone *)
(* ================================================================== *)

(** States that hold the world. *)
Class HasWorld (S : Type) : Type := world_of : S -> World.
#[export] Instance world_world : HasWorld World := fun w => w.
#[export] Instance locals_world {L} : HasWorld (World * L) := fun s => fst s.

(** Code that takes every world to a world related to it by [R]. *)
Definition keeps (R : World -> World -> Prop) {S} `{HasWorld S} {A}
  (m : SE S A) : Prop :=
  forall s, R (world_of s) (world_of (snd (m s))).

(** The window but for row [i] of the file table: the fields and the file
    data are as they were, the table has as many rows, and every row but
    row [i] is as it was. *)
Definition other_rows_kept (i : nat) (w w' : World) : Prop :=
  file_data (gui w') = file_data (gui w)
  /\ lan_ip_var (gui w') = lan_ip_var (gui w)
  /\ username_var (gui w') = username_var (gui w)
  /\ password_var (gui w') = password_var (gui w)
  /\ length (file_table (gui w')) = length (file_table (gui w))
  /\ forall j, j <> i ->
       nth_error (file_table (gui w')) j = nth_error (file_table (gui w)) j.

(** How many calls into paramiko a stretch of the trace holds. *)
Definition remote_calls (t : list Effect) : nat := length (filter is_remote t).

(** [w'] comes after [w] in a run: the trace has grown by [new], the
    answers that are gone, [used], stood at the head of the list, and, as
    long as the list has not run out, one answer went for each call. *)
Definition comes_after (w w' : World) : Prop :=
  exists (used : list Response) (new : list Effect),
    remote (env w) = (used ++ remote (env w'))%list
    /\ trace (env w') = (new ++ trace (env w))%list
    /\ (length used <= remote_calls new)%nat
    /\ (remote (env w') <> [] -> length used = remote_calls new).

(** The world after [k] calls of [time.sleep(n)] and nothing else. *)
Definition slept (k : nat) (n : Z) (w : World) : World :=
  Nat.iter k (fun w => snd (sleep n w)) w.

(** Code whose return value, when it returns, satisfies [P]. *)
Definition returns_only {S A} (P : A -> Prop) (m : SE S A) : Prop :=
  forall s a s', m s = (Ok a, s') -> P a.

(** An attempt that ended with [return]. *)
Definition returned (a : SingleFile.Attempt) : Prop :=
  exists result, a = SingleFile.Returns result.

(* ================================================================== *)
(** * More of src/network/connection.py *)
(* ================================================================== *)

Module RemoteFiles.

Import Connection ResultHandler.

(** [ensure_remote_directory(remote_dir)] *)
Definition ensure_remote_directory (remote_dir : string) : M bool :=
  try_except
    (r <- execute_command ("mkdir -p '" ++ remote_dir ++ "'") 30 ;;
     '(success, _, _) <- execute r ;;
     if negb success then ret false
     else
       r <- execute_command ("chmod 755 '" ++ remote_dir ++ "'") 30 ;;
       '(_, _, _) <- execute r ;;
       ret true)
    (fun _ => ret false).

End RemoteFiles.

Module MoreExamples.

Import Examples.

(** A device that has restarted: the connection is made and its test is
    answered, the listing of results shows nothing yet; a result listed
    later is there to be found. *)
Definition restarted_world : World :=
  mkWorld fresh_ssh
          (mkEnv [prints EmptyString; prints ("connection_test" ++ newline);
                  alive; prints EmptyString;
                  alive; prints ("-rw-r--r-- 1 root root 48 Jun 6 09:00 "
                                   ++ new_result ++ newline)]
                 no_files 0 None [])
          (mkGui [queued] [] "192.168.1.1" "root" "secret") empty_db.

(** Transfers that always fail and touch nothing. *)
Definition no_transfer (src dst : string) : M bool := ret false.

End MoreExamples.

(* ================================================================== *)
(** * Properties *)
(* ================================================================== *)

(** ** The string operations on sample inputs *)

Example strip_newline :
  strip ("connection_test" ++ Examples.newline) = "connection_test".
Proof. reflexivity. Qed.

Example strip_unicode_whitespace :
  strip (Examples.em_space ++ "keepalive" ++ Examples.no_break_space
           ++ Examples.newline) = "keepalive"
  /\ strip ("a" ++ Examples.no_break_space ++ "b")
     = "a" ++ Examples.no_break_space ++ "b"
  /\ strip (Examples.e_acute ++ " ") = Examples.e_acute.
Proof. repeat split; reflexivity. Qed.

Example split_ws_unicode_whitespace :
  split_ws ("a" ++ Examples.no_break_space ++ Examples.e_acute
              ++ Examples.em_space ++ " b")
  = ["a"; Examples.e_acute; "b"].
Proof. reflexivity. Qed.

Example take_chars_counts_characters :
  take_chars 2 (Examples.e_acute ++ Examples.e_acute ++ "x")
  = Examples.e_acute ++ Examples.e_acute
  /\ char_count (Examples.e_acute ++ "x") = 2%nat.
Proof. split; reflexivity. Qed.

Example is_connected_strips_no_break_space :
  fst (Connection.is_connected
         (Examples.world Examples.live_ssh
            [Examples.prints ("keepalive" ++ Examples.no_break_space
                                ++ Examples.newline)]
            Examples.no_files Examples.empty_gui))
  = Ok true.
Proof. reflexivity. Qed.

Example large_int_is_not_bindable :
  TestDatabase.bindable (JNum (2 ^ 63)) = false
  /\ TestDatabase.bindable (JNum (2 ^ 63 - 1)) = true
  /\ TestDatabase.bindable (JNum (- 2 ^ 63)) = true.
Proof. repeat split; reflexivity. Qed.

Example join_is_ntpath :
  OsPath.join "/tmp/results" "/tmp/results/wan_1_2.json"
  = "/tmp/results/wan_1_2.json"
  /\ OsPath.join "data" "temp" = "data" ++ String OsPath.backslash "temp".
Proof. split; reflexivity. Qed.

Example split_ws_ls_line :
  index_last (split_ws "-rw-r--r-- 1 root root 12 Jun 5 14:16 /r/a_1_2.json")
  = Some "/r/a_1_2.json".
Proof. reflexivity. Qed.

Example timestamp_of_result_name :
  ResultHandler.timestamp_of "base_20250605_141606.json"
  = Some "20250605_141606".
Proof. reflexivity. Qed.

Example timestamp_needs_three_parts :
  ResultHandler.timestamp_of "base_1.json" = None.
Proof. reflexivity. Qed.

Example splitext_keeps_inner_dots :
  OsPath.splitext "wan.v2.json" = ("wan.v2", ".json").
Proof. reflexivity. Qed.

Example sorted_by_code_point :
  sorted ["b_2"; "a_9"; "a_10"] = ["a_10"; "a_9"; "b_2"].
Proof. reflexivity. Qed.

Example contains_is_substring :
  contains "timed out" (lower "Socket TIMED OUT after 30s") = true
  /\ contains "timed out" "timeout" = false.
Proof. split; reflexivity. Qed.

(** ** Impact classification *)

Section ManagerFacts.
Import Manager.
Variable repr_container : json -> string.

Lemma flags_le_refl (i : Impacts) : flags_le i i.
Proof. repeat split; auto. Qed.

Lemma flags_le_trans (a b c : Impacts) :
  flags_le a b -> flags_le b c -> flags_le a c.
Proof.
  intros (H1 & H2 & H3) (K1 & K2 & K3); repeat split; auto.
Qed.

Lemma classify_service_le (service action : string) (i : Impacts) :
  flags_le i (classify_service service action i).
Proof.
  unfold classify_service.
  repeat match goal with |- context [if ?b then _ else _] => destruct b end;
    repeat split; simpl; auto.
Qed.

Lemma classify_command_le (params : json) (i : Impacts) :
  flags_le i (classify_command repr_container params i).
Proof.
  unfold classify_command.
  destruct params; try apply flags_le_refl.
  repeat match goal with |- context [if ?b then _ else _] => destruct b end;
    repeat split; simpl; auto.
Qed.

Lemma classify_service_inv (service action : string) (i : Impacts) :
  restart_implies_both i ->
  restart_implies_both (classify_service service action i).
Proof.
  unfold classify_service, restart_implies_both.
  repeat match goal with |- context [if ?b then _ else _] => destruct b end;
    simpl; intros H K; auto; destruct (H K); auto.
Qed.

Lemma classify_command_inv (params : json) (i : Impacts) :
  restart_implies_both i ->
  restart_implies_both (classify_command repr_container params i).
Proof.
  unfold classify_command, restart_implies_both.
  destruct params; auto.
  repeat match goal with |- context [if ?b then _ else _] => destruct b end;
    simpl; intros H K; auto.
Qed.

Lemma analyze_case_ok (test : json) (i i' : Impacts) :
  analyze_case repr_container test i = Ok i' ->
  flags_le i i' /\ (restart_implies_both i -> restart_implies_both i').
Proof.
  unfold analyze_case.
  destruct (get test "service" (JStr "")) as [sv|]; try discriminate.
  destruct (lower_of sv) as [service|]; try discriminate.
  destruct (get test "action" (JStr "")) as [av|]; try discriminate.
  destruct (lower_of av) as [action|]; try discriminate.
  destruct (get test "params" (JObj [])) as [params|]; try discriminate.
  intros H; injection H as <-. split.
  - eapply flags_le_trans;
      [apply classify_service_le | apply classify_command_le].
  - intros K. apply classify_command_inv, classify_service_inv, K.
Qed.

Lemma analyze_loop_le (tests : list json) (i : Impacts) :
  flags_le i (analyze_loop repr_container tests i).
Proof.
  revert i; induction tests as [|t ts IH]; intros i; simpl.
  - apply flags_le_refl.
  - destruct (analyze_case repr_container t i) as [i'|] eqn:E.
    + apply analyze_case_ok in E as [E _].
      eapply flags_le_trans; [exact E | apply IH].
    + apply flags_le_refl.
Qed.

Lemma analyze_loop_inv (tests : list json) (i : Impacts) :
  restart_implies_both i ->
  restart_implies_both (analyze_loop repr_container tests i).
Proof.
  revert i; induction tests as [|t ts IH]; intros i Hi; simpl; auto.
  destruct (analyze_case repr_container t i) as [i'|] eqn:E; auto.
  apply analyze_case_ok in E as [_ E]. auto.
Qed.

Lemma analyze_loop_prefix (pre post : list json) (i : Impacts) :
  flags_le (analyze_loop repr_container pre i)
           (analyze_loop repr_container (pre ++ post) i).
Proof.
  revert i; induction pre as [|t ts IH]; intros i; simpl.
  - apply analyze_loop_le.
  - destruct (analyze_case repr_container t i) as [i'|].
    + apply IH.
    + apply flags_le_refl.
Qed.

Lemma no_impacts_inv : restart_implies_both no_impacts.
Proof. unfold restart_implies_both; simpl; discriminate. Qed.

(** C3. Impact classification is a fold over the test cases in which the
    three flags only ever go from false to true: the flags after any prefix
    of the cases are below the flags after the whole list, for the loop
    from any flags and for [analyze_test_impacts] on a definition with
    those cases; and in every assessment [analyze_test_impacts] returns,
    restarts_network implies affects_wan and affects_lan. *)
Theorem impacts_monotone_restart_implies_both :
  forall (pre post : list json) (i : Impacts)
         (others : list (string * json)) (data : json),
    flags_le (analyze_loop repr_container pre i)
             (analyze_loop repr_container (pre ++ post) i)
    /\ flags_le
         (analyze_test_impacts repr_container
            (JObj (("test_cases", JList pre) :: others)))
         (analyze_test_impacts repr_container
            (JObj (("test_cases", JList (pre ++ post)) :: others)))
    /\ restart_implies_both (analyze_test_impacts repr_container data).
Proof.
  intros pre post i others data. split; [|split].
  - apply analyze_loop_prefix.
  - unfold analyze_test_impacts; simpl. apply analyze_loop_prefix.
  - unfold analyze_test_impacts.
    destruct (get data "test_cases" (JList [])) as [tc|];
      [|apply no_impacts_inv].
    destruct (iter tc) as [tests|]; [|apply no_impacts_inv].
    apply analyze_loop_inv, no_impacts_inv.
Qed.

End ManagerFacts.

(** The rules of the classifier on sample definitions. *)
Example restart_of_network_sets_all :
  Manager.analyze_test_impacts Examples.repr_plain
    (JObj [("test_cases",
            JList [JObj [("service", JStr "Network");
                         ("action", JStr "restart")]])])
  = Manager.mkImpacts true true true.
Proof. reflexivity. Qed.

Example wan_service_sets_wan_only :
  Manager.analyze_test_impacts Examples.repr_plain
    (JObj [("test_cases",
            JList [JObj [("service", JStr "wan"); ("action", JStr "status")]])])
  = Manager.mkImpacts true false false.
Proof. reflexivity. Qed.

Example later_case_keeps_flags :
  Manager.analyze_test_impacts Examples.repr_plain
    (JObj [("test_cases",
            JList [JObj [("service", JStr "wifi"); ("action", JStr "scan")];
                   JObj [("service", JStr "system"); ("action", JStr "uptime")];
                   JObj [("service", JStr "system");
                         ("params",
                          JObj [("command",
                                 JStr "/etc/init.d/firewall restart")])]])])
  = Manager.mkImpacts true true true.
Proof. reflexivity. Qed.

Example bad_case_keeps_earlier_flags :
  Manager.analyze_test_impacts Examples.repr_plain
    (JObj [("test_cases",
            JList [JObj [("service", JStr "dhcp")];
                   JNum 7;
                   JObj [("service", JStr "lan")]])])
  = Manager.mkImpacts true false false.
Proof. reflexivity. Qed.

(** ** Validation of a definition file *)

Ltac run_monad :=
  unfold try_except, bind, update, read, ret, raise, lift, in_world, local,
    assign; simpl.

(** C9. A file whose parsed JSON object has no test_cases key is rejected
    with the message Missing 'test_cases' section and no data; and for every
    input, validation only touches the local disk: the effects it adds are
    not remote ones, no answer of the remote side is consumed and the
    SSHConnection object is unchanged. *)
Theorem validate_missing_test_cases_no_network :
  (forall (file_path : string) (w : World) (size : Z)
          (kvs : list (string * json)),
      local_files (env w) file_path = Some (mkLocalFile size (Json (JObj kvs))) ->
      lookup "test_cases" kvs = None ->
      fst (Manager.validate_json_file file_path w)
      = Ok (false, "Missing 'test_cases' section", None))
  /\ (forall (file_path : string) (w : World),
         let w' := snd (Manager.validate_json_file file_path w) in
         exists effects,
           trace (env w') = (effects ++ trace (env w))%list
           /\ forallb (fun e => negb (is_remote e)) effects = true
           /\ remote (env w') = remote (env w)
           /\ ssh w' = ssh w).
Proof.
  split.
  - intros file_path w size kvs Hfile Hkey.
    unfold Manager.validate_json_file. run_monad.
    rewrite Hfile. simpl. rewrite Hkey. reflexivity.
  - intros file_path w. unfold Manager.validate_json_file. run_monad.
    destruct (local_files (env w) file_path) as [[size content]|]; simpl.
    + destruct content as [msg|msg|data]; simpl.
      * exists [FsLoad file_path; FsExists file_path]. auto.
      * exists [FsLoad file_path; FsExists file_path]. auto.
      * destruct (str_in "test_cases" data) as [[|]|]; simpl;
          exists [FsLoad file_path; FsExists file_path]; auto.
    + exists [FsExists file_path]. auto.
Qed.

Lemma validate_missing_test_cases_witness :
  let w := Examples.world Examples.fresh_ssh []
             (Examples.one_file "wan.json"
                (mkLocalFile 21 (Json Examples.doc_without_cases)))
             Examples.empty_gui in
  local_files (env w) "wan.json"
    = Some (mkLocalFile 21 (Json Examples.doc_without_cases))
  /\ fst (Manager.validate_json_file "wan.json" w)
     = Ok (false, "Missing 'test_cases' section", None).
Proof.
  split; [reflexivity|].
  apply (proj1 validate_missing_test_cases_no_network "wan.json" _ 21
           [("name", JStr "wan check")]); reflexivity.
Defined.

(** ** Outcome normalization *)

Section OutcomeFacts.
Import FileProcessor OutcomeSpec.

Lemma all_pass_well_typed (cases : list json) :
  forallb well_typed_case cases = true ->
  all_pass cases = Ok (forallb status_is_pass cases).
Proof.
  induction cases as [|c cs IH]; simpl; [reflexivity|].
  intros H. apply andb_true_iff in H as [Hc Hcs].
  destruct c as [| | | | |fields]; try discriminate. simpl in *.
  destruct (lookup "status" fields) as [[| | |s| |]|]; try discriminate; simpl.
  - destruct (lower s =? "pass")%string; simpl; auto.
  - apply IH in Hcs. reflexivity.
Qed.

Lemma fallback_branch (kvs : list (string * json)) :
  needs_fallback kvs = true ->
  determine_overall_result (JObj kvs)
  = match lookup "pass" kvs with
    | Some p => Ok (JStr (if truthy p then "Pass" else "Fail"))
    | None =>
        let test_cases :=
          match lookup "test_results" kvs with
          | Some t => t
          | None => JList []
          end in
        if truthy test_cases
        then
          match iter test_cases with
          | Raise e => Raise e
          | Ok cases =>
              match all_pass cases with
              | Raise e => Raise e
              | Ok ok => Ok (JStr (if ok then "Pass" else "Fail"))
              end
          end
        else Ok (JStr "Pass")
    end.
Proof.
  unfold needs_fallback, determine_overall_result. simpl.
  destruct (lookup "overall_result" kvs) as [v|]; intros H.
  - rewrite H. destruct (lookup "pass" kvs); reflexivity.
  - simpl. destruct (lookup "pass" kvs); reflexivity.
Qed.

(** C1, as the code has it. Outcome normalization is a function of the
    document: an overall_result that is present, non-empty and not Unknown
    is used as it is; otherwise, if the key pass is present, whatever the
    type of its value, the result is Pass when the value is truthy and Fail
    when it is falsy; otherwise, if test_results is a non-empty list of
    objects whose status is a string or missing, the result is Pass exactly
    when every status is pass without regard to case, else Fail; otherwise,
    if test_results is missing or empty, the result is Pass. *)
Theorem outcome_normalization :
  forall kvs : list (string * json),
    (forall v, lookup "overall_result" kvs = Some v ->
               truthy v = true -> eq_str v "Unknown" = false ->
               determine_overall_result (JObj kvs) = Ok v)
    /\ (needs_fallback kvs = true ->
        forall p, lookup "pass" kvs = Some p ->
        determine_overall_result (JObj kvs)
        = Ok (JStr (if truthy p then "Pass" else "Fail")))
    /\ (needs_fallback kvs = true ->
        lookup "pass" kvs = None ->
        forall c cs, lookup "test_results" kvs = Some (JList (c :: cs)) ->
        forallb well_typed_case (c :: cs) = true ->
        determine_overall_result (JObj kvs)
        = Ok (JStr (if forallb status_is_pass (c :: cs)
                    then "Pass" else "Fail")))
    /\ (needs_fallback kvs = true ->
        lookup "pass" kvs = None ->
        (forall t, lookup "test_results" kvs = Some t -> truthy t = false) ->
        determine_overall_result (JObj kvs) = Ok (JStr "Pass")).
Proof.
  intros kvs. repeat split.
  - intros v Hv Ht Hu. unfold determine_overall_result. simpl.
    rewrite Hv, Ht, Hu. reflexivity.
  - intros Hf p Hp. rewrite (fallback_branch kvs Hf), Hp. reflexivity.
  - intros Hf Hp c cs Ht Hw.
    rewrite (fallback_branch kvs Hf), Hp, Ht.
    cbn [truthy iter]. rewrite (all_pass_well_typed _ Hw). reflexivity.
  - intros Hf Hp Ht. rewrite (fallback_branch kvs Hf), Hp.
    destruct (lookup "test_results" kvs) as [t|]; [|reflexivity].
    cbv zeta. rewrite (Ht t eq_refl). reflexivity.
Qed.

(** The four documents the specification lists, and one with a usable
    overall_result, each through the clause that applies to it. *)
Lemma outcome_normalization_witness :
  determine_overall_result (JObj []) = Ok (JStr "Pass")
  /\ determine_overall_result (JObj [("pass", JBool false)]) = Ok (JStr "Fail")
  /\ determine_overall_result
       (JObj [("test_results",
               JList [JObj [("status", JStr "pass")];
                      JObj [("status", JStr "fail")]])])
     = Ok (JStr "Fail")
  /\ determine_overall_result
       (JObj [("test_results", JList [JObj [("status", JStr "PASS")]])])
     = Ok (JStr "Pass")
  /\ determine_overall_result (JObj [("overall_result", JStr "Fail")])
     = Ok (JStr "Fail").
Proof.
  split; [|split; [|split; [|split]]].
  - apply (proj2 (proj2 (proj2 (outcome_normalization [])))); try reflexivity.
    intros t H; discriminate H.
  - apply (proj1 (proj2 (outcome_normalization [("pass", JBool false)]))
             eq_refl (JBool false) eq_refl).
  - apply (proj1 (proj2 (proj2 (outcome_normalization
             [("test_results",
               JList [JObj [("status", JStr "pass")];
                      JObj [("status", JStr "fail")]])])))
             eq_refl eq_refl _ _ eq_refl eq_refl).
  - apply (proj1 (proj2 (proj2 (outcome_normalization
             [("test_results", JList [JObj [("status", JStr "PASS")]])])))
             eq_refl eq_refl _ _ eq_refl eq_refl).
  - apply (proj1 (outcome_normalization [("overall_result", JStr "Fail")])
             (JStr "Fail") eq_refl eq_refl eq_refl).
Defined.

(** The claim as the specification words it fails on a document whose pass
    field is not a boolean: for pass = null the code answers Fail, the
    specification's reading answers Pass. *)
Lemma outcome_normalization_counterexample :
  determine_overall_result (JObj [("pass", JNull)]) = Ok (JStr "Fail")
  /\ claimed_outcome [("pass", JNull)] = JStr "Pass"
  /\ determine_overall_result (JObj [("pass", JNull)])
     <> Ok (claimed_outcome [("pass", JNull)]).
Proof.
  repeat split; try reflexivity. discriminate.
Qed.

End OutcomeFacts.

(** ** The SSH connection *)

Section ConnectionFacts.
Import Connection.

Lemma paramiko_answer (e : Effect) (w : World) :
  paramiko e w
  = match next_answer w with
    | Done out err st => (Ok (out, err, st), answered e w)
    | Raises msg => (Raise msg, answered e w)
    end.
Proof.
  unfold paramiko, next_answer, answered, pop_remote, with_env, log_effect.
  simpl. destruct (remote (env w)) as [|[out err st|msg] rs]; reflexivity.
Qed.

Lemma answered_trace (e : Effect) (w : World) :
  trace (env (answered e w)) = e :: trace (env w).
Proof.
  unfold answered, pop_remote, with_env, log_effect. simpl.
  destruct (remote (env w)); reflexivity.
Qed.

Lemma answered_ssh (e : Effect) (w : World) : ssh (answered e w) = ssh w.
Proof. reflexivity. Qed.

Lemma answered_gui_db (e : Effect) (w : World) :
  gui (answered e w) = gui w /\ db (answered e w) = db w.
Proof. split; reflexivity. Qed.

Lemma answered_remote (e : Effect) (w : World) :
  remote (env (answered e w)) = tl (remote (env w)).
Proof.
  unfold answered, pop_remote, with_env, log_effect. simpl.
  destruct (remote (env w)); reflexivity.
Qed.

(** What [is_connected] does when the flag is set and a client is stored. *)
Lemma is_connected_canary (w : World) :
  connected (ssh w) = true -> client (ssh w) <> None ->
  is_connected w
  = match next_answer w with
    | Done out _ _ =>
        (Ok (strip out =? "keepalive")%string,
         answered (SshExec "echo 'keepalive'" 3) w)
    | Raises _ =>
        (Ok false,
         with_ssh (set_connected false)
                  (answered (SshExec "echo 'keepalive'" 3) w))
    end.
Proof.
  intros Hc Hcl. unfold is_connected. run_monad.
  rewrite Hc. destruct (client (ssh w)); [|contradiction]. simpl.
  rewrite paramiko_answer. destruct (next_answer w); reflexivity.
Qed.

Lemma is_connected_cached (w : World) :
  connected (ssh w) = false \/ client (ssh w) = None ->
  is_connected w = (Ok false, w).
Proof.
  intros H. unfold is_connected. run_monad.
  destruct H as [H|H]; rewrite H; simpl; [reflexivity|].
  destruct (connected (ssh w)); reflexivity.
Qed.



End ConnectionFacts.

Section ConnectFacts.
Import Connection.

(** [disconnect] never raises; it sends at most the close of the stored
    client. *)
Lemma disconnect_world (w : World) :
  disconnect w
  = (Ok tt,
     match client (ssh w) with
     | None =>
         with_ssh (fun s => mkSSH (client s) false None None None (port s)) w
     | Some _ =>
         match next_answer w with
         | Done _ _ _ =>
             with_ssh (fun s => mkSSH None false None None None (port s))
                      (answered SshClose w)
         | Raises _ => answered SshClose w
         end
     end).
Proof.
  unfold disconnect. run_monad.
  destruct (client (ssh w)); [|reflexivity].
  unfold bind. rewrite paramiko_answer.
  destruct (next_answer w); reflexivity.
Qed.

Lemma disconnect_trace (w : World) :
  trace (env (snd (disconnect w)))
  = match client (ssh w) with
    | Some _ => SshClose :: trace (env w)
    | None => trace (env w)
    end.
Proof.
  rewrite disconnect_world. simpl.
  destruct (client (ssh w)); [|reflexivity].
  destruct (next_answer w); apply answered_trace.
Qed.

Lemma next_answer_of_remote (w : World) :
  next_answer w
  = match remote (env w) with
    | [] => Raises "Socket is closed"
    | r :: _ => r
    end.
Proof.
  unfold next_answer, pop_remote. destruct (remote (env w)); reflexivity.
Qed.

(** [connect], step by step. *)
Lemma connect_world (host user pass : string) (prt timeout : Z) (w : World) :
  let w2 :=
    with_ssh (fun s => mkSSH (Some ParamikoClient) (connected s) (Some host)
                             (Some user) (Some pass) (Some prt))
             (snd (disconnect w)) in
  let w3 := answered (SshConnect host prt user pass timeout) w2 in
  let w4 := answered (SshExec "echo 'connection_test'" 5) w3 in
  connect host user pass prt timeout w
  = match next_answer w2 with
    | Raises _ => (Ok false, w3)
    | Done _ _ _ =>
        match next_answer w3 with
        | Raises _ => (Ok false, w4)
        | Done out _ _ =>
            if (strip out =? "connection_test")%string
            then (Ok true, with_ssh (set_connected true) w4)
            else (Ok false, w4)
        end
    end.
Proof.
  assert (Hd : fst (disconnect w) = Ok tt)
    by (rewrite disconnect_world; reflexivity).
  unfold connect, connect_body. unfold try_except, bind at 1 2 3.
  destruct (disconnect w) as [r w1]. cbn [fst snd] in *. subst r.
  cbn [update]. unfold bind at 1. rewrite paramiko_answer.
  destruct (next_answer _) as [o1 e1 s1|m1]; [|reflexivity].
  unfold bind at 1. rewrite paramiko_answer.
  destruct (next_answer _) as [out e2 s2|m2]; [|reflexivity].
  destruct (strip out =? "connection_test")%string; reflexivity.
Qed.

(** C7. [connect] runs [disconnect] first (the close of a stored client is
    the first effect, before the new client connects); it never raises; and
    it returns True exactly when the new client's connect call and the
    canary command both complete and the stripped output of the canary is
    the string connection_test, in which case the session is marked
    connected; any exception and any other output give False. *)
Theorem connect_disconnects_first_never_raises :
  forall (host user pass : string) (prt timeout : Z) (w : World),
    let w1 := snd (disconnect w) in
    let result := connect host user pass prt timeout w in
    fst result = Ok (canary_matches (remote (env w1)))
    /\ trace (env w1)
       = match client (ssh w) with
         | Some _ => SshClose :: trace (env w)
         | None => trace (env w)
         end
    /\ (exists later,
          trace (env (snd result))
          = (later ++ SshConnect host prt user pass timeout :: trace (env w1))%list
          /\ (later = [] \/ later = [SshExec "echo 'connection_test'" 5]))
    /\ (canary_matches (remote (env w1)) = true ->
        connected (ssh (snd result)) = true).
Proof.
  intros host user pass prt timeout w w1 result.
  split; [|split; [apply disconnect_trace|]];
    subst result; rewrite connect_world; fold w1;
    set (w2 := with_ssh _ w1);
    set (w3 := answered (SshConnect host prt user pass timeout) w2);
    set (w4 := answered (SshExec "echo 'connection_test'" 5) w3);
    assert (Ht3 : trace (env w3)
                  = SshConnect host prt user pass timeout :: trace (env w1))
      by (subst w3; rewrite answered_trace; reflexivity);
    assert (Ht4 : trace (env w4)
                  = SshExec "echo 'connection_test'" 5
                    :: SshConnect host prt user pass timeout :: trace (env w1))
      by (subst w4; rewrite answered_trace, Ht3; reflexivity);
    assert (H2 : next_answer w2
                 = match remote (env w1) with
                   | [] => Raises "Socket is closed"
                   | r :: _ => r
                   end)
      by (rewrite next_answer_of_remote; reflexivity);
    assert (H3 : next_answer w3
                 = match tl (remote (env w1)) with
                   | [] => Raises "Socket is closed"
                   | r :: _ => r
                   end)
      by (rewrite next_answer_of_remote; subst w3;
          rewrite answered_remote; reflexivity);
    rewrite H2, H3; unfold canary_matches;
    destruct (remote (env w1)) as [|[o1 e1 s1|m1] [|[out e2 s2|m2] rs]];
    cbn [tl fst snd];
    try destruct (strip out =? "connection_test")%string;
    cbn [fst snd]; try reflexivity.
  all: split; [|first [discriminate | reflexivity]].
  all: first [ exists []; split; [exact Ht3 | left; reflexivity]
             | exists [SshExec "echo 'connection_test'" 5];
               split; [exact Ht4 | right; reflexivity] ].
Qed.

Lemma connect_disconnects_first_never_raises_witness :
  let w := Examples.world Examples.live_ssh
             [Examples.prints ""; Examples.prints "";
              Examples.prints ("connection_test" ++ Examples.newline)]
             Examples.no_files Examples.empty_gui in
  canary_matches (remote (env (snd (disconnect w)))) = true
  /\ connected (ssh (snd (connect "10.0.0.1" "root" "pw" 22 10 w))) = true.
Proof.
  split; [reflexivity|].
  apply (proj2 (proj2 (proj2
           (connect_disconnects_first_never_raises "10.0.0.1" "root" "pw" 22 10
              _)))).
  reflexivity.
Defined.

End ConnectFacts.

Section ExecuteFacts.
Import Connection.

Lemma execute_iteration_dead (command : string) (timeout rc : Z) (w : World) :
  connected (ssh w) = false \/ client (ssh w) = None ->
  execute_iteration command timeout rc w
  = (Ok (Return (false, "", "Not connected")), w).
Proof.
  intros H. unfold execute_iteration, bind.
  rewrite (is_connected_cached w H). reflexivity.
Qed.

Lemma execute_iteration_live (command : string) (timeout rc : Z) (w : World) :
  connected (ssh w) = true -> client (ssh w) <> None ->
  let w1 := answered (SshExec "echo 'keepalive'" 3) w in
  let w2 := answered (SshExec command timeout) w1 in
  execute_iteration command timeout rc w
  = match next_answer w with
    | Raises _ =>
        (Ok (Return (false, "", "Not connected")),
         with_ssh (set_connected false) w1)
    | Done out _ _ =>
        if (strip out =? "keepalive")%string
        then
          match next_answer w1 with
          | Done stdout_data stderr_data exit_code =>
              (Ok (Return (exit_code =? 0, stdout_data, stderr_data)), w2)
          | Raises e =>
              if (rc + 1 >? max_retries) || negb (contains "timed out" (lower e))
              then (Ok (Return (false, "", e)), w2)
              else (Ok (Continue (rc + 1)),
                    with_env (fun v => advance 2 (log_effect (Sleep 2) v))
                             (with_ssh (set_connected false) w2))
          end
        else (Ok (Return (false, "", "Not connected")), w1)
    end.
Proof.
  intros Hc Hcl w1 w2. unfold execute_iteration. unfold bind at 1.
  rewrite (is_connected_canary w Hc Hcl).
  destruct (next_answer w) as [out e s|m]; [|reflexivity].
  fold w1. destruct (strip out =? "keepalive")%string; [|reflexivity].
  cbn [negb]. cbv iota. unfold try_except, bind at 1. unfold read at 1.
  change (client (ssh w1)) with (client (ssh w)).
  destruct (client (ssh w)) as [c|]; [|contradiction].
  unfold bind at 1. rewrite paramiko_answer. fold w2.
  destruct (next_answer w1) as [so se ex|e']; [reflexivity|].
  destruct ((rc + 1 >? max_retries) || negb (contains "timed out" (lower e')));
    reflexivity.
Qed.


(** [execute_command], case by case. *)
Lemma execute_command_world (command : string) (timeout : Z) (w : World) :
  let w1 := answered canary w in
  let w2 := answered (SshExec command timeout) w1 in
  execute_command command timeout w
  = if has_session w
    then
      match next_answer w with
      | Raises _ => (Ok (Some not_connected), with_ssh (set_connected false) w1)
      | Done out _ _ =>
          if (strip out =? "keepalive")%string
          then
            match next_answer w1 with
            | Done stdout_data stderr_data exit_code =>
                (Ok (Some (exit_code =? 0, stdout_data, stderr_data)), w2)
            | Raises e =>
                if contains "timed out" (lower e)
                then (Ok (Some not_connected),
                      with_env (fun v => advance 2 (log_effect (Sleep 2) v))
                               (with_ssh (set_connected false) w2))
                else (Ok (Some (false, "", e)), w2)
            end
          else (Ok (Some not_connected), w1)
      end
    else (Ok (Some not_connected), w).
Proof.
  intros w1 w2. unfold execute_command, execute_loop, has_session.
  change (0 <=? max_retries) with true. cbv iota. unfold bind at 1.
  destruct (connected (ssh w)) eqn:Hc;
    [|rewrite execute_iteration_dead by auto; reflexivity].
  destruct (client (ssh w)) as [c|] eqn:Hcl;
    [|rewrite execute_iteration_dead by auto; reflexivity].
  assert (Hcl' : client (ssh w) <> None) by (rewrite Hcl; discriminate).
  rewrite (execute_iteration_live command timeout 0 w Hc Hcl').
  fold canary. fold w1. fold w2. cbn [andb].
  destruct (next_answer w) as [out e s|m]; [|reflexivity].
  destruct (strip out =? "keepalive")%string; [|reflexivity].
  destruct (next_answer w1) as [so se ex|e']; [reflexivity|].
  change (0 + 1 >? max_retries) with false. cbn [orb].
  destruct (contains "timed out" (lower e')); [|reflexivity].
  cbn [negb]. cbv iota beta. change (0 + 1 <=? max_retries) with true. cbv iota.
  unfold bind at 1. rewrite execute_iteration_dead by (left; reflexivity).
  reflexivity.
Qed.

(** Whatever the remote side answers, [execute_command] returns a triple
    and sends the command at most once: after a timeout-class error the
    session is marked not connected, two seconds pass, and the next pass
    through the loop returns Not connected without sending anything. *)
Theorem execute_command_sends_once (command : string) (timeout : Z) (w : World) :
  let result := execute_command command timeout w in
  exists v new,
    fst result = Ok (Some v)
    /\ trace (env (snd result)) = (new ++ trace (env w))%list
    /\ (new = [] \/ new = [canary] \/ new = [SshExec command timeout; canary]
        \/ (new = [Sleep 2; SshExec command timeout; canary]
            /\ v = not_connected)).
Proof.
  intros result. subst result. rewrite execute_command_world.
  set (w1 := answered canary w).
  set (w2 := answered (SshExec command timeout) w1).
  assert (H1 : trace (env w1) = canary :: trace (env w))
    by apply answered_trace.
  assert (H2 : trace (env w2) = SshExec command timeout :: canary :: trace (env w))
    by (subst w2; rewrite answered_trace, H1; reflexivity).
  destruct (has_session w);
    [|exists not_connected, []; split; [reflexivity|]; split; [reflexivity|auto]].
  destruct (next_answer w) as [out e s|m];
    [|exists not_connected, [canary];
      split; [reflexivity|]; split; [exact H1|auto]].
  destruct (strip out =? "keepalive")%string;
    [|exists not_connected, [canary];
      split; [reflexivity|]; split; [exact H1|auto]].
  destruct (next_answer w1) as [so se ex|e'].
  - exists (ex =? 0, so, se), [SshExec command timeout; canary].
    split; [reflexivity|]. split; [exact H2|auto].
  - destruct (contains "timed out" (lower e')).
    + exists not_connected, [Sleep 2; SshExec command timeout; canary].
      split; [reflexivity|]. split; [|auto 6].
      cbn [snd]. unfold with_env at 1. cbn [env trace advance log_effect].
      unfold with_ssh at 1. cbn [env]. rewrite H2. reflexivity.
    + exists (false, "", e'), [SshExec command timeout; canary].
      split; [reflexivity|]. split; [exact H2|auto].
Qed.

(** C4, at a command that times out once on a live session: the triple
    returned is (False, empty, Not connected); the command was sent once and
    not again, although the remote side would have answered a second
    attempt; the session is left marked not connected. *)
Theorem execute_command_timeout_not_retried :
  let result := execute_command "ls /tmp" 30 Examples.timeout_world in
  fst result = Ok (Some (false, "", "Not connected"))
  /\ trace (env (snd result)) = [Sleep 2; SshExec "ls /tmp" 30; canary]
  /\ executions "ls /tmp" 30 (trace (env (snd result))) = 1%nat
  /\ remote (env (snd result))
     = [Examples.prints ("keepalive" ++ Examples.newline);
        Examples.prints ("done" ++ Examples.newline)]
  /\ connected (ssh (snd result)) = false.
Proof.
  vm_compute. split; [|split; [|split; [|split]]]; reflexivity.
Qed.

(** A failure that is not a timeout returns at once with the message of
    the exception: nothing is slept, the flag is not touched. *)
Lemma execute_command_other_error_returns (command : string) (timeout : Z)
  (w : World) (out err msg : string) (st : Z) :
  has_session w = true ->
  next_answer w = Done out err st ->
  (strip out =? "keepalive")%string = true ->
  next_answer (answered canary w) = Raises msg ->
  contains "timed out" (lower msg) = false ->
  execute_command command timeout w
  = (Ok (Some (false, "", msg)),
     answered (SshExec command timeout) (answered canary w)).
Proof.
  intros Hs Ha Hk Hr Ht.
  rewrite execute_command_world, Hs, Ha, Hk, Hr, Ht. reflexivity.
Qed.

End ExecuteFacts.

(** ** The result locator *)

Section MonadFacts.
Context {S A B : Type}.

Lemma bind_ok (m : SE S A) (k : A -> SE S B) (s s' : S) (r : B) :
  bind m k s = (Ok r, s') ->
  exists a s1, m s = (Ok a, s1) /\ k a s1 = (Ok r, s').
Proof.
  unfold bind. destruct (m s) as [[a|e] s1]; [|discriminate].
  intros H. exists a, s1. auto.
Qed.

Lemma try_except_ok (m : SE S A) (h : string -> SE S A) (s s' : S) (r : A) :
  try_except m h s = (Ok r, s') ->
  m s = (Ok r, s')
  \/ exists e s1, m s = (Raise e, s1) /\ h e s1 = (Ok r, s').
Proof.
  unfold try_except. destruct (m s) as [[a|e] s1]; intros H.
  - left. exact H.
  - right. exists e, s1. auto.
Qed.
End MonadFacts.

Section LocatorFacts.
Import Connection ResultHandler.

Lemma execute_ok {S} (r : option (bool * string * string)) (s s' : S)
  (t : bool * string * string) :
  execute r s = (Ok t, s') -> r = Some t /\ s' = s.
Proof.
  destruct r as [t'|]; unfold execute, ret, raise; intros H;
    [injection H as <- <-; auto | discriminate].
Qed.

Lemma verify_file_ready_true (file_path : string) (w w' : World) :
  _verify_file_ready file_path w = (Ok true, w') ->
  stable_reads file_path w w'.
Proof.
  unfold _verify_file_ready. intros H.
  apply try_except_ok in H as [H|(e & s1 & _ & H)]; [|discriminate].
  apply bind_ok in H as (r & wa & Hr & H).
  apply bind_ok in H as ([[success output] err] & wa' & Hx & H).
  apply execute_ok in Hx as [-> ->].
  destruct success; [|discriminate]. cbn [negb orb] in H.
  destruct (strip output =? "exists")%string eqn:Hex; [|discriminate].
  cbn [negb] in H.
  apply bind_ok in H as (r1 & wb & Hr1 & H).
  apply bind_ok in H as ([[success1 size1] err1] & wb' & Hx & H).
  apply execute_ok in Hx as [-> ->].
  destruct success1; [|discriminate]. cbn [negb orb] in H.
  destruct (strip size1 =? "")%string eqn:Hne; [discriminate|].
  apply bind_ok in H as ([] & wc & Hs & H).
  unfold sleep, update in Hs. injection Hs as <-.
  apply bind_ok in H as (r2 & wd & Hr2 & H).
  apply bind_ok in H as ([[success2 size2] err2] & wd' & Hx & H).
  apply execute_ok in Hx as [-> ->].
  destruct success2; [|discriminate]. cbn [negb orb] in H.
  destruct (strip size1 =? strip size2)%string eqn:Heq; [|discriminate].
  injection H as <-.
  exists output, err, wa, wb, size1, size2.
  split; [exact Hr|]. split; [apply String.eqb_eq; exact Hex|].
  split; [exists err1; exact Hr1|].
  split; [exists err2; exact Hr2|].
  split; [apply String.eqb_eq; exact Heq|].
  intros K. rewrite K in Hne. discriminate.
Qed.


Lemma size_read_trace (file_path size : string) (before after : World) :
  size_read file_path size before after ->
  trace (env after)
  = SshExec ("stat -c %s " ++ file_path) 30 :: canary :: trace (env before).
Proof.
  intros [err H]. rewrite execute_command_world in H.
  destruct (has_session before); [|discriminate].
  destruct (next_answer before) as [out e s|m]; [|discriminate].
  destruct (strip out =? "keepalive")%string; [|discriminate].
  destruct (next_answer (answered canary before)) as [so se ex|e'].
  - injection H as _ _ _ <-. rewrite !answered_trace. reflexivity.
  - destruct (contains "timed out" (lower e')); discriminate.
Qed.

Lemma stable_reads_trace (file_path : string) (start finish : World) :
  stable_reads file_path start finish ->
  exists history,
    trace (env finish)
    = SshExec ("stat -c %s " ++ file_path) 30 :: canary :: Sleep 1
      :: SshExec ("stat -c %s " ++ file_path) 30 :: canary :: history.
Proof.
  intros (out & err & w1 & w2 & size1 & size2 & _ & _ & H1 & H2 & _).
  apply size_read_trace in H1, H2. rewrite H2. cbn [env with_env trace advance log_effect].
  rewrite H1. eexists. reflexivity.
Qed.

Section Wait.
Variable os_path_join : string -> string -> string.
Variable os_path_basename : string -> string.

Lemma poll_found (result_dir pattern : string) (initial_files : list string)
  (latest : option string) (s s' : World * Locals) (p f : string) :
  poll os_path_join result_dir pattern initial_files latest s
  = (Ok (Found p f), s') ->
  p = os_path_join result_dir f
  /\ counts_as_new initial_files latest p f
  /\ exists start, _verify_file_ready p start = (Ok true, fst s').
Proof.
  unfold poll. intros H.
  apply bind_ok in H as (alive & s1 & _ & H).
  apply bind_ok in H as (reconnected & s2 & _ & H).
  destruct (negb reconnected); [discriminate|].
  apply bind_ok in H as (r & s3 & _ & H).
  apply bind_ok in H as ([[success info] err] & s4 & _ & H).
  destruct (negb success || (strip info =? "")%string).
  { apply bind_ok in H as (? & ? & _ & H). discriminate. }
  destruct (index_last (split_ws (strip info))) as [newest_file|];
    [|discriminate].
  set (full_path := os_path_join result_dir newest_file) in *.
  match type of H with
  | (if ?c then _ else _) _ = _ => destruct c eqn:Hnew; [|discriminate]
  end.
  apply bind_ok in H as ([] & s5 & _ & H).
  apply bind_ok in H as (ready & s6 & Hv & H).
  destruct ready; [|discriminate].
  injection H as <- <- <-.
  split; [reflexivity|]. split.
  - unfold counts_as_new. fold full_path.
    destruct (timestamp_of newest_file) as [ts|].
    + destruct (newer_than latest ts) eqn:Hn.
      * right. exists ts. auto.
      * left. apply negb_true_iff. exact Hnew.
    + left. apply negb_true_iff. exact Hnew.
  - unfold in_world in Hv.
    destruct (_verify_file_ready full_path (fst s5)) as [rv wv] eqn:Ev.
    injection Hv as -> <-. exists (fst s5). exact Ev.
Qed.

Lemma wait_iteration_found (start_wait : Z) (result_dir pattern : string)
  (initial_files : list string) (latest : option string)
  (s s' : World * Locals) (p f : string) :
  wait_iteration os_path_join start_wait result_dir pattern initial_files
                 latest s = (Ok (Some (p, f)), s') ->
  p = os_path_join result_dir f
  /\ counts_as_new initial_files latest p f
  /\ exists start, _verify_file_ready p start = (Ok true, fst s').
Proof.
  unfold wait_iteration. intros H.
  apply bind_ok in H as (now & s1 & _ & H).
  apply bind_ok in H as (flow & s2 & Hp & H).
  destruct flow as [p' f'| |].
  - injection H as <- <- <-.
    apply try_except_ok in Hp as [Hp|(e & s3 & _ & Hh)].
    + apply poll_found in Hp. exact Hp.
    + apply bind_ok in Hh as (? & ? & _ & Hh).
      apply bind_ok in Hh as (? & ? & _ & Hh). discriminate.
  - discriminate.
  - apply bind_ok in H as (last & s3 & _ & H).
    apply bind_ok in H as (? & s4 & _ & H).
    apply bind_ok in H as (running & s5 & _ & H).
    destruct (negb running); [discriminate|].
    apply bind_ok in H as (? & ? & _ & H). discriminate.
Qed.

Lemma wait_loop_found (fuel : nat) (start_wait timeout : Z)
  (result_dir pattern : string) (initial_files : list string)
  (latest : option string) (s s' : World * Locals) (p f : string) :
  wait_loop os_path_join fuel start_wait timeout result_dir pattern
            initial_files latest s = (Ok (p, f), s') ->
  p = os_path_join result_dir f
  /\ counts_as_new initial_files latest p f
  /\ exists start, _verify_file_ready p start = (Ok true, fst s').
Proof.
  revert s. induction fuel as [|fuel IH]; intros s H; [discriminate|].
  cbn [wait_loop] in H.
  apply bind_ok in H as (now & s1 & _ & H).
  destruct (now - start_wait <? timeout); [|discriminate].
  apply bind_ok in H as ([[p' f']|] & s2 & Hi & H).
  - injection H as <- <- <-. apply wait_iteration_found in Hi. exact Hi.
  - apply IH in H. exact H.
Qed.

Lemma wait_for_result_file_found (fuel : nat) (base_filename result_dir : string)
  (timeout : Z) (w w' : World) (p f : string) :
  wait_for_result_file os_path_join os_path_basename fuel base_filename
                       result_dir timeout w = (Ok (p, f), w') ->
  exists initial_files w0,
    snapshot result_dir (fst (OsPath.splitext base_filename) ++ "_*.json") w
    = (Ok initial_files, w0)
    /\ p = os_path_join result_dir f
    /\ counts_as_new initial_files
         (latest_timestamp_of os_path_basename initial_files) p f
    /\ exists start, _verify_file_ready p start = (Ok true, w').
Proof.
  unfold wait_for_result_file. intros H.
  apply bind_ok in H as (start_wait & w1 & Ht & H).
  unfold time_now, read in Ht. injection Ht as _ <-.
  apply bind_ok in H as (initial_files & w0 & Hs & H).
  destruct (wait_loop _ _ _ _ _ _ _ _ _) as [r [w2 l2]] eqn:Hl.
  injection H as -> <-.
  apply wait_loop_found in Hl as (Hp & Hn & Hv).
  exists initial_files, w0. auto.
Qed.

(** What the code does guarantee about the snapshot: a returned artifact
    is absent from the initial snapshot, or the timestamp in its name is
    greater than the timestamp of the last path of the sorted snapshot. *)
Lemma wait_returns_new_or_newer :
  forall (fuel : nat) (base_filename result_dir : string) (timeout : Z)
         (w w' : World) (p f : string),
    wait_for_result_file os_path_join os_path_basename fuel base_filename
                         result_dir timeout w = (Ok (p, f), w') ->
    exists initial_files,
      fst (snapshot result_dir
             (fst (OsPath.splitext base_filename) ++ "_*.json") w)
      = Ok initial_files
      /\ counts_as_new initial_files
           (latest_timestamp_of os_path_basename initial_files) p f.
Proof.
  intros fuel base_filename result_dir timeout w w' p f H.
  apply wait_for_result_file_found in H
    as (initial_files & w0 & Hs & _ & Hn & _).
  exists initial_files. rewrite Hs. auto.
Qed.

End Wait.

(** C2, at a snapshot that holds an old result of wan.json and an older
    result of wan_restart.json. The old result of wan.json is in the
    snapshot and carries the greatest timestamp of the snapshot, so the
    timestamp in its name does not exceed that maximum; the wait returns it
    all the same, because the timestamp it compares with is the one of the
    last path in sorted order, which belongs to wan_restart. *)
Theorem wait_returns_stale_result :
  let snapshot_files := [Examples.old_result; Examples.other_result] in
  let run := wait_for_result_file OsPath.join OsPath.basename 50 "wan"
               "/tmp/results" 120 Examples.stale_world in
  fst (snapshot "/tmp/results" "wan_*.json" Examples.stale_world)
  = Ok snapshot_files
  /\ fst run = Ok (Examples.old_result, Examples.old_result)
  /\ mem Examples.old_result snapshot_files = true
  /\ greatest_timestamp OsPath.basename snapshot_files
     = Some "20250605_141606"
  /\ timestamp_of Examples.old_result = Some "20250605_141606"
  /\ String.ltb "20250605_141606" "20250605_141606" = false
  /\ latest_timestamp_of OsPath.basename snapshot_files
     = Some "20250101_000000".
Proof.
  vm_compute. repeat (split; [reflexivity|]). reflexivity.
Qed.

End LocatorFacts.

(** ** Persisting a result without test cases *)

Section StoreFacts.
Import TestDatabase FileProcessor OutcomeSpec.







(** [_download_and_process_result] hands the parsed document and the
    overall result it determined to [_process_downloaded_result]. *)
Lemma download_then_process (os_path_join : string -> string -> string)
  (download_file : string -> string -> M bool)
  (file_index : nat) (file_path file_name : string) (start : Z)
  (remote_path result_name : string) (w w1 : World) (file : LocalFile)
  (data overall : json) :
  download_file remote_path
    (os_path_join (os_path_join (os_path_join "data" "temp") "results")
                  result_name) w = (Ok true, w1) ->
  local_files (env w1)
    (os_path_join (os_path_join (os_path_join "data" "temp") "results")
                  result_name) = Some file ->
  file_content file = Json data ->
  determine_overall_result data = Ok overall ->
  snd (_download_and_process_result os_path_join download_file file_index
         file_path file_name start remote_path result_name w)
  = snd (_process_downloaded_result file_index file_path file_name start data
           (Some overall) w1).
Proof.
  intros Hd Hf Hc Ho. unfold _download_and_process_result.
  unfold try_except at 1, bind at 1. rewrite Hd. cbn [negb].
  unfold bind at 1, read at 1. rewrite Hf, Hc.
  unfold bind at 1, ret at 1. unfold bind at 1, lift at 1. rewrite Ho.
  unfold bind at 1.
  destruct (_process_downloaded_result _ _ _ _ _ _ w1) as [[b|e] w2] eqn:Hp;
    [reflexivity|].
  exfalso. revert Hp. unfold _process_downloaded_result, try_except.
  destruct (bind _ _ w1) as [[b|e'] w3]; [discriminate|].
  unfold bind, update_file_status, update, ret. discriminate.
Qed.



End StoreFacts.

(** ** A lost connection between two jobs *)

Section BatchFacts.
Import Connection FileProcessor.

Lemma is_connected_frame (w : World) :
  gui (snd (is_connected w)) = gui w /\ db (snd (is_connected w)) = db w.
Proof.
  destruct (connected (ssh w)) eqn:Hc;
    [|rewrite is_connected_cached by auto; auto].
  destruct (client (ssh w)) as [c|] eqn:Hcl;
    [|rewrite is_connected_cached by auto; auto].
  rewrite is_connected_canary by (auto; rewrite Hcl; discriminate).
  destruct (next_answer w); auto.
Qed.

Lemma disconnect_frame (w : World) :
  gui (snd (disconnect w)) = gui w /\ db (snd (disconnect w)) = db w.
Proof.
  rewrite disconnect_world. cbn [snd].
  destruct (client (ssh w)); [|auto].
  destruct (next_answer w); auto.
Qed.

Lemma connect_frame (host user pass : string) (prt timeout : Z) (w : World) :
  gui (snd (connect host user pass prt timeout w)) = gui w
  /\ db (snd (connect host user pass prt timeout w)) = db w.
Proof.
  rewrite connect_world. destruct (disconnect_frame w) as [Hg Hd].
  destruct (next_answer _) as [o1 e1 s1|m1]; [|cbn [snd]; auto].
  destruct (next_answer _) as [out e2 s2|m2]; [|cbn [snd]; auto].
  destruct (strip out =? "connection_test")%string; cbn [snd]; auto.
Qed.

Lemma connect_from_fields_frame (w : World) :
  gui (snd (connect_from_fields w)) = gui w
  /\ db (snd (connect_from_fields w)) = db w.
Proof.
  unfold connect_from_fields, bind, read. apply connect_frame.
Qed.

Variable _process_single_file : nat -> string -> Z -> M bool.

(** Every [update_file_status] call of [_process_single_file] and of the
    functions it calls is for its own [file_index]. *)
Hypothesis own_row_only :
  forall (i : nat) (file_path : string) (start : Z) (w : World) (j : nat),
    j <> i ->
    nth_error (file_table (gui (snd (_process_single_file i file_path start w)))) j
    = nth_error (file_table (gui w)) j.

(** C5. Job N is not the last one and has been processed; the liveness
    check after it answers False and each of the three reconnection attempts
    answers False. Then the loop over the files ends there: the world it
    returns is the one the third attempt left, so no later file is touched;
    the database is as job N left it; and every row of the file table other
    than the row of job N is as it was before job N, so the jobs after N keep
    the status Queued they had and none is marked Error. *)
Theorem lost_connection_stops_batch :
  forall (n count : nat) (file_path next_path : string) (rest : list string)
         (w w1 w2 w3 w4 w5 : World) (success : bool),
    (S n < count)%nat ->
    _process_single_file n file_path (clock (env w)) w = (Ok success, w1) ->
    is_connected w1 = (Ok false, w2) ->
    connect_from_fields w2 = (Ok false, w3) ->
    connect_from_fields w3 = (Ok false, w4) ->
    connect_from_fields w4 = (Ok false, w5) ->
    process_loop _process_single_file n count
                 (file_path :: next_path :: rest) w = (Ok tt, w5)
    /\ db w5 = db w1
    /\ file_table (gui w5) = file_table (gui w1)
    /\ forall j, j <> n ->
         nth_error (file_table (gui w5)) j = nth_error (file_table (gui w)) j.
Proof.
  intros n count file_path next_path rest w w1 w2 w3 w4 w5 success
         Hlast Hjob Hdead Hc1 Hc2 Hc3.
  assert (Hloop : process_loop _process_single_file n count
                    (file_path :: next_path :: rest) w = (Ok tt, w5)).
  { cbn [process_loop]. unfold bind at 1. unfold process_file.
    unfold bind at 1, time_now, read at 1.
    unfold bind at 1, try_except at 1. unfold bind at 1. rewrite Hjob.
    assert (Hlt : (Z.of_nat n <? Z.of_nat count - 1) = true)
      by (apply Z.ltb_lt; lia).
    rewrite Hlt. unfold bind at 1. rewrite Hdead. cbn [negb].
    unfold bind at 1. unfold bind at 1. cbn [reconnect].
    unfold bind at 1, try_except at 1. rewrite Hc1.
    unfold bind at 1, try_except at 1. rewrite Hc2.
    unfold bind at 1, try_except at 1. rewrite Hc3.
    reflexivity. }
  pose proof (is_connected_frame w1) as [Hg1 Hd1]. rewrite Hdead in Hg1, Hd1.
  pose proof (connect_from_fields_frame w2) as [Hg2 Hd2].
  rewrite Hc1 in Hg2, Hd2.
  pose proof (connect_from_fields_frame w3) as [Hg3 Hd3].
  rewrite Hc2 in Hg3, Hd3.
  pose proof (connect_from_fields_frame w4) as [Hg4 Hd4].
  rewrite Hc3 in Hg4, Hd4.
  cbn [snd] in *.
  assert (Hg : gui w5 = gui w1) by congruence.
  split; [exact Hloop|]. split; [congruence|]. split; [congruence|].
  intros j Hj. rewrite Hg.
  pose proof (own_row_only n file_path (clock (env w)) w j Hj) as H.
  rewrite Hjob in H. exact H.
Qed.

End BatchFacts.

Lemma update_nth_other {A} (f : A -> A) (l : list A) (i j : nat) :
  j <> i -> nth_error (FileProcessor.update_nth i f l) j = nth_error l j.
Proof.
  revert i j. induction l as [|x l IH]; intros [|i] [|j] H;
    simpl; try reflexivity; try contradiction.
  apply IH. intros K. apply H. f_equal. exact K.
Qed.

Lemma mark_complete_own_row (i : nat) (file_path : string) (start : Z)
  (w : World) (j : nat) :
  j <> i ->
  nth_error (file_table (gui (snd (Examples.mark_complete i file_path start w)))) j
  = nth_error (file_table (gui w)) j.
Proof.
  intros H. unfold Examples.mark_complete, FileProcessor.update_file_status.
  run_monad. apply update_nth_other. exact H.
Qed.

Lemma lost_connection_stops_batch_witness :
  let w := Examples.three_jobs_world in
  let run := FileProcessor.process_loop Examples.mark_complete 0 3
               ["a.json"; "b.json"; "c.json"] w in
  fst run = Ok tt
  /\ nth_error (file_table (gui (snd run))) 1 = Some Examples.queued
  /\ nth_error (file_table (gui (snd run))) 2 = Some Examples.queued
  /\ db (snd run) = Examples.empty_db.
Proof.
  intros w run.
  set (w1 := snd (Examples.mark_complete 0 "a.json" 0 w)).
  set (w2 := snd (Connection.is_connected w1)).
  set (w3 := snd (FileProcessor.connect_from_fields w2)).
  set (w4 := snd (FileProcessor.connect_from_fields w3)).
  set (w5 := snd (FileProcessor.connect_from_fields w4)).
  destruct (lost_connection_stops_batch Examples.mark_complete
              mark_complete_own_row 0 3 "a.json" "b.json" ["c.json"]
              w w1 w2 w3 w4 w5 true)
    as (Hloop & Hdb & _ & Hrows);
    try reflexivity.
  - repeat constructor.
  - subst run. rewrite Hloop. cbn [fst snd].
    split; [reflexivity|].
    split; [rewrite Hrows by discriminate; reflexivity|].
    split; [rewrite Hrows by discriminate; reflexivity|].
    rewrite Hdb. reflexivity.
Defined.


(** ** The wait ends *)

Create HintDb clock.

Section ClockFacts.
Context {S : Type} `{HasClock S}.

Lemma adv_ret {A} (a : A) : advancing (ret (S := S) a).
Proof. intros s. simpl. lia. Qed.

Lemma adv_raise {A} (e : string) : advancing (raise (S := S) (A := A) e).
Proof. intros s. simpl. lia. Qed.

Lemma adv_lift {A} (x : Exc A) : advancing (lift (S := S) x).
Proof. intros s. simpl. lia. Qed.

Lemma adv_read {A} (f : S -> A) : advancing (read f).
Proof. intros s. simpl. lia. Qed.

Lemma adv_bind {A B} (m : SE S A) (k : A -> SE S B) :
  advancing m -> (forall a, advancing (k a)) -> advancing (bind m k).
Proof.
  intros Hm Hk s. unfold bind. specialize (Hm s).
  destruct (m s) as [[a|e] s1]; simpl in *; [|exact Hm].
  specialize (Hk a s1). lia.
Qed.

Lemma adv_try {A} (m : SE S A) (h : string -> SE S A) :
  advancing m -> (forall e, advancing (h e)) -> advancing (try_except m h).
Proof.
  intros Hm Hh s. unfold try_except. specialize (Hm s).
  destruct (m s) as [[a|e] s1]; simpl in *; [exact Hm|].
  specialize (Hh e s1). lia.
Qed.

End ClockFacts.

#[local] Hint Resolve adv_ret adv_raise adv_lift adv_read : clock.

Lemma adv_in_world {L A} (m : M A) :
  advancing m -> advancing (in_world (L := L) m).
Proof.
  intros Hm [w l]. unfold in_world. specialize (Hm w). simpl.
  destruct (m w) as [r w']. exact Hm.
Qed.

Lemma adv_local {L A} (f : L -> A) : advancing (local (L := L) f).
Proof. intros s. simpl. lia. Qed.

Lemma adv_assign {L} (f : L -> L) : advancing (assign f).
Proof. intros s. unfold assign, now_of, locals_clock. simpl. lia. Qed.

Lemma adv_sleep (n : Z) : 0 <= n -> advancing (sleep n).
Proof. intros Hn w. unfold sleep, update, now_of, world_clock. simpl. lia. Qed.

Lemma adv_update_ssh (f : SSHConnection -> SSHConnection) :
  advancing (update (with_ssh f)).
Proof. intros w. unfold now_of, world_clock. simpl. lia. Qed.

Lemma adv_paramiko (e : Effect) : advancing (paramiko e).
Proof.
  intros w. rewrite paramiko_answer. unfold now_of, world_clock.
  assert (Hc : clock (env (answered e w)) = clock (env w)).
  { unfold answered, pop_remote, with_env, log_effect. simpl.
    destruct (remote (env w)); reflexivity. }
  destruct (next_answer w); cbn [snd]; rewrite Hc; lia.
Qed.

Lemma adv_time_now : advancing time_now.
Proof. apply adv_read. Qed.

Lemma adv_processing : advancing processing.
Proof. apply adv_read. Qed.

#[local] Hint Resolve adv_in_world adv_local adv_assign adv_update_ssh
  adv_paramiko adv_time_now adv_processing : clock.

Ltac clock_step :=
  match goal with
  | |- advancing (bind _ _) => apply adv_bind; [|intros]
  | |- advancing (try_except _ _) => apply adv_try; [|intros]
  | |- advancing (sleep _) => apply adv_sleep; lia
  | |- advancing (match ?x with _ => _ end) => destruct x
  | |- advancing (if ?b then _ else _) => destruct b
  | |- advancing _ => solve [auto with clock]
  end.

Lemma adv_disconnect : advancing Connection.disconnect.
Proof. unfold Connection.disconnect. repeat clock_step. Qed.

Lemma adv_connect h u p prt t : advancing (Connection.connect h u p prt t).
Proof.
  unfold Connection.connect, Connection.connect_body.
  pose proof adv_disconnect. repeat clock_step.
Qed.

Lemma adv_is_connected : advancing Connection.is_connected.
Proof. unfold Connection.is_connected. repeat clock_step. Qed.

Lemma adv_execute_iteration c t rc : advancing (Connection.execute_iteration c t rc).
Proof.
  unfold Connection.execute_iteration. pose proof adv_is_connected.
  repeat clock_step.
Qed.

Lemma adv_execute_loop fuel c t rc : advancing (Connection.execute_loop fuel c t rc).
Proof.
  revert rc. induction fuel as [|fuel IH]; intros rc; simpl.
  - auto with clock.
  - pose proof (adv_execute_iteration c t rc). repeat clock_step.
Qed.

Lemma adv_execute_command c t : advancing (Connection.execute_command c t).
Proof. apply adv_execute_loop. Qed.

Lemma adv_execute {S} `{HasClock S} r : advancing (ResultHandler.execute (S := S) r).
Proof. unfold ResultHandler.execute. repeat clock_step. Qed.

Lemma adv_verify_file_ready p : advancing (ResultHandler._verify_file_ready p).
Proof.
  unfold ResultHandler._verify_file_ready.
  pose proof adv_execute_command. pose proof (@adv_execute World _).
  repeat clock_step.
Qed.

Section AdvanceFacts.
Context {S : Type} `{HasClock S}.

Lemma advances_of_advancing {A} (bound : Exc A -> Z) (m : SE S A) :
  advancing m -> (forall r, bound r <= 0) -> advances bound m.
Proof.
  unfold advancing, advances. intros Hm Hb s.
  specialize (Hm s). specialize (Hb (fst (m s))). lia.
Qed.

Lemma advances_bind {A B} (g : Exc A -> Z) (f : Exc B -> Z)
  (m : SE S A) (k : A -> SE S B) :
  advances g m ->
  (forall a, advances (fun r => f r - g (Ok a)) (k a)) ->
  (forall e, f (Raise e) <= g (Raise e)) ->
  advances f (bind m k).
Proof.
  unfold advances. intros Hm Hk Hr s. unfold bind. specialize (Hm s).
  destruct (m s) as [[a|e] s1]; simpl in *.
  - specialize (Hk a s1). lia.
  - specialize (Hr e). lia.
Qed.

Lemma advances_ret {A} (bound : Exc A -> Z) (a : A) :
  bound (Ok a) <= 0 -> advances bound (ret (S := S) a).
Proof. intros Hb s. simpl. lia. Qed.

Lemma advances_raise {A} (bound : Exc A -> Z) (e : string) :
  bound (Raise e) <= 0 -> advances bound (raise (S := S) e).
Proof. intros Hb s. simpl. lia. Qed.

End AdvanceFacts.

Lemma advances_sleep_then {L A} (bound : Exc A -> Z) (n : Z) (a : A) :
  bound (Ok a) <= n -> (forall e, bound (Raise e) <= 0) ->
  advances bound (bind (in_world (L := L) (sleep n)) (fun _ => ret a)).
Proof.
  intros Hb He [w l]. unfold bind, in_world, sleep, update, ret, now_of,
    locals_clock. simpl. lia.
Qed.

Ltac flow_step :=
  match goal with
  | |- advances _ (ret _) =>
      apply advances_ret; cbv beta iota delta [ResultHandler.continue_bound]; lia
  | |- advances _ (raise _) =>
      apply advances_raise; cbv beta iota delta [ResultHandler.continue_bound]; lia
  | |- advances _ (bind _ _) =>
      apply advances_bind with (g := fun _ => 0);
      [ apply advances_of_advancing;
        [solve [auto with clock | apply adv_sleep; lia] | intros; lia]
      | | intros; cbv beta iota delta [ResultHandler.continue_bound]; lia ]
  | |- advances _ (match ?x with _ => _ end) => destruct x
  | |- advances _ (if ?b then _ else _) => destruct b
  end.

Section WaitEnds.
Import Connection ResultHandler.
Variable os_path_join : string -> string -> string.
Variable os_path_basename : string -> string.


Lemma poll_advances (result_dir pattern : string) (initial_files : list string)
  (latest : option string) :
  advances continue_bound
           (poll os_path_join result_dir pattern initial_files latest).
Proof.
  pose proof adv_is_connected. pose proof adv_connect.
  pose proof adv_execute_command. pose proof (@adv_execute (World * Locals) _).
  pose proof adv_verify_file_ready.
  assert (advancing (sleep 2)) by (apply adv_sleep; lia).
  unfold poll. flow_step. intros alive.
  apply advances_bind
    with (g := fun r => match r with Ok false => 5 | _ => 0 end).
  - destruct (negb alive); [|flow_step].
    flow_step. intros attempts. flow_step; [flow_step|].
    flow_step. intros []. flow_step. intros host. flow_step. intros user.
    flow_step. intros pass. flow_step. intros success.
    flow_step; [|flow_step].
    apply advances_sleep_then; cbv beta iota; intros; lia.
  - intros reconnected. destruct reconnected; cbn [negb]; [|flow_step].
    flow_step. intros r. flow_step. intros [[success info] err].
    flow_step.
    + apply advances_sleep_then;
        cbv beta iota delta [continue_bound check_interval]; intros; lia.
    + flow_step; [|flow_step]. cbv zeta. flow_step; [|flow_step].
      flow_step. intros []. flow_step. intros ready.
      flow_step; flow_step.
  - intros e. cbv beta iota delta [ResultHandler.continue_bound]. lia.
Qed.

Lemma wait_iteration_advances (start_wait : Z) (result_dir pattern : string)
  (initial_files : list string) (latest : option string) :
  advances again_bound
    (wait_iteration os_path_join start_wait result_dir pattern initial_files
                    latest).
Proof.
  unfold wait_iteration.
  apply advances_bind with (g := fun _ => 0);
    [apply advances_of_advancing; [auto with clock|intros; lia]
    | intros now | intros; cbv beta iota delta [again_bound]; lia].
  apply advances_bind with (g := continue_bound).
  - intros s. unfold try_except.
    pose proof (poll_advances result_dir pattern initial_files latest s) as Hp.
    destruct (poll _ _ _ _ _ s) as [[flow|e] [w l]]; [exact Hp|].
    cbn [fst snd continue_bound] in *.
    unfold bind, in_world, update, sleep, ret, now_of, locals_clock in *.
    cbn in *. unfold check_interval. lia.
  - intros flow. destruct flow as [p f| |].
    + intros s. cbv [ret fst snd again_bound continue_bound]. lia.
    + intros s. cbv [ret fst snd again_bound continue_bound]. lia.
    + intros [w l].
      unfold bind, local, assign, in_world, processing, read, sleep, update,
        ret, raise, now_of, locals_clock.
      cbn [fst snd].
      destruct (now - start_wait - last_log_time l >=? 15); cbn [fst snd];
        destruct (cancel_at (env w)) as [t|]; cbn [fst snd negb];
        try destruct (clock (env w) <? t); cbn [fst snd negb env clock advance
          log_effect with_env again_bound continue_bound];
        unfold check_interval; lia.
  - intros e. cbv beta iota delta [again_bound continue_bound]. lia.
Qed.

Lemma wait_iteration_raises (start_wait : Z) (result_dir pattern : string)
  (initial_files : list string) (latest : option string)
  (s s' : World * Locals) (e : string) :
  wait_iteration os_path_join start_wait result_dir pattern initial_files
                 latest s = (Raise e, s') ->
  e = "Processing cancelled by user".
Proof.
  unfold wait_iteration, bind at 1, in_world at 1, time_now, read.
  destruct s as [w l]. cbn [fst snd]. unfold bind at 1, try_except.
  destruct (poll _ _ _ _ _ (w, l)) as [[flow|e'] [w1 l1]].
  - destruct flow as [p f| |]; try discriminate.
    unfold bind, local, assign, in_world, processing, read, sleep, update,
      ret, raise. cbn [fst snd].
    destruct (_ >=? 15); cbn [fst snd];
      destruct (cancel_at (env w1)) as [t|]; cbn [fst snd negb];
      try destruct (clock (env w1) <? t); cbn [negb]; intros H;
      try discriminate; injection H as <- _; reflexivity.
  - unfold bind, in_world, update, sleep, ret. cbn [fst snd]. discriminate.
Qed.

Lemma wait_loop_enough_fuel (fuel : nat) (start_wait timeout : Z)
  (result_dir pattern : string) (initial_files : list string)
  (latest : option string) (s : World * Locals) :
  Z.max 0 (start_wait + timeout - now_of s) + 3 <= 3 * Z.of_nat fuel ->
  fst (wait_loop os_path_join fuel start_wait timeout result_dir pattern
                 initial_files latest s) <> Raise "out of fuel".
Proof.
  revert s. induction fuel as [|fuel IH]; intros s Hfuel; [lia|].
  cbn [wait_loop]. unfold bind at 1, in_world at 1, time_now, read.
  destruct s as [w l]. cbn [fst snd].
  unfold now_of, locals_clock in Hfuel. cbn [fst] in Hfuel.
  destruct (clock (env w) - start_wait <? timeout) eqn:Hlt;
    [|cbn; discriminate].
  apply Z.ltb_lt in Hlt. unfold bind at 1.
  pose proof (wait_iteration_advances start_wait result_dir pattern
                initial_files latest (w, l)) as Hadv.
  destruct (wait_iteration _ _ _ _ _ _ (w, l)) as [[[found|]|e] s1] eqn:Hi.
  - cbn. discriminate.
  - apply IH. cbn [fst snd again_bound] in Hadv.
    unfold now_of, locals_clock in *. cbn [fst] in Hadv. lia.
  - apply wait_iteration_raises in Hi. subst e. cbn. discriminate.
Qed.

(** The fuel never runs out when it covers one pass of the loop for every
    three seconds of the timeout, and one more. *)
Theorem wait_for_result_file_enough_fuel (fuel : nat)
  (base_filename result_dir : string) (timeout : Z) (w : World) :
  Z.max 0 timeout + 3 <= 3 * Z.of_nat fuel ->
  fst (wait_for_result_file os_path_join os_path_basename fuel base_filename
                            result_dir timeout w) <> Raise "out of fuel".
Proof.
  intros Hfuel. unfold wait_for_result_file.
  unfold bind at 1, time_now, read. unfold bind at 1.
  set (pattern := fst (OsPath.splitext base_filename) ++ "_*.json").
  assert (Hs : advancing (snapshot result_dir pattern)).
  { unfold snapshot. pose proof adv_execute_command.
    pose proof (@adv_execute World _). repeat clock_step. }
  specialize (Hs w).
  assert (Hnr : forall e w', snapshot result_dir pattern w <> (Raise e, w')).
  { intros e w'. unfold snapshot, bind.
    destruct (execute_command_sends_once
                ("find " ++ result_dir ++ " -name '" ++ pattern
                   ++ "' -type f 2>/dev/null || echo ''") 30 w)
      as (v & new & Hv & _).
    destruct (execute_command _ 30 w) as [r w1]. cbn [fst] in Hv. subst r.
    destruct v as [[a b] c]. cbn. discriminate. }
  destruct (snapshot result_dir pattern w) as [[initial_files|e] w0] eqn:Hsnap;
    [|exfalso; exact (Hnr e w0 eq_refl)].
  cbn [snd] in Hs.
  pose proof (wait_loop_enough_fuel fuel (clock (env w)) timeout result_dir
                pattern initial_files
                (latest_timestamp_of os_path_basename initial_files)
                (w0, mkLocals 0 0)) as Hloop.
  destruct (wait_loop _ _ _ _ _ _ _ _ _) as [r [w' l']].
  cbn [fst] in *. apply Hloop.
  unfold now_of, locals_clock, world_clock in *. cbn [fst]. lia.
Qed.

End WaitEnds.

(* ================================================================== *)
(** * Further properties of the modelled code *)
(* ================================================================== *)

(** ** The session object *)

Section SessionFacts.
Import Connection.

(** X1. [disconnect] never raises. When no client is stored, or the close
    of the stored client completes, the session is cleared: no client, not
    connected, no host, user or password. Whatever is called next on such a
    session sends nothing: a second [disconnect] and an [execute_command]
    leave the world as it is, and the command answers Not connected. *)
Theorem disconnect_clears_session :
  forall (w : World) (command : string) (timeout : Z),
    let w1 := snd (disconnect w) in
    fst (disconnect w) = Ok tt
    /\ ((client (ssh w) = None
         \/ exists out err st, next_answer w = Done out err st) ->
        ssh w1 = mkSSH None false None None None (port (ssh w))
        /\ disconnect w1 = (Ok tt, w1)
        /\ is_connected w1 = (Ok false, w1)
        /\ execute_command command timeout w1 = (Ok (Some not_connected), w1)).
Proof.
  intros w command timeout w1. subst w1. rewrite disconnect_world. cbn [fst snd].
  split; [reflexivity|]. intros H.
  assert (Hs : ssh (match client (ssh w) with
                    | Some _ =>
                        match next_answer w with
                        | Done _ _ _ =>
                            with_ssh (fun s => mkSSH None false None None None (port s))
                                     (answered SshClose w)
                        | Raises _ => answered SshClose w
                        end
                    | None =>
                        with_ssh (fun s => mkSSH (client s) false None None None (port s)) w
                    end)
               = mkSSH None false None None None (port (ssh w))).
  { destruct (client (ssh w)) as [c|] eqn:Hc.
    - destruct H as [H|(out & err & st & H)]; [discriminate|].
      rewrite H. reflexivity.
    - cbn. rewrite Hc. reflexivity. }
  set (w1 := match client (ssh w) with Some _ => _ | None => _ end) in *.
  split; [exact Hs|]. split; [|split].
  - rewrite disconnect_world, Hs. cbn [client].
    destruct w1 as [s v g d]. cbn in Hs. subst s. reflexivity.
  - apply is_connected_cached. left. rewrite Hs. reflexivity.
  - rewrite execute_command_world. unfold has_session. rewrite Hs. reflexivity.
Qed.

Lemma disconnect_clears_session_witness :
  let w := Examples.world Examples.live_ssh [Examples.prints ""]
             Examples.no_files Examples.empty_gui in
  ssh (snd (disconnect w)) = mkSSH None false None None None (Some 22)
  /\ execute_command "ls" 30 (snd (disconnect w))
     = (Ok (Some not_connected), snd (disconnect w)).
Proof.
  intros w.
  destruct (proj2 (disconnect_clears_session w "ls" 30)) as (H1 & _ & _ & H2).
  - right. exists "", "", 0. reflexivity.
  - split; [exact H1|exact H2].
Defined.

(** X2. When the close of the stored client raises, [disconnect] swallows
    the exception and leaves every field of the session as it was: the client
    stays stored and a session that was marked connected stays marked
    connected. *)
Theorem disconnect_keeps_session_when_close_raises :
  forall (w : World) (c : SSHClient) (msg : string),
    client (ssh w) = Some c ->
    next_answer w = Raises msg ->
    disconnect w = (Ok tt, answered SshClose w)
    /\ ssh (snd (disconnect w)) = ssh w.
Proof.
  intros w c msg Hc Hr. rewrite disconnect_world, Hc, Hr. split; reflexivity.
Qed.

Lemma disconnect_keeps_session_when_close_raises_witness :
  let w := Examples.world Examples.live_ssh [] Examples.no_files
             Examples.empty_gui in
  connected (ssh (snd (disconnect w))) = true
  /\ client (ssh (snd (disconnect w))) = Some ParamikoClient.
Proof.
  intros w.
  destruct (disconnect_keeps_session_when_close_raises w ParamikoClient
              "Socket is closed" eq_refl eq_refl) as [_ H].
  rewrite H. split; reflexivity.
Defined.

(** X3. Whatever its outcome, [connect] leaves a client object and the
    host, user, password and port it was called with stored in the session.
    When it answers False the connected flag is the one [disconnect] left,
    so after a failed [connect] on a session that [disconnect] cleared, the
    next [execute_command] answers Not connected and sends nothing. *)
Theorem connect_stores_target :
  forall (host user pass : string) (prt timeout : Z) (w : World)
         (command : string) (t : Z),
    let w1 := snd (disconnect w) in
    let w' := snd (connect host user pass prt timeout w) in
    client (ssh w') = Some ParamikoClient
    /\ hostname (ssh w') = Some host
    /\ username (ssh w') = Some user
    /\ password (ssh w') = Some pass
    /\ port (ssh w') = Some prt
    /\ (fst (connect host user pass prt timeout w) = Ok false ->
        connected (ssh w') = connected (ssh w1))
    /\ (fst (connect host user pass prt timeout w) = Ok false ->
        connected (ssh w1) = false ->
        execute_command command t w' = (Ok (Some not_connected), w')).
Proof.
  intros host user pass prt timeout w command t w1 w'. subst w'.
  rewrite connect_world. fold w1.
  set (w2 := with_ssh _ w1).
  set (w3 := answered (SshConnect host prt user pass timeout) w2).
  set (w4 := answered (SshExec "echo 'connection_test'" 5) w3).
  assert (Hdead : forall x, connected (ssh x) = false ->
                  execute_command command t x = (Ok (Some not_connected), x)).
  { intros x Hx. rewrite execute_command_world. unfold has_session.
    rewrite Hx. reflexivity. }
  assert (Hfail : forall x : World,
            connected (ssh x) = connected (ssh w1) ->
            (Ok false = Ok false :> Exc bool -> connected (ssh x) = connected (ssh w1))
            /\ (Ok false = Ok false :> Exc bool -> connected (ssh w1) = false ->
                execute_command command t x = (Ok (Some not_connected), x))).
  { intros x Hx. split; [intros _; exact Hx|].
    intros _ H. apply Hdead. rewrite Hx. exact H. }
  destruct (next_answer w2) as [o1 e1 s1|m1]; cbn [fst snd].
  - destruct (next_answer w3) as [out e2 s2|m2]; cbn [fst snd].
    + destruct (strip out =? "connection_test")%string; cbn [fst snd].
      * do 5 (split; [reflexivity|]). split; discriminate.
      * do 5 (split; [reflexivity|]). apply Hfail. reflexivity.
    + do 5 (split; [reflexivity|]). apply Hfail. reflexivity.
  - do 5 (split; [reflexivity|]). apply Hfail. reflexivity.
Qed.

Lemma connect_stores_target_witness :
  let w := Examples.world Examples.fresh_ssh [] Examples.no_files
             Examples.empty_gui in
  let w' := snd (connect "10.0.0.9" "admin" "pw" 22 10 w) in
  fst (connect "10.0.0.9" "admin" "pw" 22 10 w) = Ok false
  /\ hostname (ssh w') = Some "10.0.0.9"
  /\ execute_command "ls" 30 w' = (Ok (Some not_connected), w').
Proof.
  intros w w'.
  destruct (connect_stores_target "10.0.0.9" "admin" "pw" 22 10 w "ls" 30)
    as (_ & H1 & _ & _ & _ & _ & H2).
  split; [reflexivity|]. split; [exact H1|].
  apply H2; reflexivity.
Defined.

(** X4. A success flag True from [execute_command] means that the session
    was live, the keepalive was answered with output that [strip()] turns
    into keepalive, and the command itself was sent
    exactly once and completed with exit status 0; the output and error text
    returned are the ones the remote side gave, unchanged. *)
Theorem execute_command_success_means_exit_zero :
  forall (command : string) (timeout : Z) (w w' : World) (out err : string),
    execute_command command timeout w = (Ok (Some (true, out, err)), w') ->
    has_session w = true
    /\ (exists o e s, next_answer w = Done o e s /\ strip o = "keepalive")
    /\ next_answer (answered canary w) = Done out err 0
    /\ w' = answered (SshExec command timeout) (answered canary w)
    /\ trace (env w') = SshExec command timeout :: canary :: trace (env w).
Proof.
  intros command timeout w w' out err H.
  rewrite execute_command_world in H.
  destruct (has_session w); [|discriminate].
  destruct (next_answer w) as [o e s|m] eqn:Ha; [|discriminate].
  destruct (strip o =? "keepalive")%string eqn:Hk; [|discriminate].
  destruct (next_answer (answered canary w)) as [so se ex|e'] eqn:Hb.
  - injection H as Hex -> -> <-. apply Z.eqb_eq in Hex. subst ex.
    split; [reflexivity|]. split.
    + exists o, e, s. split; [reflexivity|]. apply String.eqb_eq. exact Hk.
    + split; [reflexivity|]. split; [reflexivity|].
      rewrite !answered_trace. reflexivity.
  - destruct (contains "timed out" (lower e')); discriminate.
Qed.

Lemma execute_command_success_means_exit_zero_witness :
  let w := Examples.world Examples.live_ssh
             [Examples.alive; Examples.prints "up 3 days"]
             Examples.no_files Examples.empty_gui in
  fst (execute_command "uptime" 30 w) = Ok (Some (true, "up 3 days", ""))
  /\ trace (env (snd (execute_command "uptime" 30 w)))
     = [SshExec "uptime" 30; canary].
Proof.
  intros w. split; [reflexivity|].
  apply (execute_command_success_means_exit_zero "uptime" 30 w _ "up 3 days" "").
  reflexivity.
Defined.

End SessionFacts.

(** ** Counting and classifying test cases *)

Section CountingFacts.
Import Manager Counting.
Variable repr_container : json -> string.

(** X5. [get_test_case_count] never raises and never answers a negative
    number: it is the number of entries when test_cases is a list, 0 when
    the key is missing, and 0 when the document is not an object or when
    test_cases is a value without a length. *)
Theorem test_case_count_is_total :
  forall data : json,
    0 <= get_test_case_count data
    /\ (forall kvs tests,
          data = JObj kvs -> lookup "test_cases" kvs = Some (JList tests) ->
          get_test_case_count data = Z.of_nat (length tests))
    /\ (forall kvs,
          data = JObj kvs -> lookup "test_cases" kvs = None ->
          get_test_case_count data = 0)
    /\ (forall kvs n,
          data = JObj kvs -> lookup "test_cases" kvs = Some (JNum n) ->
          get_test_case_count data = 0)
    /\ ((forall kvs, data <> JObj kvs) -> get_test_case_count data = 0).
Proof.
  intros data. split; [|split; [|split; [|split]]].
  - unfold get_test_case_count.
    destruct (get data "test_cases" (JList [])) as [tc|]; [|lia].
    destruct tc; simpl; lia.
  - intros kvs tests -> H. unfold get_test_case_count. simpl. rewrite H.
    reflexivity.
  - intros kvs -> H. unfold get_test_case_count. simpl. rewrite H.
    reflexivity.
  - intros kvs n -> H. unfold get_test_case_count. simpl. rewrite H.
    reflexivity.
  - intros H. destruct data; try reflexivity. exfalso. apply (H kvs).
    reflexivity.
Qed.

Lemma test_case_count_is_total_witness :
  get_test_case_count
    (JObj [("test_cases", JList [JObj [("service", JStr "wan")]; JNum 3])])
  = 2
  /\ get_test_case_count (JList [JStr "test_cases"]) = 0.
Proof.
  split.
  - apply (proj1 (proj2 (test_case_count_is_total _))
             [("test_cases", JList [JObj [("service", JStr "wan")]; JNum 3])]
             [JObj [("service", JStr "wan")]; JNum 3]); reflexivity.
  - apply (proj2 (proj2 (proj2 (proj2 (test_case_count_is_total _))))).
    intros kvs H. discriminate H.
Defined.

Lemma union_no_impacts (a : Impacts) : union no_impacts a = a.
Proof. destruct a; reflexivity. Qed.

Lemma union_assoc (a b c : Impacts) :
  union (union a b) c = union a (union b c).
Proof. unfold union; simpl. rewrite !orb_assoc. reflexivity. Qed.

Lemma union_comm (a b : Impacts) : union a b = union b a.
Proof.
  unfold union.
  rewrite (orb_comm (affects_wan a)), (orb_comm (affects_lan a)),
    (orb_comm (restarts_network a)). reflexivity.
Qed.

Lemma classify_service_union (service action : string) (i : Impacts) :
  classify_service service action i
  = union i (classify_service service action no_impacts).
Proof.
  unfold classify_service, union, set_restart, set_wan, set_lan.
  destruct i as [a b c].
  repeat match goal with |- context [if ?x then _ else _] => destruct x end;
    simpl; rewrite ?orb_true_r, ?orb_false_r; reflexivity.
Qed.

Lemma classify_command_union (params : json) (i : Impacts) :
  classify_command repr_container params i
  = union i (classify_command repr_container params no_impacts).
Proof.
  unfold classify_command, union, set_restart.
  destruct i as [a b c]. destruct params; simpl; rewrite ?orb_false_r;
    try reflexivity.
  repeat match goal with |- context [if ?x then _ else _] => destruct x end;
    simpl; rewrite ?orb_true_r, ?orb_false_r; reflexivity.
Qed.

(** What one well-formed case adds to the flags. *)
Lemma analyze_case_union (test : json) (i : Impacts) :
  well_formed_case test = true ->
  exists delta,
    analyze_case repr_container test no_impacts = Ok delta
    /\ analyze_case repr_container test i = Ok (union i delta).
Proof.
  unfold well_formed_case, analyze_case.
  destruct test as [| | | | |kvs]; try discriminate. simpl.
  destruct (lookup "service" kvs) as [[| | |s| |]|]; try discriminate;
    destruct (lookup "action" kvs) as [[| | |a| |]|]; try discriminate;
    intros _; simpl; eexists; (split; [reflexivity|]); f_equal;
    destruct (lookup "params" kvs) as [p|];
    rewrite classify_command_union, classify_service_union;
    rewrite (classify_command_union _ (classify_service _ _ no_impacts));
    rewrite union_assoc; reflexivity.
Qed.

Lemma analyze_case_malformed (test : json) (i : Impacts) :
  well_formed_case test = false ->
  exists e, analyze_case repr_container test i = Raise e.
Proof.
  unfold well_formed_case, analyze_case.
  destruct test as [| | | | |kvs]; simpl; try (intros _; eexists; reflexivity).
  destruct (lookup "service" kvs) as [[| | |s| |]|]; simpl;
    try (intros _; eexists; reflexivity);
    destruct (lookup "action" kvs) as [[| | |a| |]|]; simpl;
    try discriminate; intros _; eexists; reflexivity.
Qed.

Lemma analyze_loop_union (tests : list json) (i : Impacts) :
  forallb well_formed_case tests = true ->
  analyze_loop repr_container tests i
  = union i (analyze_loop repr_container tests no_impacts).
Proof.
  revert i. induction tests as [|t ts IH]; intros i H; simpl.
  - destruct i; unfold union; simpl. rewrite !orb_false_r. reflexivity.
  - simpl in H. apply andb_true_iff in H as [Ht Hts].
    destruct (analyze_case_union t i Ht) as (delta & H0 & Hi).
    rewrite Hi, H0. rewrite (IH (union i delta) Hts), (IH delta Hts).
    apply union_assoc.
Qed.

Lemma analyze_loop_permutation (tests tests' : list json) :
  Permutation tests tests' ->
  forallb well_formed_case tests = true ->
  analyze_loop repr_container tests no_impacts
  = analyze_loop repr_container tests' no_impacts.
Proof.
  induction 1 as [|t l l' Hp IH|t u l|l l' l'' H1 IH1 H2 IH2]; intros Hw.
  - reflexivity.
  - simpl in *. apply andb_true_iff in Hw as [Ht Hl].
    destruct (analyze_case_union t no_impacts Ht) as (delta & H0 & _).
    rewrite H0.
    assert (Hl' : forallb well_formed_case l' = true).
    { rewrite forallb_forall in *. intros x Hx. apply Hl.
      eapply Permutation_in; [apply Permutation_sym; exact Hp|exact Hx]. }
    rewrite (analyze_loop_union l delta Hl), (analyze_loop_union l' delta Hl').
    rewrite (IH Hl). reflexivity.
  - simpl in *. apply andb_true_iff in Hw as [Hu Hw].
    apply andb_true_iff in Hw as [Ht Hl].
    destruct (analyze_case_union t no_impacts Ht) as (dt & Ht0 & _).
    destruct (analyze_case_union u no_impacts Hu) as (du & Hu0 & _).
    destruct (analyze_case_union t du Ht) as (dt' & Ht1 & Ht2).
    destruct (analyze_case_union u dt Hu) as (du' & Hu1 & Hu2).
    rewrite Ht0 in Ht1. injection Ht1 as <-.
    rewrite Hu0 in Hu1. injection Hu1 as <-.
    rewrite Hu0, Ht0, Ht2, Hu2. rewrite (union_comm du dt). reflexivity.
  - rewrite (IH1 Hw). apply IH2.
    rewrite forallb_forall in *. intros x Hx. apply Hw.
    eapply Permutation_in; [apply Permutation_sym; exact H1|exact Hx].
Qed.

(** X6. For test cases that are all dicts with string service and action,
    the assessment does not depend on the order of the cases: two
    definitions whose test_cases lists are permutations of each other get
    the same flags. *)
Theorem impacts_independent_of_order :
  forall (tests tests' : list json) (others : list (string * json)),
    forallb well_formed_case tests = true ->
    Permutation tests tests' ->
    analyze_test_impacts repr_container
      (JObj (("test_cases", JList tests) :: others))
    = analyze_test_impacts repr_container
        (JObj (("test_cases", JList tests') :: others)).
Proof.
  intros tests tests' others Hw Hp. unfold analyze_test_impacts. simpl.
  apply analyze_loop_permutation; assumption.
Qed.

(** X7. A case that is not a dict, or whose service or action is not a
    string, ends the classification: the exception is swallowed, the flags
    are those of the cases before it, and the cases after it are never
    looked at. *)
Theorem malformed_case_ends_classification :
  forall (pre post : list json) (bad : json) (others : list (string * json)),
    well_formed_case bad = false ->
    analyze_test_impacts repr_container
      (JObj (("test_cases", JList (pre ++ bad :: post)) :: others))
    = analyze_test_impacts repr_container
        (JObj (("test_cases", JList pre) :: others)).
Proof.
  intros pre post bad others Hbad. unfold analyze_test_impacts. simpl.
  generalize no_impacts. induction pre as [|t ts IH]; intros i; simpl.
  - destruct (analyze_case_malformed bad i Hbad) as [e ->]. reflexivity.
  - destruct (analyze_case repr_container t i); [apply IH|reflexivity].
Qed.

End CountingFacts.

Lemma impacts_independent_of_order_witness :
  let a := JObj [("service", JStr "wan"); ("action", JStr "status")] in
  let b := JObj [("service", JStr "wifi"); ("action", JStr "scan")] in
  Manager.analyze_test_impacts Examples.repr_plain
    (JObj [("test_cases", JList [a; b])])
  = Manager.analyze_test_impacts Examples.repr_plain
      (JObj [("test_cases", JList [b; a])]).
Proof.
  intros a b.
  apply (impacts_independent_of_order Examples.repr_plain [a; b] [b; a] []).
  - reflexivity.
  - apply perm_swap.
Defined.

Lemma malformed_case_ends_classification_witness :
  Manager.analyze_test_impacts Examples.repr_plain
    (JObj [("test_cases",
            JList [JObj [("service", JStr "dhcp")]; JNum 7;
                   JObj [("service", JStr "lan")]])])
  = Manager.analyze_test_impacts Examples.repr_plain
      (JObj [("test_cases", JList [JObj [("service", JStr "dhcp")]])]).
Proof.
  apply (malformed_case_ends_classification Examples.repr_plain
           [JObj [("service", JStr "dhcp")]] [JObj [("service", JStr "lan")]]
           (JNum 7) []).
  reflexivity.
Defined.

(** ** Validation, in full *)

(** X8. [validate_json_file] never raises. It answers True only for a file
    that exists, loads as JSON and holds test_cases (as a key of an object,
    an element of a list or a part of a string); the data returned is then
    the loaded document and the message is empty. Every answer False comes
    with a message that is not empty and with no data. *)
Theorem validate_json_file_answers :
  forall (file_path : string) (w : World),
    exists (ok : bool) (message : string) (data : option json),
      fst (Manager.validate_json_file file_path w) = Ok (ok, message, data)
      /\ (ok = true ->
          exists size document,
            local_files (env w) file_path
            = Some (mkLocalFile size (Json document))
            /\ str_in "test_cases" document = Ok true
            /\ message = "" /\ data = Some document)
      /\ (ok = false -> message <> "" /\ data = None).
Proof.
  intros file_path w. unfold Manager.validate_json_file. run_monad.
  destruct (local_files (env w) file_path) as [[size content]|] eqn:Hf; simpl.
  - destruct content as [msg|msg|document]; simpl.
    + eexists _, _, _. split; [reflexivity|].
      split; [discriminate|]. intros _. split; [discriminate|reflexivity].
    + eexists _, _, _. split; [reflexivity|].
      split; [discriminate|]. intros _. split; [discriminate|reflexivity].
    + destruct (str_in "test_cases" document) as [[|]|e] eqn:Hin; simpl.
      * eexists _, _, _. split; [reflexivity|]. split; [|discriminate].
        intros _. exists size, document. auto.
      * eexists _, _, _. split; [reflexivity|].
        split; [discriminate|]. intros _. split; [discriminate|reflexivity].
      * eexists _, _, _. split; [reflexivity|].
        split; [discriminate|]. intros _. split; [discriminate|reflexivity].
  - eexists _, _, _. split; [reflexivity|].
    split; [discriminate|]. intros _. split; [discriminate|reflexivity].
Qed.

Lemma validate_json_file_answers_witness :
  let doc := JObj [("test_cases", JList [])] in
  let w := Examples.world Examples.fresh_ssh []
             (Examples.one_file "lan.json" (mkLocalFile 18 (Json doc)))
             Examples.empty_gui in
  fst (Manager.validate_json_file "lan.json" w) = Ok (true, "", Some doc)
  /\ exists size document,
       local_files (env w) "lan.json" = Some (mkLocalFile size (Json document))
       /\ str_in "test_cases" document = Ok true.
Proof.
  intros doc w. split; [reflexivity|].
  destruct (validate_json_file_answers "lan.json" w)
    as (ok & message & data & H & Hok & _).
  change (Ok (true, "", Some doc) = Ok (ok, message, data)) in H.
  injection H as <- <- <-.
  destruct (Hok eq_refl) as (size & document & H1 & H2 & _).
  exists size, document. split; assumption.
Defined.

(** ** More on outcome normalization *)

Section OutcomeMore.
Import FileProcessor OutcomeSpec.

(** X9. Whatever the document, a result that normalization returns is
    never empty and never the string Unknown: it is the document's own
    usable overall_result, or Pass, or Fail. *)
Theorem normalized_result_is_usable :
  forall (result_data v : json),
    determine_overall_result result_data = Ok v ->
    truthy v = true /\ eq_str v "Unknown" = false
    /\ (v = JStr "Pass" \/ v = JStr "Fail"
        \/ get result_data "overall_result" (JStr "Unknown") = Ok v).
Proof.
  intros result_data v. unfold determine_overall_result.
  destruct (get result_data "overall_result" (JStr "Unknown")) as [o|];
    [|discriminate].
  destruct (negb (truthy o) || eq_str o "Unknown") eqn:Hf.
  - assert (Hpf : forall b : bool,
              Ok (JStr (if b then "Pass" else "Fail")) = Ok v ->
              truthy v = true /\ eq_str v "Unknown" = false
              /\ (v = JStr "Pass" \/ v = JStr "Fail" \/ Ok o = Ok v)).
    { intros [|] H; injection H as <-; auto. }
    destruct (str_in "pass" result_data) as [[|]|]; try discriminate.
    + destruct (get result_data "pass" JNull) as [p|]; [|discriminate].
      apply Hpf.
    + destruct (get result_data "test_results" (JList [])) as [tc|];
        [|discriminate].
      destruct (truthy tc).
      * destruct (iter tc) as [cases|]; [|discriminate].
        destruct (all_pass cases) as [ok|]; [|discriminate]. apply Hpf.
      * apply (Hpf true).
  - intros H. injection H as <-. apply orb_false_iff in Hf as [H1 H2].
    apply negb_false_iff in H1. auto.
Qed.

Lemma normalized_result_is_usable_witness :
  determine_overall_result (JObj [("overall_result", JStr "")])
  = Ok (JStr "Pass")
  /\ truthy (JStr "Pass") = true.
Proof.
  split; [reflexivity|].
  apply (normalized_result_is_usable (JObj [("overall_result", JStr "")])
           (JStr "Pass") eq_refl).
Defined.

Lemma all_pass_prefix (pre : list json) (rest : list json) :
  forallb well_typed_case pre = true ->
  forallb status_is_pass pre = true ->
  all_pass (pre ++ rest) = all_pass rest.
Proof.
  induction pre as [|c cs IH]; simpl; [reflexivity|].
  intros Hw Hp. apply andb_true_iff in Hw as [Hc Hcs].
  apply andb_true_iff in Hp as [Hpc Hpcs].
  destruct c as [| | | | |fields]; try discriminate. simpl in *.
  destruct (lookup "status" fields) as [[| | |s| |]|]; try discriminate.
  simpl. rewrite Hpc. apply IH; assumption.
Qed.

(** X10. Fail is decided at the first entry of test_results that is not a
    pass: the entries after it are not examined, so entries that would make
    the check raise (not an object, a status that is not a string) do no
    harm when they come after a failed one. *)
Theorem first_failure_decides :
  forall (kvs : list (string * json)) (pre rest : list json) (failed : json),
    needs_fallback kvs = true ->
    lookup "pass" kvs = None ->
    lookup "test_results" kvs = Some (JList (pre ++ failed :: rest)) ->
    forallb well_typed_case pre = true ->
    forallb status_is_pass pre = true ->
    well_typed_case failed = true ->
    status_is_pass failed = false ->
    determine_overall_result (JObj kvs) = Ok (JStr "Fail").
Proof.
  intros kvs pre rest failed Hf Hp Ht Hw Hpass Hwf Hfail.
  rewrite (fallback_branch kvs Hf), Hp, Ht. cbv zeta.
  assert (Htr : truthy (JList (pre ++ failed :: rest)) = true)
    by (destruct pre; reflexivity).
  rewrite Htr. cbn [iter]. rewrite (all_pass_prefix pre _ Hw Hpass).
  destruct failed as [| | | | |fields]; try discriminate. simpl in *.
  destruct (lookup "status" fields) as [[| | |s| |]|]; try discriminate;
    simpl.
  - rewrite Hfail. reflexivity.
  - reflexivity.
Qed.

Lemma first_failure_decides_witness :
  determine_overall_result
    (JObj [("test_results",
            JList [JObj [("status", JStr "Pass")];
                   JObj [("status", JStr "error")];
                   JNum 5])])
  = Ok (JStr "Fail").
Proof.
  apply (first_failure_decides
           [("test_results",
             JList [JObj [("status", JStr "Pass")];
                    JObj [("status", JStr "error")];
                    JNum 5])]
           [JObj [("status", JStr "Pass")]] [JNum 5]
           (JObj [("status", JStr "error")])); reflexivity.
Defined.

End OutcomeMore.

(** ** The file table and the loop over the files *)

Section TableFacts.
Import FileProcessor.

Lemma update_nth_length {A} (f : A -> A) (l : list A) (i : nat) :
  length (update_nth i f l) = length l.
Proof.
  revert i. induction l as [|x l IH]; intros [|i]; simpl; auto.
Qed.

Lemma update_nth_beyond {A} (f : A -> A) (l : list A) (i : nat) :
  (length l <= i)%nat -> update_nth i f l = l.
Proof.
  revert i. induction l as [|x l IH]; intros [|i] H; simpl in *;
    try reflexivity; try lia.
  f_equal. apply IH. lia.
Qed.

Lemma update_nth_same {A} (f : A -> A) (l : list A) (i : nat) (x : A) :
  nth_error l i = Some x -> nth_error (update_nth i f l) i = Some (f x).
Proof.
  revert i. induction l as [|y l IH]; intros [|i] H; simpl in *;
    try discriminate.
  - injection H as ->. reflexivity.
  - apply IH. exact H.
Qed.

(** X11. [update_file_status] changes one row at most. An index beyond the
    table changes nothing; otherwise the row gets the new status, takes the
    result and the time only when they are not empty, and keeps the old
    ones when they are; the other rows and the number of rows stay, and so
    do the session, the environment and the database. *)
Theorem update_file_status_one_row :
  forall (i : nat) (status : string) (result : json) (time_str : string)
         (w : World),
    let w' := snd (update_file_status i status result time_str w) in
    fst (update_file_status i status result time_str w) = Ok tt
    /\ length (file_table (gui w')) = length (file_table (gui w))
    /\ (forall j, j <> i ->
          nth_error (file_table (gui w')) j = nth_error (file_table (gui w)) j)
    /\ ((length (file_table (gui w)) <= i)%nat ->
        file_table (gui w') = file_table (gui w))
    /\ (forall row, nth_error (file_table (gui w)) i = Some row ->
          nth_error (file_table (gui w')) i
          = Some (mkRow status
                        (if truthy result then result else row_result row)
                        (if (time_str =? "")%string then row_time row
                         else time_str)))
    /\ ssh w' = ssh w /\ env w' = env w /\ db w' = db w.
Proof.
  intros i status result time_str w w'. subst w'.
  unfold update_file_status, update. cbn [fst snd gui with_gui file_table].
  split; [reflexivity|]. split; [apply update_nth_length|].
  split; [intros j Hj; apply update_nth_other; exact Hj|].
  split; [apply update_nth_beyond|].
  split; [|auto].
  intros row Hrow. rewrite (update_nth_same _ _ _ _ Hrow).
  unfold set_row. destruct (time_str =? "")%string; reflexivity.
Qed.

Lemma update_file_status_one_row_witness :
  let w := Examples.three_jobs_world in
  file_table (gui (snd (update_file_status 7 "Error" (JStr "x") "" w)))
  = file_table (gui w)
  /\ nth_error
       (file_table (gui (snd (update_file_status 1 "Testing" (JStr "") "" w))))
       1
     = Some (mkRow "Testing" (JStr "") "").
Proof.
  intros w.
  destruct (update_file_status_one_row 7 "Error" (JStr "x") "" w)
    as (_ & _ & _ & H & _).
  destruct (update_file_status_one_row 1 "Testing" (JStr "") "" w)
    as (_ & _ & _ & _ & H' & _).
  split; [apply H; cbn; lia|].
  apply (H' Examples.queued). reflexivity.
Defined.

End TableFacts.

Section BatchMore.
Import Connection FileProcessor.
Variable _process_single_file : nat -> string -> Z -> M bool.

(** X12. When the processing of a file raises an exception whose message
    contains cancelled by user, the loop over the files ends at once: the
    world is the one the file's processing left, so the file is not marked
    Error, no connection check is made and no later file is started. *)
Theorem cancellation_stops_batch :
  forall (n count : nat) (file_path : string) (rest : list string)
         (w w1 : World) (e : string),
    _process_single_file n file_path (clock (env w)) w = (Raise e, w1) ->
    contains "cancelled by user" e = true ->
    process_loop _process_single_file n count (file_path :: rest) w
    = (Ok tt, w1).
Proof.
  intros n count file_path rest w w1 e Hjob Hc.
  cbn [process_loop]. unfold bind at 1. unfold process_file.
  unfold bind at 1, time_now, read at 1.
  unfold bind at 1, try_except at 1. unfold bind at 1. rewrite Hjob, Hc.
  reflexivity.
Qed.

(** X13. When the processing of a file raises any other exception, the
    file's row is marked Error with the first 20 characters (code points,
    as a slice of a str counts them) of the message as result, nothing else changes, and, unless processing was cancelled
    meanwhile, the loop goes on with the next file without a connection
    check and without a pause. *)
Theorem failed_file_is_marked_and_skipped :
  forall (n count : nat) (file_path : string) (rest : list string)
         (w w1 : World) (e : string),
    _process_single_file n file_path (clock (env w)) w = (Raise e, w1) ->
    contains "cancelled by user" e = false ->
    let w2 := snd (update_file_status n "Error" (JStr (take_chars 20 e)) "" w1) in
    process_loop _process_single_file n count (file_path :: rest) w
    = match fst (processing w2) with
      | Ok true => process_loop _process_single_file (S n) count rest w2
      | _ => (Ok tt, w2)
      end
    /\ env w2 = env w1 /\ db w2 = db w1 /\ ssh w2 = ssh w1.
Proof.
  intros n count file_path rest w w1 e Hjob Hc w2. split; [|auto].
  cbn [process_loop]. unfold bind at 1. unfold process_file.
  unfold bind at 1, time_now, read at 1.
  unfold bind at 1, try_except at 1. unfold bind at 1. rewrite Hjob, Hc.
  unfold bind at 1. fold w2.
  change (update_file_status n "Error" (JStr (take_chars 20 e)) "" w1)
    with (Ok tt, w2).
  cbv iota beta. unfold ret at 1. unfold bind at 1, processing, read.
  cbn [fst].
  destruct (match cancel_at (env w2) with
            | Some t => clock (env w2) <? t
            | None => true
            end); reflexivity.
Qed.

(** X14. The file was processed without an exception and it is not the
    last one. If the session is still alive, or at least one of the three
    reconnection attempts succeeds, the loop pauses 2 seconds and, unless
    processing was cancelled meanwhile, goes on with the next file: a lost
    connection that can be restored does not end the batch. *)
Theorem restored_connection_continues_batch :
  forall (n count : nat) (file_path : string) (rest : list string)
         (w w1 w2 w3 : World) (success alive : bool),
    (S n < count)%nat ->
    _process_single_file n file_path (clock (env w)) w = (Ok success, w1) ->
    is_connected w1 = (Ok alive, w2) ->
    (if alive then w3 = w2 else reconnect 3 w2 = (Ok true, w3)) ->
    let w4 := snd (sleep 2 w3) in
    process_loop _process_single_file n count (file_path :: rest) w
    = match fst (processing w4) with
      | Ok true => process_loop _process_single_file (S n) count rest w4
      | _ => (Ok tt, w4)
      end.
Proof.
  intros n count file_path rest w w1 w2 w3 success alive
         Hlast Hjob Hlive Hre w4.
  cbn [process_loop]. unfold bind at 1. unfold process_file.
  unfold bind at 1, time_now, read at 1.
  unfold bind at 1, try_except at 1. unfold bind at 1. rewrite Hjob.
  assert (Hlt : (Z.of_nat n <? Z.of_nat count - 1) = true)
    by (apply Z.ltb_lt; lia).
  rewrite Hlt. unfold bind at 1. rewrite Hlive.
  unfold bind at 1.
  assert (Hstop :
    (if negb alive
     then reconnect_success <- reconnect 3;; ret (negb reconnect_success)
     else ret false) w2 = (Ok false, w3)).
  { destruct alive; cbn [negb].
    - subst w3. reflexivity.
    - unfold bind. rewrite Hre. reflexivity. }
  rewrite Hstop. unfold bind at 1.
  change (sleep 2 w3) with (Ok tt, w4). cbv iota beta. unfold ret at 1.
  unfold bind at 1, processing, read. cbn [fst].
  destruct (match cancel_at (env w4) with
            | Some t => clock (env w4) <? t
            | None => true
            end); reflexivity.
Qed.

End BatchMore.

Lemma cancellation_stops_batch_witness :
  let stop (i : nat) (p : string) (t : Z) : M bool :=
    raise "Processing cancelled by user" in
  FileProcessor.process_loop stop 0 2 ["a.json"; "b.json"]
    Examples.three_jobs_world
  = (Ok tt, Examples.three_jobs_world).
Proof.
  intros stop.
  apply (cancellation_stops_batch stop 0 2 "a.json" ["b.json"]
           Examples.three_jobs_world Examples.three_jobs_world
           "Processing cancelled by user"); reflexivity.
Defined.

Lemma failed_file_is_marked_and_skipped_witness :
  let fail (i : nat) (p : string) (t : Z) : M bool :=
    raise "File upload failed, giving up" in
  file_table (gui (snd (FileProcessor.process_loop fail 0 1 ["a.json"]
                          Examples.three_jobs_world)))
  = [mkRow "Error" (JStr "File upload failed, ") ""; Examples.queued;
     Examples.queued].
Proof.
  intros fail.
  rewrite (proj1 (failed_file_is_marked_and_skipped fail 0 1 "a.json" []
                    Examples.three_jobs_world Examples.three_jobs_world
                    "File upload failed, giving up" eq_refl eq_refl)).
  reflexivity.
Defined.

Lemma restored_connection_continues_batch_witness :
  let w := mkWorld Examples.live_ssh
             (mkEnv [Examples.alive] Examples.no_files 0 None [])
             (mkGui [Examples.queued; Examples.queued] [] "h" "u" "p")
             Examples.empty_db in
  file_table (gui (snd (FileProcessor.process_loop Examples.mark_complete 0 2
                          ["a.json"; "b.json"] w)))
  = [mkRow "Complete" (JStr "Pass") "1.0s"; mkRow "Complete" (JStr "Pass") "1.0s"].
Proof.
  intros w.
  rewrite (restored_connection_continues_batch Examples.mark_complete 0 2
             "a.json" ["b.json"] w
             (snd (Examples.mark_complete 0 "a.json" 0 w))
             (snd (Connection.is_connected
                     (snd (Examples.mark_complete 0 "a.json" 0 w))))
             (snd (Connection.is_connected
                     (snd (Examples.mark_complete 0 "a.json" 0 w))))
             true true).
  - reflexivity.
  - repeat constructor.
  - reflexivity.
  - reflexivity.
  - reflexivity.
Defined.

(** ** The result store *)

Section StoreMore.
Import TestDatabase.

Lemma fold_max_below (seq id : Z) (l : list Z) :
  fold_right Z.max seq l < id -> fold_right Z.max id l = id.
Proof.
  induction l as [|x l IHl]; cbn; intros K; [reflexivity|].
  rewrite IHl by lia. lia.
Qed.

Lemma fold_max_in (seq x : Z) (l : list Z) :
  In x l -> x <= fold_right Z.max seq l.
Proof.
  induction l as [|y l IHl]; cbn; [tauto|].
  intros [->|H]; [lia|]. specialize (IHl H). lia.
Qed.

Lemma next_id_fresh (ids : list Z) (seq : Z) :
  ~ In (next_id ids seq) ids.
Proof.
  intros H. apply (fold_max_in seq) in H. unfold next_id in H. lia.
Qed.

(** What the INSERTs of one transaction add: one row per parameter tuple,
    after the rows that were there, each for the given result and each
    with an id above every id the table has had. *)
Lemma insert_cases_rows (result_id : Z)
  (values : list (json * json * json * json * json))
  (rows : list CaseRow) (seq : Z) :
  exists new,
    fst (insert_cases result_id values rows seq) = (rows ++ new)%list
    /\ length new = length values
    /\ Forall (fun c => c_result_id c = result_id) new
    /\ Forall (fun c => fold_right Z.max seq (map c_id rows) < c_id c) new
    /\ (NoDup (map c_id rows) -> NoDup (map c_id (rows ++ new))).
Proof.
  revert rows seq. induction values as [|[[[[sv ac] st] de] ex] vs IH];
    intros rows seq.
  - exists []. cbn. rewrite app_nil_r. repeat split; auto.
  - cbn [insert_cases].
    set (id := next_id (map c_id rows) seq).
    set (row := mkCaseRow id result_id sv ac st de ex).
    destruct (IH (rows ++ [row])%list id) as (new & H1 & H2 & H3 & H4 & H5).
    exists (row :: new). rewrite H1, <- app_assoc. cbn [app].
    assert (Hid : fold_right Z.max seq (map c_id rows) < id)
      by (unfold id, next_id; lia).
    assert (Hmax : fold_right Z.max id (map c_id (rows ++ [row])) = id).
    { rewrite map_app, fold_right_app. cbn. rewrite Z.max_id.
      apply (fold_max_below seq). exact Hid. }
    split; [reflexivity|]. split; [cbn; lia|].
    split; [constructor; [reflexivity|exact H3]|].
    split.
    + constructor; [exact Hid|].
      rewrite Hmax in H4. eapply Forall_impl; [|exact H4].
      cbn. intros c Hc. lia.
    + intros Hnd.
      replace (rows ++ row :: new)%list with ((rows ++ [row]) ++ new)%list
        by (rewrite <- app_assoc; reflexivity).
      apply H5. rewrite map_app. cbn.
      apply NoDup_app; [exact Hnd | repeat constructor; cbn; tauto |].
      intros x Hx [<-|[]]. exact (next_id_fresh _ _ Hx).
Qed.

Lemma map_exc_length {A B} (f : A -> Exc B) (l : list A) (l' : list B) :
  map_exc f l = Ok l' -> length l' = length l.
Proof.
  revert l'. induction l as [|x l IH]; cbn; intros l' H.
  - injection H as <-. reflexivity.
  - destruct (f x); [|discriminate].
    destruct (map_exc f l); [|discriminate].
    injection H as <-. cbn. f_equal. apply IH. reflexivity.
Qed.


(** The three ways [save_test_case_results] ends. *)
Lemma save_test_case_results_cases (result_id : Z) (tests : json) (w : World)
  (r : Exc bool * World) :
  save_test_case_results result_id tests w = r ->
  r = (Ok false, w)
  \/ (truthy tests = false /\ r = (Ok true, w))
  \/ exists values,
       truthy tests = true
       /\ (forall l, tests = JList l -> length values = length l)
       /\ r = (Ok true,
               with_db (fun d =>
                 mkDb (test_results d)
                      (fst (insert_cases result_id values (test_cases d)
                              (seq_cases d)))
                      (seq_results d)
                      (snd (insert_cases result_id values (test_cases d)
                              (seq_cases d)))) w).
Proof.
  intros E. unfold save_test_case_results, try_except in E.
  destruct (truthy tests) eqn:Ht; cbn [negb] in E.
  - unfold bind at 1 in E. unfold read at 1 in E.
    unfold bind at 1 in E. unfold lift at 1 in E.
    destruct (iter tests) as [ts|e] eqn:Hit; [|left; subst r; reflexivity].
    set (pre := match find _ _ with Some _ => _ | None => _ end) in E.
    unfold bind at 1 in E.
    assert (Hpre : (exists e, pre w = (Raise e, w))
                   \/ exists ts', pre w = (Ok ts', w) /\ length ts' = length ts).
    { subst pre. destruct (find _ _) as [row|].
      - destruct (text_column (r_file_name row)) as [file_name|];
          [|left; eexists; reflexivity].
        unfold lift. destruct (map_exc _ ts) as [ts'|e] eqn:Hm.
        + right. exists ts'. split; [reflexivity|].
          eapply map_exc_length; exact Hm.
        + left. eexists; reflexivity.
      - right. exists ts. split; reflexivity. }
    destruct Hpre as [[e He]|(ts' & He & Hlen)]; rewrite He in E;
      [left; subst r; reflexivity|].
    unfold bind at 1 in E. unfold lift at 1 in E.
    destruct (map_exc case_values ts') as [values|e] eqn:Hv;
      [|left; subst r; reflexivity].
    right. right. exists values. split; [reflexivity|]. split.
    + intros l ->. cbn in Hit. injection Hit as <-.
      rewrite (map_exc_length _ _ _ Hv). exact Hlen.
    + subst r. unfold bind, update, ret, with_db. cbn [db].
      destruct (insert_cases result_id values (test_cases (db w))
                  (seq_cases (db w))) as [rows seq]. reflexivity.
  - right. left. split; [reflexivity|]. subst r. reflexivity.
Qed.

(** X16. [save_test_case_results] never raises and is all or nothing. It
    answers False and leaves the world as it was, or it answers True and
    then: the test results are untouched, the case rows that were there are
    kept in place, the rows added after them all carry the given result id
    and ids above the AUTOINCREMENT counter and above every id of the
    table, ids that were distinct stay distinct, an empty or absent list
    adds no row and a list adds one row per entry. *)
Theorem save_test_case_results_all_or_nothing
  (result_id : Z) (tests : json) (w : World) :
  let r := save_test_case_results result_id tests w in
  r = (Ok false, w)
  \/ (fst r = Ok true
      /\ ssh (snd r) = ssh w /\ env (snd r) = env w /\ gui (snd r) = gui w
      /\ test_results (db (snd r)) = test_results (db w)
      /\ seq_results (db (snd r)) = seq_results (db w)
      /\ exists new,
           test_cases (db (snd r)) = (test_cases (db w) ++ new)%list
           /\ Forall (fun c => c_result_id c = result_id) new
           /\ Forall (fun c =>
                fold_right Z.max (seq_cases (db w))
                  (map c_id (test_cases (db w))) < c_id c) new
           /\ (NoDup (map c_id (test_cases (db w))) ->
               NoDup (map c_id (test_cases (db (snd r)))))
           /\ (truthy tests = false -> new = [])
           /\ (forall l, tests = JList l -> length new = length l)).
Proof.
  intros r.
  destruct (save_test_case_results_cases result_id tests w r eq_refl)
    as [E|[(Ht & E)|(values & Ht & Hlen & E)]]; rewrite E.
  - left. reflexivity.
  - right. cbn [fst snd]. do 6 (split; [reflexivity|]).
    exists []. rewrite app_nil_r.
    split; [reflexivity|]. split; [constructor|]. split; [constructor|].
    split; [tauto|]. split; [reflexivity|].
    intros l ->. destruct l; [reflexivity|discriminate].
  - right. cbn [fst snd with_db db ssh env gui test_results seq_results
                test_cases].
    do 6 (split; [reflexivity|]).
    destruct (insert_cases_rows result_id values (test_cases (db w))
                (seq_cases (db w))) as (new & H1 & H2 & H3 & H4 & H5).
    exists new. split; [exact H1|]. split; [exact H3|].
    split; [exact H4|]. split; [rewrite H1; exact H5|].
    split; [congruence|].
    intros l Hl. rewrite H2. apply Hlen. exact Hl.
Qed.


End StoreMore.



(** ** File names *)

Section NameFacts.

Lemma contains_char_cons (c a : ascii) (s : string) :
  contains (String c "") (String a s)
  = Ascii.eqb a c || contains (String c "") s.
Proof.
  cbn [contains prefix]. destruct (ascii_dec c a) as [->|Hne].
  - rewrite Ascii.eqb_refl. destruct s; reflexivity.
  - destruct (Ascii.eqb a c) eqn:E.
    + apply Ascii.eqb_eq in E. congruence.
    + reflexivity.
Qed.

Lemma contains_char_nil (c : ascii) : contains (String c "") "" = false.
Proof. reflexivity. Qed.

Lemma split_on_nonempty (c : ascii) (s : string) : split_on c s <> [].
Proof.
  destruct s as [|a s]; cbn [split_on]; [discriminate|].
  destruct (Ascii.eqb a c); [discriminate|].
  destruct (split_on c s); discriminate.
Qed.

Lemma split_on_no_sep (c : ascii) (s : string) :
  contains (String c "") s = false -> split_on c s = [s].
Proof.
  induction s as [|a s IH]; [reflexivity|].
  rewrite contains_char_cons. intros H.
  apply orb_false_iff in H. destruct H as [Ha Hs].
  cbn [split_on]. rewrite Ha, (IH Hs). reflexivity.
Qed.

Lemma split_on_app (c : ascii) (a b : string) :
  split_on c (a ++ String c b) = (split_on c a ++ split_on c b)%list.
Proof.
  induction a as [|x a IH].
  - cbn [append split_on app]. rewrite Ascii.eqb_refl. reflexivity.
  - cbn [append split_on]. rewrite IH.
    destruct (Ascii.eqb x c); [reflexivity|].
    pose proof (split_on_nonempty c a) as Hne.
    destruct (split_on c a) as [|h t]; [congruence|]. reflexivity.
Qed.

Lemma split_on_parts (c : ascii) (s : string) :
  Forall (fun p => contains (String c "") p = false) (split_on c s).
Proof.
  induction s as [|a s IH]; [repeat constructor|].
  cbn [split_on]. destruct (Ascii.eqb a c) eqn:E.
  - constructor; [reflexivity|exact IH].
  - destruct (split_on c s) as [|h t].
    + constructor; [|constructor].
      rewrite contains_char_cons, E. reflexivity.
    + inversion IH as [|? ? Hh Ht]; subst. constructor; [|exact Ht].
      rewrite contains_char_cons, E, Hh. reflexivity.
Qed.

Lemma join_split_on (c : ascii) (s : string) :
  join (String c "") (split_on c s) = s.
Proof.
  unfold join. induction s as [|a s IH]; [reflexivity|].
  cbn [split_on]. pose proof (split_on_nonempty c s) as Hne.
  destruct (split_on c s) as [|h t]; [congruence|].
  destruct (Ascii.eqb a c) eqn:E.
  - apply Ascii.eqb_eq in E. subst a.
    change (String.concat (String c "") ("" :: h :: t))
      with (String c (String.concat (String c "") (h :: t))).
    rewrite IH. reflexivity.
  - destruct t as [|t1 t'].
    + cbn in IH |- *. rewrite IH. reflexivity.
    + change (String.concat (String c "") (String a h :: t1 :: t'))
        with (String a (String.concat (String c "") (h :: t1 :: t'))).
      rewrite IH. reflexivity.
Qed.

(** X18. The timestamp read from a result file's name. For a name
    [<base>_<date>_<time>.<ext>], where date, time and extension hold no
    underscore and the time holds no dot, the timestamp is [<date>_<time>],
    whatever underscores and dots the base holds. *)
Theorem timestamp_of_dated_name (base date time ext : string) :
  contains "_" date = false ->
  contains "_" time = false ->
  contains "_" ext = false ->
  contains "." time = false ->
  ResultHandler.timestamp_of (base ++ "_" ++ date ++ "_" ++ time ++ "." ++ ext)
  = Some (date ++ "_" ++ time).
Proof.
  intros Hd Ht He Hdot. unfold ResultHandler.timestamp_of.
  change (base ++ "_" ++ date ++ "_" ++ time ++ "." ++ ext)
    with (base ++ String "_" (date ++ String "_" (time ++ String "." ext))).
  rewrite split_on_app, split_on_app.
  rewrite (split_on_no_sep "_" date Hd).
  assert (Hrest : contains "_" (time ++ String "." ext) = false).
  { clear Hdot. induction time as [|a t IH].
    - cbn [append]. rewrite contains_char_cons. cbn [Ascii.eqb]. exact He.
    - cbn [append]. rewrite contains_char_cons.
      rewrite contains_char_cons in Ht. apply orb_false_iff in Ht.
      destruct Ht as [-> Ht]. exact (IH Ht). }
  rewrite (split_on_no_sep "_" _ Hrest).
  pose proof (split_on_nonempty "_" base) as Hne.
  set (parts := split_on "_" base) in *.
  assert (Hlen : (3 <=? length (parts ++ [date] ++ [time ++ String "." ext]))%nat
                 = true).
  { apply Nat.leb_le. rewrite !length_app. cbn [length].
    destruct parts; [congruence|]. cbn [length]. lia. }
  rewrite Hlen. unfold index_last2, index_last.
  rewrite !rev_app_distr. cbn [rev app nth_error].
  rewrite split_on_app, (split_on_no_sep "." time Hdot).
  reflexivity.
Qed.

(** X19. The service and action [save_test_case_results] takes from a file
    name recombine to the name without its extension: the service holds no
    underscore; a name without underscore is the service, with an empty
    action; otherwise the name is service, underscore, action. *)
Theorem filename_defaults_recombine (file_name : string) :
  let base_name := fst (OsPath.splitext file_name) in
  let default_service := fst (OutcomeSpec.filename_defaults file_name) in
  let default_action := snd (OutcomeSpec.filename_defaults file_name) in
  contains "_" default_service = false
  /\ (contains "_" base_name = false ->
      default_service = base_name /\ default_action = "")
  /\ (contains "_" base_name = true ->
      base_name = default_service ++ "_" ++ default_action).
Proof.
  cbv zeta. unfold OutcomeSpec.filename_defaults. cbn [fst snd].
  set (base_name := fst (OsPath.splitext file_name)).
  pose proof (split_on_nonempty "_" base_name) as Hne.
  pose proof (split_on_parts "_" base_name) as Hparts.
  pose proof (join_split_on "_" base_name) as Hjoin.
  split; [|split].
  - destruct (split_on "_" base_name) as [|p t]; [congruence|].
    inversion Hparts; assumption.
  - intros H. rewrite (split_on_no_sep "_" base_name H). split; reflexivity.
  - intros H. destruct (split_on "_" base_name) as [|p t]; [congruence|].
    destruct t as [|t1 t'].
    + cbn in Hjoin. subst p. inversion Hparts; congruence.
    + cbn [length Nat.ltb Nat.leb tl]. rewrite <- Hjoin at 1. reflexivity.
Qed.

End NameFacts.

Lemma timestamp_of_dated_name_witness :
  ResultHandler.timestamp_of "wan_restart_20250605_141606.json"
  = Some "20250605_141606".
Proof.
  exact (timestamp_of_dated_name "wan_restart" "20250605" "141606" "json"
           eq_refl eq_refl eq_refl eq_refl).
Defined.

Lemma filename_defaults_recombine_witness :
  fst (OsPath.splitext "wan_link_check.json")
  = fst (OutcomeSpec.filename_defaults "wan_link_check.json") ++ "_"
    ++ snd (OutcomeSpec.filename_defaults "wan_link_check.json").
Proof.
  exact (proj2 (proj2 (filename_defaults_recombine "wan_link_check.json"))
           eq_refl).
Defined.

(** ** Settings *)

Section SettingsFacts.
Import Settings.

Lemma select_delete_same (key : string) (t : Table) :
  select_value key (delete_key key t) = None.
Proof.
  induction t as [|[k v] t IH]; [reflexivity|].
  cbn [delete_key]. destruct (k =? key)%string eqn:E; [exact IH|].
  cbn [select_value]. rewrite E. exact IH.
Qed.

Lemma select_delete_other (key key' : string) (t : Table) :
  key' <> key ->
  select_value key' (delete_key key t) = select_value key' t.
Proof.
  intros Hne. induction t as [|[k v] t IH]; [reflexivity|].
  cbn [delete_key select_value]. destruct (k =? key)%string eqn:E.
  - apply String.eqb_eq in E. subst k.
    destruct (key =? key')%string eqn:E'; [|exact IH].
    apply String.eqb_eq in E'. congruence.
  - cbn [select_value]. rewrite IH. reflexivity.
Qed.

Lemma select_app (key : string) (t t' : Table) :
  select_value key (t ++ t')%list
  = match select_value key t with
    | Some v => Some v
    | None => select_value key t'
    end.
Proof.
  induction t as [|[k v] t IH]; [reflexivity|].
  cbn [app select_value]. destruct (k =? key)%string; [reflexivity|exact IH].
Qed.

Lemma delete_key_keys (key : string) (t : Table) :
  ~ In key (map fst (delete_key key t))
  /\ (NoDup (map fst t) -> NoDup (map fst (delete_key key t)))
  /\ (forall k, In k (map fst (delete_key key t)) -> In k (map fst t)).
Proof.
  induction t as [|[k v] t (IH1 & IH2 & IH3)].
  - cbn. repeat split; auto.
  - cbn [delete_key]. destruct (k =? key)%string eqn:E.
    + split; [exact IH1|]. split.
      * intros H. inversion H; subst. auto.
      * intros k' Hk'. right. apply IH3. exact Hk'.
    + apply String.eqb_neq in E. cbn [map fst]. split; [|split].
      * intros [H|H]; [congruence|exact (IH1 H)].
      * intros H. inversion H as [|? ? Hnin Hnd]; subst.
        constructor; [|exact (IH2 Hnd)].
        intros Hin. apply Hnin. apply IH3. exact Hin.
      * intros k' [H|H]; [left; exact H|right; apply IH3; exact H].
Qed.

(** X20. Settings round trip. [save_setting] answers True; after it
    [get_setting] of the same key gives the saved value, whatever the
    default and whatever was stored before; every other key reads as it did
    before; reading writes nothing; a key that is not stored reads as the
    default; and the table keeps at most one row per key. *)
Theorem setting_round_trip (key value : string) (t : Table) :
  let r := save_setting key value t in
  fst r = Ok true
  /\ (forall default, get_setting key default (snd r) = (Ok value, snd r))
  /\ (forall key' default,
        key' <> key ->
        fst (get_setting key' default (snd r))
        = fst (get_setting key' default t))
  /\ (forall key' default,
        select_value key' t = None ->
        get_setting key' default t = (Ok default, t))
  /\ (NoDup (map fst t) -> NoDup (map fst (snd r))).
Proof.
  cbv zeta. unfold save_setting, get_setting, try_except, bind, update, read,
    ret. cbn [fst snd].
  split; [reflexivity|]. split; [|split; [|split]].
  - intros default. rewrite select_app, select_delete_same.
    cbn [select_value]. rewrite String.eqb_refl. reflexivity.
  - intros key' default Hne. rewrite select_app, select_delete_other by exact Hne.
    destruct (select_value key' t); [reflexivity|].
    cbn [select_value]. destruct (key =? key')%string eqn:E; [|reflexivity].
    apply String.eqb_eq in E. congruence.
  - intros key' default H. rewrite H. reflexivity.
  - intros Hnd. destruct (delete_key_keys key t) as (H1 & H2 & _).
    rewrite map_app. cbn [map fst].
    apply NoDup_app; [exact (H2 Hnd) | repeat constructor; cbn; tauto |].
    intros k Hk [<-|[]]. exact (H1 Hk).
Qed.

End SettingsFacts.

Lemma setting_round_trip_witness :
  let t := [("lan_ip", "192.168.88.1"); ("username", "root")] in
  fst (Settings.get_setting "username" ""
         (snd (Settings.save_setting "lan_ip" "10.0.0.1" t)))
  = fst (Settings.get_setting "username" "" t).
Proof.
  intros t.
  refine (proj1 (proj2 (proj2 (setting_round_trip "lan_ip" "10.0.0.1" t)))
            "username" "" _).
  discriminate.
Defined.

(** ** A device that does not answer *)

Section UnreachableFacts.
Import Connection ResultHandler Device.
Variable os_path_join : string -> string -> string.
Variable os_path_basename : string -> string.

Lemma unreachable_next (w : World) :
  unreachable w = true -> exists msg, next_answer w = Raises msg.
Proof.
  unfold unreachable. rewrite next_answer_of_remote.
  destruct (remote (env w)) as [|[out err st|msg] rest]; cbn.
  - eexists; reflexivity.
  - discriminate.
  - eexists; reflexivity.
Qed.

Lemma unreachable_answered (e : Effect) (w : World) :
  unreachable w = true -> unreachable (answered e w) = true.
Proof.
  unfold unreachable. rewrite answered_remote.
  destruct (remote (env w)) as [|r rest]; cbn; [reflexivity|].
  intros H. apply andb_true_iff in H. tauto.
Qed.

Lemma unreachable_is_connected (w : World) :
  unreachable w = true ->
  exists w', is_connected w = (Ok false, w') /\ unreachable w' = true
             /\ has_session w' = false.
Proof.
  intros H. destruct (has_session w) eqn:Hs.
  - unfold has_session in Hs. apply andb_true_iff in Hs. destruct Hs as [Hc Hcl].
    rewrite is_connected_canary; [|exact Hc|destruct (client (ssh w)); congruence].
    destruct (unreachable_next w H) as [msg ->].
    eexists. split; [reflexivity|]. split.
    + exact (unreachable_answered _ w H).
    + reflexivity.
  - exists w. split; [|split; [exact H|exact Hs]].
    apply is_connected_cached. unfold has_session in Hs.
    apply andb_false_iff in Hs. destruct Hs as [Hs|Hs]; [left; exact Hs|].
    right. destruct (client (ssh w)); [discriminate|reflexivity].
Qed.

Lemma unreachable_disconnect (w : World) :
  unreachable w = true -> unreachable (snd (disconnect w)) = true.
Proof.
  intros H. rewrite disconnect_world. cbn [snd].
  destruct (client (ssh w)); [|exact H].
  destruct (next_answer w); [|exact (unreachable_answered _ w H)].
  exact (unreachable_answered SshClose w H).
Qed.

Lemma unreachable_connect (host user pass : string) (prt timeout : Z)
  (w : World) :
  unreachable w = true ->
  exists w', connect host user pass prt timeout w = (Ok false, w')
             /\ unreachable w' = true.
Proof.
  intros H. rewrite connect_world. cbv zeta.
  set (w2 := with_ssh _ (snd (disconnect w))).
  assert (H2 : unreachable w2 = true) by exact (unreachable_disconnect w H).
  destruct (unreachable_next w2 H2) as [msg ->].
  eexists. split; [reflexivity|]. exact (unreachable_answered _ w2 H2).
Qed.

Lemma unreachable_execute_command (command : string) (timeout : Z) (w : World) :
  unreachable w = true ->
  exists w', execute_command command timeout w = (Ok (Some not_connected), w')
             /\ unreachable w' = true.
Proof.
  intros H. rewrite execute_command_world. cbv zeta.
  destruct (has_session w).
  - destruct (unreachable_next w H) as [msg ->].
    eexists. split; [reflexivity|]. exact (unreachable_answered _ w H).
  - exists w. split; [reflexivity|exact H].
Qed.

Lemma unreachable_poll (result_dir pattern : string)
  (initial_files : list string) (latest : option string)
  (w : World) (l : Locals) :
  unreachable w = true ->
  exists r w' l',
    poll os_path_join result_dir pattern initial_files latest (w, l)
    = (r, (w', l'))
    /\ unreachable w' = true
    /\ (r = Ok ContinueLoop \/ exists e, r = Raise e).
Proof.
  intros H. unfold poll. unfold bind at 1. unfold in_world at 1. cbn [fst snd].
  destruct (unreachable_is_connected w H) as (w1 & -> & H1 & _).
  cbn [negb]. unfold bind at 1. unfold bind at 1. unfold local at 1.
  cbn [fst snd].
  destruct (reconnect_attempts l >=? max_reconnect_attempts).
  - unfold raise at 1. eexists _, w1, l. split; [reflexivity|].
    split; [exact H1|]. right. eexists; reflexivity.
  - unfold bind at 1. unfold assign at 1. cbn [fst snd].
    unfold bind at 1. unfold in_world at 1, read at 1. cbn [fst snd].
    unfold bind at 1. unfold in_world at 1, read at 1. cbn [fst snd].
    unfold bind at 1. unfold in_world at 1, read at 1. cbn [fst snd].
    unfold bind at 1. unfold in_world at 1. cbn [fst snd].
    destruct (unreachable_connect (lan_ip_var (gui w1)) (username_var (gui w1))
                (password_var (gui w1)) 22 10 w1 H1) as (w2 & -> & H2).
    cbn [negb fst snd]. unfold bind, in_world, sleep, update, ret.
    cbn [fst snd negb].
    eexists _, _, _. split; [reflexivity|]. split; [exact H2|].
    left. reflexivity.
Qed.

Lemma unreachable_wait_iteration (start_wait : Z) (result_dir pattern : string)
  (initial_files : list string) (latest : option string)
  (w : World) (l : Locals) :
  unreachable w = true ->
  exists w' l',
    wait_iteration os_path_join start_wait result_dir pattern initial_files
                   latest (w, l)
    = (Ok None, (w', l'))
    /\ unreachable w' = true.
Proof.
  intros H. unfold wait_iteration. unfold bind at 1.
  unfold in_world at 1, time_now, read. cbn [fst snd].
  unfold bind at 1, try_except.
  destruct (unreachable_poll result_dir pattern initial_files latest w l H)
    as (r & w1 & l1 & -> & H1 & [->|[e ->]]).
  - eexists _, _. split; [reflexivity|exact H1].
  - unfold bind, in_world, update, sleep, ret. cbn [fst snd].
    eexists _, _. split; [reflexivity|exact H1].
Qed.

Lemma unreachable_wait_loop (fuel : nat) (start_wait timeout : Z)
  (result_dir pattern : string) (initial_files : list string)
  (latest : option string) (w : World) (l : Locals)
  (res : Exc (string * string) * (World * Locals)) :
  unreachable w = true ->
  wait_loop os_path_join fuel start_wait timeout result_dir pattern
            initial_files latest (w, l) = res ->
  fst res = Raise "out of fuel"
  \/ fst res = Raise ("Timeout waiting for result file after "
                        ++ str_of_Z timeout ++ " seconds").
Proof.
  revert w l. induction fuel as [|fuel IH]; intros w l H E.
  - left. subst res. reflexivity.
  - cbn [wait_loop] in E. unfold bind at 1 in E.
    unfold in_world at 1, time_now, read in E. cbn [fst snd] in E.
    destruct (clock (env w) - start_wait <? timeout);
      [|right; subst res; reflexivity].
    unfold bind at 1 in E.
    destruct (unreachable_wait_iteration start_wait result_dir pattern
                initial_files latest w l H) as (w1 & l1 & Ei & H1).
    rewrite Ei in E. exact (IH w1 l1 H1 E).
Qed.

Lemma unreachable_wait_for_result_file (fuel : nat)
  (base_filename result_dir : string) (timeout : Z) (w : World)
  (res : Exc (string * string) * World) :
  unreachable w = true ->
  wait_for_result_file os_path_join os_path_basename fuel base_filename
                       result_dir timeout w = res ->
  fst res = Raise "out of fuel"
  \/ fst res = Raise ("Timeout waiting for result file after "
                        ++ str_of_Z timeout ++ " seconds").
Proof.
  intros H E. unfold wait_for_result_file in E.
  unfold bind at 1, time_now, read in E. unfold bind at 1 in E.
  unfold snapshot in E. unfold bind at 1 in E.
  destruct (unreachable_execute_command
              ("find " ++ result_dir ++ " -name '"
                 ++ (fst (OsPath.splitext base_filename) ++ "_*.json")
                 ++ "' -type f 2>/dev/null || echo ''") 30 w H)
    as (w1 & Ec & H1).
  rewrite Ec in E. unfold bind, execute, not_connected, ret in E.
  match type of E with
  | context [wait_loop ?j ?f ?s ?t ?d ?p ?i ?la (?w0, ?l0)] =>
      pose proof (unreachable_wait_loop f s t d p i la w0 l0 _ H1 eq_refl) as Hl;
      destruct (wait_loop j f s t d p i la (w0, l0)) as [r [w' l']]
  end.
  subst res. exact Hl.
Qed.

(** X21. When the device never answers again, [wait_for_result_file] ends
    by raising the Timeout exception, whether or not the user has cancelled
    in the meantime: the cancellation is only looked at in a pass that got a
    listing, and the exception of the fourth failed reconnection is caught
    by the loop itself. *)
Theorem unreachable_device_wait_times_out (fuel : nat)
  (base_filename result_dir : string) (timeout : Z) (w : World) :
  unreachable w = true ->
  Z.max 0 timeout + 3 <= 3 * Z.of_nat fuel ->
  fst (wait_for_result_file os_path_join os_path_basename fuel base_filename
                            result_dir timeout w)
  = Raise ("Timeout waiting for result file after "
             ++ str_of_Z timeout ++ " seconds").
Proof.
  intros H Hfuel.
  pose proof (wait_for_result_file_enough_fuel os_path_join os_path_basename
                fuel base_filename result_dir timeout w Hfuel) as Hnf.
  destruct (unreachable_wait_for_result_file fuel base_filename result_dir
              timeout w _ H eq_refl) as [E|E]; [congruence|exact E].
Qed.

End UnreachableFacts.

Lemma unreachable_device_wait_times_out_witness :
  let w := mkWorld Examples.live_ssh
             (mkEnv [] Examples.no_files 100 (Some 0) [])
             Examples.empty_gui Examples.empty_db in
  fst (ResultHandler.wait_for_result_file OsPath.join OsPath.basename 3
         "wan_check.json" "/tmp/results" 6 w)
  = Raise "Timeout waiting for result file after 6 seconds".
Proof.
  intros w.
  exact (unreachable_device_wait_times_out OsPath.join OsPath.basename 3
           "wan_check.json" "/tmp/results" 6 w eq_refl
           ltac:(lia)).
Defined.

(** ** One file touches one row *)

Create HintDb keeps.
Create HintDb answers.

Section KeepsFacts.
Variable R : World -> World -> Prop.
Hypothesis R_refl : forall w, R w w.
Hypothesis R_trans : forall a b c, R a b -> R b c -> R a c.
Context {S : Type} `{HasWorld S}.

Lemma keeps_ret {A} (a : A) : keeps R (ret (S := S) a).
Proof. intros s. apply R_refl. Qed.

Lemma keeps_raise {A} (e : string) : keeps R (raise (S := S) (A := A) e).
Proof. intros s. apply R_refl. Qed.

Lemma keeps_lift {A} (x : Exc A) : keeps R (lift (S := S) x).
Proof. intros s. apply R_refl. Qed.

Lemma keeps_read {A} (f : S -> A) : keeps R (read f).
Proof. intros s. apply R_refl. Qed.

Lemma keeps_bind {A B} (m : SE S A) (k : A -> SE S B) :
  keeps R m -> (forall a, keeps R (k a)) -> keeps R (bind m k).
Proof.
  intros Hm Hk s. unfold bind. specialize (Hm s).
  destruct (m s) as [[a|e] s1]; cbn [snd] in *; [|exact Hm].
  exact (R_trans _ _ _ Hm (Hk a s1)).
Qed.

Lemma keeps_try {A} (m : SE S A) (h : string -> SE S A) :
  keeps R m -> (forall e, keeps R (h e)) -> keeps R (try_except m h).
Proof.
  intros Hm Hh s. unfold try_except. specialize (Hm s).
  destruct (m s) as [[a|e] s1]; cbn [snd] in *; [exact Hm|].
  exact (R_trans _ _ _ Hm (Hh e s1)).
Qed.

End KeepsFacts.

Section KeepsLocals.
Variable R : World -> World -> Prop.
Hypothesis R_refl : forall w, R w w.

Lemma keeps_in_world {L A} (m : M A) :
  keeps R m -> keeps R (in_world (L := L) m).
Proof.
  intros Hm [w l]. unfold in_world. specialize (Hm w). cbn [fst snd].
  destruct (m w) as [r w']. exact Hm.
Qed.

Lemma keeps_local {L A} (f : L -> A) : keeps R (local (L := L) f).
Proof. intros s. apply R_refl. Qed.

Lemma keeps_assign {L} (f : L -> L) : keeps R (assign f).
Proof. intros s. apply R_refl. Qed.

Lemma keeps_with_locals {L A} (m : SE (World * L) A) (l0 : L) :
  keeps R m ->
  keeps R (fun w => match m (w, l0) with (r, (w', _)) => (r, w') end).
Proof.
  intros Hm w. specialize (Hm (w, l0)).
  destruct (m (w, l0)) as [r [w' l']]. exact Hm.
Qed.

End KeepsLocals.

Section OwnRow.
Import Connection ResultHandler TestDatabase FileProcessor SingleFile.
Variable i : nat.
Variable os_path_join : string -> string -> string.
Variable os_path_basename : string -> string.
Variable upload_file : string -> string -> M bool.
Variable download_file : string -> string -> M bool.
Variable config_path_var result_path_var : string.
Variable DEFAULT_TIMEOUT : Z.
Variable fuel : nat.

(** The two transfer functions work on the connection and on local files;
    they do not write to the window. *)
Hypothesis upload_file_gui :
  forall local_path remote_path w,
    gui (snd (upload_file local_path remote_path w)) = gui w.
Hypothesis download_file_gui :
  forall remote_path local_path w,
    gui (snd (download_file remote_path local_path w)) = gui w.

Lemma other_rows_kept_refl (w : World) : other_rows_kept i w w.
Proof. unfold other_rows_kept. repeat split; reflexivity. Qed.

Lemma other_rows_kept_trans (a b c : World) :
  other_rows_kept i a b -> other_rows_kept i b c -> other_rows_kept i a c.
Proof.
  unfold other_rows_kept.
  intros (A1 & A2 & A3 & A4 & A5 & A6) (B1 & B2 & B3 & B4 & B5 & B6).
  repeat split; try congruence.
  intros j Hj. rewrite (B6 j Hj). exact (A6 j Hj).
Qed.

Lemma gui_kept (w w' : World) : gui w' = gui w -> other_rows_kept i w w'.
Proof. intros E. unfold other_rows_kept. rewrite E. repeat split; reflexivity. Qed.

Lemma kept_update_ssh (f : SSHConnection -> SSHConnection) :
  keeps (other_rows_kept i) (update (with_ssh f)).
Proof. intros w. apply gui_kept. reflexivity. Qed.

Lemma kept_update_env (f : Env -> Env) : keeps (other_rows_kept i) (update (with_env f)).
Proof. intros w. apply gui_kept. reflexivity. Qed.

Lemma kept_update_db (f : Database -> Database) : keeps (other_rows_kept i) (update (with_db f)).
Proof. intros w. apply gui_kept. reflexivity. Qed.

Lemma kept_sleep (n : Z) : keeps (other_rows_kept i) (sleep n).
Proof. apply kept_update_env. Qed.

Lemma kept_paramiko (e : Effect) : keeps (other_rows_kept i) (paramiko e).
Proof.
  intros w. apply gui_kept. rewrite paramiko_answer.
  destruct (next_answer w); reflexivity.
Qed.

Lemma kept_update_file_status (status : string) (result : json)
  (time_str : string) :
  keeps (other_rows_kept i) (update_file_status i status result time_str).
Proof.
  intros w. unfold update_file_status, update, with_gui, other_rows_kept.
  cbn [snd world_of world_world gui file_data lan_ip_var username_var
       password_var file_table].
  unfold world_of, world_world.
  repeat (split; [reflexivity|]). split.
  - apply update_nth_length.
  - intros j Hj. apply update_nth_other. exact Hj.
Qed.

#[local] Hint Resolve other_rows_kept_refl : keeps.
#[local] Hint Resolve kept_update_ssh kept_update_env kept_update_db kept_sleep
  kept_paramiko kept_update_file_status : keeps.
#[local] Hint Extern 1 (keeps _ (ret _)) =>
  apply keeps_ret; apply other_rows_kept_refl : keeps.
#[local] Hint Extern 1 (keeps _ (raise _)) =>
  apply keeps_raise; apply other_rows_kept_refl : keeps.
#[local] Hint Extern 1 (keeps _ (lift _)) =>
  apply keeps_lift; apply other_rows_kept_refl : keeps.
#[local] Hint Extern 1 (keeps _ (read _)) =>
  apply keeps_read; apply other_rows_kept_refl : keeps.
#[local] Hint Extern 1 (keeps _ time_now) =>
  apply keeps_read; apply other_rows_kept_refl : keeps.
#[local] Hint Extern 1 (keeps _ processing) =>
  apply keeps_read; apply other_rows_kept_refl : keeps.
#[local] Hint Extern 1 (keeps _ (local _)) =>
  apply keeps_local; apply other_rows_kept_refl : keeps.
#[local] Hint Extern 1 (keeps _ (assign _)) =>
  apply keeps_assign; apply other_rows_kept_refl : keeps.
#[local] Hint Extern 2 (keeps _ (in_world _)) => apply keeps_in_world : keeps.

Ltac keeps_step :=
  match goal with
  | |- keeps _ (bind _ _) =>
      apply keeps_bind; [exact other_rows_kept_trans| |intros]
  | |- keeps _ (try_except _ _) =>
      apply keeps_try; [exact other_rows_kept_trans| |intros]
  | |- keeps _ (match ?x with _ => _ end) => destruct x
  | |- keeps _ (if ?b then _ else _) => destruct b
  | |- keeps _ _ => solve [auto with keeps]
  end.

Lemma kept_disconnect : keeps (other_rows_kept i) disconnect.
Proof. unfold disconnect. repeat keeps_step. Qed.

Lemma kept_connect h u p prt t :
  keeps (other_rows_kept i) (connect h u p prt t).
Proof.
  unfold connect, connect_body. pose proof kept_disconnect.
  repeat keeps_step.
Qed.

Lemma kept_connect_from_fields :
  keeps (other_rows_kept i) connect_from_fields.
Proof.
  unfold connect_from_fields. pose proof kept_connect. repeat keeps_step.
Qed.

Lemma kept_is_connected : keeps (other_rows_kept i) is_connected.
Proof. unfold is_connected. repeat keeps_step. Qed.

Lemma kept_execute_iteration c t rc :
  keeps (other_rows_kept i) (execute_iteration c t rc).
Proof.
  unfold execute_iteration. pose proof kept_is_connected. repeat keeps_step.
Qed.

Lemma kept_execute_loop n c t rc :
  keeps (other_rows_kept i) (execute_loop n c t rc).
Proof.
  revert rc. induction n as [|n IH]; intros rc; cbn [execute_loop].
  - auto with keeps.
  - pose proof (kept_execute_iteration c t rc). repeat keeps_step.
Qed.

Lemma kept_execute_command c t :
  keeps (other_rows_kept i) (execute_command c t).
Proof. apply kept_execute_loop. Qed.

Lemma kept_execute {S} `{HasWorld S} r :
  keeps (other_rows_kept i) (execute (S := S) r).
Proof. unfold execute. repeat keeps_step. Qed.

Lemma kept_verify_file_ready p :
  keeps (other_rows_kept i) (_verify_file_ready p).
Proof.
  unfold _verify_file_ready. pose proof kept_execute_command.
  pose proof (@kept_execute World _). repeat keeps_step.
Qed.

Lemma kept_upload_file a b : keeps (other_rows_kept i) (upload_file a b).
Proof. intros w. apply gui_kept. apply upload_file_gui. Qed.

Lemma kept_download_file a b : keeps (other_rows_kept i) (download_file a b).
Proof. intros w. apply gui_kept. apply download_file_gui. Qed.

Lemma kept_poll result_dir pattern initial_files latest :
  keeps (other_rows_kept i)
        (poll os_path_join result_dir pattern initial_files latest).
Proof.
  unfold poll. pose proof kept_is_connected. pose proof kept_connect.
  pose proof kept_execute_command. pose proof (@kept_execute (World * Locals) _).
  pose proof kept_verify_file_ready. repeat keeps_step.
Qed.

Lemma kept_wait_iteration start_wait result_dir pattern initial_files latest :
  keeps (other_rows_kept i)
        (wait_iteration os_path_join start_wait result_dir pattern
                        initial_files latest).
Proof.
  unfold wait_iteration. pose proof kept_poll. repeat keeps_step.
Qed.

Lemma kept_wait_loop n start_wait timeout result_dir pattern initial_files
  latest :
  keeps (other_rows_kept i)
        (wait_loop os_path_join n start_wait timeout result_dir pattern
                   initial_files latest).
Proof.
  induction n as [|n IH]; cbn [wait_loop].
  - auto with keeps.
  - pose proof kept_wait_iteration. repeat keeps_step.
Qed.

Lemma kept_snapshot result_dir pattern :
  keeps (other_rows_kept i) (snapshot result_dir pattern).
Proof.
  unfold snapshot. pose proof kept_execute_command.
  pose proof (@kept_execute World _). repeat keeps_step.
Qed.

Lemma kept_wait_for_result_file n base_filename result_dir timeout :
  keeps (other_rows_kept i)
        (wait_for_result_file os_path_join os_path_basename n base_filename
                              result_dir timeout).
Proof.
  unfold wait_for_result_file. pose proof kept_snapshot.
  keeps_step; [keeps_step|]. keeps_step; [keeps_step|].
  apply keeps_with_locals. apply kept_wait_loop.
Qed.

Lemma kept_save_test_file_result k :
  keeps (other_rows_kept i) (save_test_file_result k).
Proof. unfold save_test_file_result. repeat keeps_step. Qed.

Lemma kept_save_test_case_results result_id tests :
  keeps (other_rows_kept i) (save_test_case_results result_id tests).
Proof. unfold save_test_case_results. repeat keeps_step. Qed.

Lemma kept_impact_flags file_name :
  keeps (other_rows_kept i) (impact_flags file_name).
Proof. unfold impact_flags. repeat keeps_step. Qed.

Lemma kept_process_downloaded_result file_path file_name start result_data
  overall :
  keeps (other_rows_kept i)
        (_process_downloaded_result i file_path file_name start result_data
                                    overall).
Proof.
  unfold _process_downloaded_result. pose proof kept_save_test_file_result.
  pose proof kept_save_test_case_results. pose proof kept_impact_flags.
  repeat keeps_step.
Qed.

Lemma kept_download_and_process_result file_path file_name start remote_path
  result_file_name :
  keeps (other_rows_kept i)
        (_download_and_process_result os_path_join download_file i file_path
           file_name start remote_path result_file_name).
Proof.
  unfold _download_and_process_result. pose proof kept_download_file.
  pose proof kept_process_downloaded_result. repeat keeps_step.
Qed.

Lemma kept_look_for_result file_path file_name start_time upload_time
  result_dir base_name :
  keeps (other_rows_kept i)
        (look_for_result os_path_join download_file i file_path file_name
                         start_time upload_time result_dir base_name).
Proof.
  unfold look_for_result. pose proof kept_connect_from_fields.
  pose proof kept_execute_command.
  pose proof (@kept_execute (World * Reconnect) _).
  pose proof kept_download_and_process_result. repeat keeps_step.
Qed.

Lemma kept_reconnect_iteration file_path file_name start_time upload_time
  result_dir base_name :
  keeps (other_rows_kept i)
        (reconnect_iteration os_path_join download_file i file_path file_name
                             start_time upload_time result_dir base_name).
Proof.
  unfold reconnect_iteration. pose proof kept_look_for_result.
  repeat keeps_step.
Qed.

Lemma kept_reconnect_loop n file_path file_name start_time upload_time timeout
  result_dir base_name :
  keeps (other_rows_kept i)
        (reconnect_loop os_path_join download_file n i file_path file_name
                        start_time upload_time timeout result_dir base_name).
Proof.
  induction n as [|n IH]; cbn [reconnect_loop].
  - auto with keeps.
  - pose proof kept_reconnect_iteration. repeat keeps_step.
Qed.

Lemma kept_wait_for_result_with_reconnect file_name file_path upload_time
  timeout :
  keeps (other_rows_kept i)
        (_wait_for_result_with_reconnect os_path_join download_file
           result_path_var fuel file_name file_path i upload_time timeout).
Proof.
  unfold _wait_for_result_with_reconnect.
  keeps_step; [keeps_step|]. keeps_step; [keeps_step|].
  keeps_step; [apply keeps_with_locals; apply kept_reconnect_loop|].
  repeat keeps_step.
Qed.

Lemma kept_attempt_body attempt file_path file_name start affects_network
  network_timeout :
  keeps (other_rows_kept i)
        (attempt_body os_path_join os_path_basename upload_file download_file
           config_path_var result_path_var fuel attempt i file_path file_name
           start affects_network network_timeout).
Proof.
  unfold attempt_body. pose proof kept_is_connected.
  pose proof kept_connect_from_fields. pose proof kept_upload_file.
  pose proof kept_wait_for_result_with_reconnect.
  pose proof kept_wait_for_result_file.
  pose proof kept_download_and_process_result. repeat keeps_step.
Qed.

Lemma kept_attempts range file_path file_name start affects_network
  network_timeout :
  keeps (other_rows_kept i)
        (attempts os_path_join os_path_basename upload_file download_file
           config_path_var result_path_var fuel range i file_path file_name
           start affects_network network_timeout).
Proof.
  induction range as [|attempt rest IH]; cbn [attempts].
  - auto with keeps.
  - pose proof kept_attempt_body. repeat keeps_step.
Qed.

(** X22. [_process_single_file] writes to its own row of the file table
    only: however the upload, the wait, the download and the storing of the
    result go, and whether it returns or raises, the table has as many rows
    as before, every row but row [file_index] is as it was, and the
    connection fields and the file data of the window are unchanged. This
    holds of [_wait_for_result_with_reconnect], [wait_for_result_file],
    [_download_and_process_result] and [_process_downloaded_result], which
    it calls. *)
Theorem process_single_file_own_row_only (file_path : string)
  (file_start_time : Z) (w : World) :
  other_rows_kept i w
    (snd (_process_single_file os_path_join os_path_basename upload_file
            download_file config_path_var result_path_var DEFAULT_TIMEOUT fuel i file_path
            file_start_time w)).
Proof.
  revert w.
  change (keeps (other_rows_kept i)
            (_process_single_file os_path_join os_path_basename upload_file
               download_file config_path_var result_path_var DEFAULT_TIMEOUT fuel i file_path
               file_start_time)).
  unfold _process_single_file. pose proof kept_impact_flags.
  pose proof kept_attempts. repeat keeps_step.
Qed.

End OwnRow.

(** ** The answers a returned file was checked against *)

Section AnswerFacts.
Import Connection ResultHandler.

Lemma comes_after_refl (w : World) : comes_after w w.
Proof.
  exists [], []. cbn. repeat split; auto.
Qed.

Lemma comes_after_trans (a b c : World) :
  comes_after a b -> comes_after b c -> comes_after a c.
Proof.
  intros (c1 & n1 & Hr1 & Ht1 & Hle1 & Heq1) (c2 & n2 & Hr2 & Ht2 & Hle2 & Heq2).
  exists (c1 ++ c2)%list, (n2 ++ n1)%list.
  unfold remote_calls in *.
  split; [rewrite Hr1, Hr2, app_assoc; reflexivity|].
  split; [rewrite Ht2, Ht1, app_assoc; reflexivity|].
  rewrite filter_app, !length_app. split; [lia|].
  intros Hne. specialize (Heq2 Hne).
  assert (Hb : remote (env b) <> []).
  { rewrite Hr2. intros K. apply app_eq_nil in K as [_ K]. exact (Hne K). }
  specialize (Heq1 Hb). lia.
Qed.

Lemma env_comes_after (w w' : World) : env w' = env w -> comes_after w w'.
Proof.
  intros E. exists [], []. rewrite E. cbn. repeat split; auto.
Qed.

Lemma answered_comes_after (e : Effect) (w : World) :
  is_remote e = true -> comes_after w (answered e w).
Proof.
  intros He.
  exists (match remote (env w) with [] => [] | r :: _ => [r] end), [e].
  rewrite answered_remote, answered_trace. unfold remote_calls.
  cbn [filter]. rewrite He.
  destruct (remote (env w)) as [|r rest]; cbn; repeat split; auto.
  intros K. congruence.
Qed.

Lemma run_paramiko (e : Effect) :
  is_remote e = true -> keeps comes_after (paramiko e).
Proof.
  intros He w. rewrite paramiko_answer.
  destruct (next_answer w); cbn [snd]; apply answered_comes_after; exact He.
Qed.

Lemma run_sleep (n : Z) : keeps comes_after (sleep n).
Proof.
  intros w. exists [], [Sleep n]. cbn. repeat split; auto.
Qed.

Lemma run_update_ssh (f : SSHConnection -> SSHConnection) :
  keeps comes_after (update (with_ssh f)).
Proof. intros w. apply env_comes_after. reflexivity. Qed.

#[local] Hint Resolve comes_after_refl run_sleep run_update_ssh : answers.
#[local] Hint Extern 1 (keeps _ (paramiko _)) =>
  apply run_paramiko; reflexivity : answers.
#[local] Hint Extern 1 (keeps _ (ret _)) =>
  apply keeps_ret; apply comes_after_refl : answers.
#[local] Hint Extern 1 (keeps _ (raise _)) =>
  apply keeps_raise; apply comes_after_refl : answers.
#[local] Hint Extern 1 (keeps _ (lift _)) =>
  apply keeps_lift; apply comes_after_refl : answers.
#[local] Hint Extern 1 (keeps _ (read _)) =>
  apply keeps_read; apply comes_after_refl : answers.
#[local] Hint Extern 1 (keeps _ time_now) =>
  apply keeps_read; apply comes_after_refl : answers.
#[local] Hint Extern 1 (keeps _ processing) =>
  apply keeps_read; apply comes_after_refl : answers.
#[local] Hint Extern 1 (keeps _ (local _)) =>
  apply keeps_local; apply comes_after_refl : answers.
#[local] Hint Extern 1 (keeps _ (assign _)) =>
  apply keeps_assign; apply comes_after_refl : answers.
#[local] Hint Extern 2 (keeps _ (in_world _)) => apply keeps_in_world : answers.

Ltac run_step :=
  match goal with
  | |- keeps _ (bind _ _) =>
      apply keeps_bind; [exact comes_after_trans| |intros]
  | |- keeps _ (try_except _ _) =>
      apply keeps_try; [exact comes_after_trans| |intros]
  | |- keeps _ (match ?x with _ => _ end) => destruct x
  | |- keeps _ (if ?b then _ else _) => destruct b
  | |- keeps _ _ => solve [auto with answers]
  end.

Lemma run_disconnect : keeps comes_after disconnect.
Proof. unfold disconnect. repeat run_step. Qed.

Lemma run_connect h u p prt t : keeps comes_after (connect h u p prt t).
Proof.
  unfold connect, connect_body. pose proof run_disconnect. repeat run_step.
Qed.

Lemma run_is_connected : keeps comes_after is_connected.
Proof. unfold is_connected. repeat run_step. Qed.

Lemma run_execute_iteration c t rc :
  keeps comes_after (execute_iteration c t rc).
Proof.
  unfold execute_iteration. pose proof run_is_connected. repeat run_step.
Qed.

Lemma run_execute_loop n c t rc : keeps comes_after (execute_loop n c t rc).
Proof.
  revert rc. induction n as [|n IH]; intros rc; cbn [execute_loop].
  - auto with answers.
  - pose proof (run_execute_iteration c t rc). repeat run_step.
Qed.

Lemma run_execute_command c t : keeps comes_after (execute_command c t).
Proof. apply run_execute_loop. Qed.

Lemma run_execute {S} `{HasWorld S} r :
  keeps comes_after (execute (S := S) r).
Proof. unfold execute. repeat run_step. Qed.

Lemma run_verify_file_ready p : keeps comes_after (_verify_file_ready p).
Proof.
  unfold _verify_file_ready. pose proof run_execute_command.
  pose proof (@run_execute World _). repeat run_step.
Qed.

(** What a state reached by code that keeps [comes_after] says about the
    state it started from. *)
Lemma kept_result {S} `{HasWorld S} {A} (m : SE S A) (s s' : S) (r : Exc A) :
  keeps comes_after m -> m s = (r, s') ->
  comes_after (world_of s) (world_of s').
Proof.
  intros Hk E. specialize (Hk s). rewrite E in Hk. exact Hk.
Qed.

(** A command that [execute_command] reports as a success: the two answers
    at the head of the list went to the keepalive and to the command, and
    the second one is the output returned, with exit status 0. *)
Lemma execute_command_answers (command : string) (timeout : Z) (w w' : World)
  (out err : string) :
  execute_command command timeout w = (Ok (Some (true, out, err)), w') ->
  exists k,
    remote (env w) = k :: Done out err 0 :: remote (env w')
    /\ trace (env w') = SshExec command timeout :: canary :: trace (env w).
Proof.
  intros H. rewrite execute_command_world in H.
  destruct (has_session w); [|discriminate].
  destruct (next_answer w) as [o e s|m] eqn:Ha; [|discriminate].
  destruct (strip o =? "keepalive")%string; [|discriminate].
  destruct (next_answer (answered canary w)) as [so se ex|e'] eqn:Hb.
  - injection H as Hex -> -> <-. apply Z.eqb_eq in Hex. subst ex.
    rewrite next_answer_of_remote in Ha, Hb.
    rewrite answered_remote in Hb.
    rewrite !answered_remote, !answered_trace.
    destruct (remote (env w)) as [|k rest]; [discriminate|].
    cbn [tl] in *. destruct rest as [|k2 rest2]; [discriminate|].
    subst k2. exists k. split; reflexivity.
  - destruct (contains "timed out" (lower e')); discriminate.
Qed.

(** What [_verify_file_ready] read when it answered True: six answers went,
    to three commands and their keepalives; the file was reported to exist
    and the two size reads, a sleep of one second apart, completed with exit
    status 0 and the same stripped output, which is not empty. *)
Lemma verify_file_ready_answers (file_path : string) (start finish : World) :
  _verify_file_ready file_path start = (Ok true, finish) ->
  exists k1 out err k2 size1 err1 k3 size2 err2,
    remote (env start)
    = ([k1; Done out err 0; k2; Done size1 err1 0; k3; Done size2 err2 0]
         ++ remote (env finish))%list
    /\ trace (env finish)
       = ([SshExec ("stat -c %s " ++ file_path) 30; canary; Sleep 1;
           SshExec ("stat -c %s " ++ file_path) 30; canary;
           SshExec ("test -f " ++ file_path
                      ++ " && echo 'exists' || echo 'missing'") 30; canary]
            ++ trace (env start))%list
    /\ strip out = "exists"
    /\ strip size1 = strip size2
    /\ strip size1 <> "".
Proof.
  intros H. apply verify_file_ready_true in H.
  destruct H as (out & err & w1 & w2 & size1 & size2
                 & H0 & Hex & [err1 H1] & [err2 H2] & Heq & Hne).
  apply execute_command_answers in H0 as (k1 & R0 & T0).
  apply execute_command_answers in H1 as (k2 & R1 & T1).
  apply execute_command_answers in H2 as (k3 & R2 & T2).
  cbn [env with_env remote trace advance log_effect] in R2, T2.
  exists k1, out, err, k2, size1, err1, k3, size2, err2.
  split; [rewrite R0, R1, R2; reflexivity|].
  split; [rewrite T2, T1, T0; reflexivity|].
  auto.
Qed.

Section Wait.
Variable os_path_join : string -> string -> string.
Variable os_path_basename : string -> string.

Lemma poll_found_after (result_dir pattern : string)
  (initial_files : list string) (latest : option string)
  (s s' : World * Locals) (p f : string) :
  poll os_path_join result_dir pattern initial_files latest s
  = (Ok (Found p f), s') ->
  exists start,
    comes_after (fst s) start
    /\ _verify_file_ready p start = (Ok true, fst s').
Proof.
  unfold poll. intros H.
  apply bind_ok in H as (alive & s1 & Ha & H).
  apply kept_result in Ha;
    [|apply keeps_in_world; apply run_is_connected].
  apply bind_ok in H as (reconnected & s2 & Hr & H).
  apply kept_result in Hr;
    [|pose proof run_connect; repeat run_step].
  destruct (negb reconnected); [discriminate|].
  apply bind_ok in H as (r & s3 & Hc & H).
  apply kept_result in Hc;
    [|apply keeps_in_world; apply run_execute_command].
  apply bind_ok in H as ([[success info] err] & s4 & Hx & H).
  apply execute_ok in Hx as [_ ->].
  destruct (negb success || (strip info =? "")%string).
  { apply bind_ok in H as (? & ? & _ & H). discriminate. }
  destruct (index_last (split_ws (strip info))) as [newest_file|];
    [|discriminate].
  set (full_path := os_path_join result_dir newest_file) in *.
  match type of H with
  | (if ?c then _ else _) _ = _ => destruct c; [|discriminate]
  end.
  apply bind_ok in H as ([] & s5 & Hs & H).
  apply kept_result in Hs; [|apply keeps_in_world; apply run_sleep].
  apply bind_ok in H as (ready & s6 & Hv & H).
  destruct ready; [|discriminate].
  injection H as <- <- <-.
  unfold in_world in Hv.
  destruct (_verify_file_ready full_path (fst s5)) as [rv wv] eqn:Ev.
  injection Hv as -> <-. exists (fst s5). split; [|exact Ev].
  unfold world_of, locals_world in *.
  eapply comes_after_trans; [exact Ha|].
  eapply comes_after_trans; [exact Hr|].
  eapply comes_after_trans; [exact Hc|exact Hs].
Qed.

Lemma run_poll result_dir pattern initial_files latest :
  keeps comes_after (poll os_path_join result_dir pattern initial_files latest).
Proof.
  unfold poll. pose proof run_is_connected. pose proof run_connect.
  pose proof run_execute_command. pose proof (@run_execute (World * Locals) _).
  pose proof run_verify_file_ready. repeat run_step.
Qed.

Lemma run_wait_iteration start_wait result_dir pattern initial_files latest :
  keeps comes_after
        (wait_iteration os_path_join start_wait result_dir pattern
                        initial_files latest).
Proof.
  unfold wait_iteration. pose proof run_poll. repeat run_step.
Qed.

Lemma wait_iteration_found_after (start_wait : Z)
  (result_dir pattern : string) (initial_files : list string)
  (latest : option string) (s s' : World * Locals) (p f : string) :
  wait_iteration os_path_join start_wait result_dir pattern initial_files
                 latest s = (Ok (Some (p, f)), s') ->
  exists start,
    comes_after (fst s) start
    /\ _verify_file_ready p start = (Ok true, fst s').
Proof.
  unfold wait_iteration. intros H.
  apply bind_ok in H as (now & s1 & Hn & H).
  unfold in_world, time_now, read in Hn. injection Hn as _ <-.
  apply bind_ok in H as (flow & s2 & Hp & H).
  destruct flow as [p' f'| |].
  - injection H as <- <- <-.
    apply try_except_ok in Hp as [Hp|(e & s3 & _ & Hh)].
    + apply poll_found_after in Hp. destruct s; exact Hp.
    + apply bind_ok in Hh as (? & ? & _ & Hh).
      apply bind_ok in Hh as (? & ? & _ & Hh). discriminate.
  - discriminate.
  - apply bind_ok in H as (last & s3 & _ & H).
    apply bind_ok in H as (? & s4 & _ & H).
    apply bind_ok in H as (running & s5 & _ & H).
    destruct (negb running); [discriminate|].
    apply bind_ok in H as (? & ? & _ & H). discriminate.
Qed.

Lemma wait_loop_found_after (fuel : nat) (start_wait timeout : Z)
  (result_dir pattern : string) (initial_files : list string)
  (latest : option string) (s s' : World * Locals) (p f : string) :
  wait_loop os_path_join fuel start_wait timeout result_dir pattern
            initial_files latest s = (Ok (p, f), s') ->
  exists start,
    comes_after (fst s) start
    /\ _verify_file_ready p start = (Ok true, fst s').
Proof.
  revert s. induction fuel as [|fuel IH]; intros s H; [discriminate|].
  cbn [wait_loop] in H.
  apply bind_ok in H as (now & s1 & Hn & H).
  unfold in_world, time_now, read in Hn. injection Hn as _ <-.
  destruct (now - start_wait <? timeout); [|discriminate].
  apply bind_ok in H as ([[p' f']|] & s2 & Hi & H).
  - injection H as <- <- <-. apply wait_iteration_found_after in Hi.
    destruct s; exact Hi.
  - apply kept_result in Hi; [|apply run_wait_iteration].
    apply IH in H as (start & Hs & Hv). exists start.
    split; [|exact Hv].
    eapply comes_after_trans; [|exact Hs].
    destruct s; exact Hi.
Qed.

Lemma wait_for_result_file_found_after (fuel : nat)
  (base_filename result_dir : string) (timeout : Z) (w w' : World)
  (p f : string) :
  wait_for_result_file os_path_join os_path_basename fuel base_filename
                       result_dir timeout w = (Ok (p, f), w') ->
  exists start,
    comes_after w start /\ _verify_file_ready p start = (Ok true, w').
Proof.
  unfold wait_for_result_file. intros H.
  apply bind_ok in H as (start_wait & w1 & Ht & H).
  unfold time_now, read in Ht. injection Ht as _ <-.
  apply bind_ok in H as (initial_files & w0 & Hs & H).
  apply kept_result in Hs.
  2:{ unfold snapshot. pose proof run_execute_command.
      pose proof (@run_execute World _). repeat run_step. }
  destruct (wait_loop _ _ _ _ _ _ _ _ _) as [r [w2 l2]] eqn:Hl.
  injection H as -> <-.
  apply wait_loop_found_after in Hl as (start & Ha & Hv).
  exists start. split; [|exact Hv].
  eapply comes_after_trans; [exact Hs|exact Ha].
Qed.

(** C6. When the wait returns a file, the last thing the run did was the
    check of [_verify_file_ready] on that file's path, and the check was
    passed on what the remote side answered in this very run. The answers
    the run used up are the head of the list it started with; the last six
    of them went, one for one, to the last six commands: the test that the
    file exists and two reads of its size, each after a keepalive, with a
    sleep of one second between the two reads. The file was reported to
    exist, and both reads completed with exit status 0 and gave the same
    stripped output, which is not empty. A file whose two size reads
    disagree or fail in the check that precedes the return is therefore not
    returned. *)
Theorem wait_returns_only_stable_files :
  forall (fuel : nat) (base_filename result_dir : string) (timeout : Z)
         (w w' : World) (p f : string),
    wait_for_result_file os_path_join os_path_basename fuel base_filename
                         result_dir timeout w = (Ok (p, f), w') ->
    exists (used : list Response) (earlier : list Effect)
           (k1 : Response) (out err : string)
           (k2 : Response) (size1 err1 : string)
           (k3 : Response) (size2 err2 : string),
      remote (env w)
      = (used
           ++ [k1; Done out err 0; k2; Done size1 err1 0;
               k3; Done size2 err2 0]
           ++ remote (env w'))%list
      /\ trace (env w')
         = ([SshExec ("stat -c %s " ++ p) 30; canary; Sleep 1;
             SshExec ("stat -c %s " ++ p) 30; canary;
             SshExec ("test -f " ++ p
                        ++ " && echo 'exists' || echo 'missing'") 30; canary]
              ++ earlier ++ trace (env w))%list
      /\ length used = remote_calls earlier
      /\ strip out = "exists"
      /\ strip size1 = strip size2
      /\ strip size1 <> "".
Proof.
  intros fuel base_filename result_dir timeout w w' p f H.
  apply wait_for_result_file_found_after in H as (start & Ha & Hv).
  apply verify_file_ready_answers in Hv
    as (k1 & out & err & k2 & size1 & err1 & k3 & size2 & err2
        & Hr & Ht & Hex & Heq & Hne).
  destruct Ha as (used & earlier & Hr0 & Ht0 & _ & Hcount).
  exists used, earlier, k1, out, err, k2, size1, err1, k3, size2, err2.
  split; [rewrite Hr0, Hr; reflexivity|].
  split; [rewrite Ht, Ht0; reflexivity|].
  split; [apply Hcount; rewrite Hr; discriminate|].
  auto.
Qed.

End Wait.

End AnswerFacts.

Lemma wait_returns_only_stable_files_witness :
  let run := ResultHandler.wait_for_result_file OsPath.join OsPath.basename 41
               "wan" "/tmp/results" 120 Examples.fresh_world in
  fst run = Ok (Examples.new_result, Examples.new_result)
  /\ exists (used : list Response) (earlier : list Effect)
            (k1 : Response) (out err : string)
            (k2 : Response) (size1 err1 : string)
            (k3 : Response) (size2 err2 : string),
       remote (env Examples.fresh_world)
       = (used
            ++ [k1; Done out err 0; k2; Done size1 err1 0;
                k3; Done size2 err2 0]
            ++ remote (env (snd run)))%list
       /\ trace (env (snd run))
          = ([SshExec ("stat -c %s " ++ Examples.new_result) 30;
              Connection.canary; Sleep 1;
              SshExec ("stat -c %s " ++ Examples.new_result) 30;
              Connection.canary;
              SshExec ("test -f " ++ Examples.new_result
                         ++ " && echo 'exists' || echo 'missing'") 30;
              Connection.canary]
               ++ earlier ++ trace (env Examples.fresh_world))%list
       /\ length used = remote_calls earlier
       /\ strip out = "exists"
       /\ strip size1 = strip size2
       /\ strip size1 <> "".
Proof.
  intros run. split; [vm_compute; reflexivity|].
  apply (wait_returns_only_stable_files OsPath.join OsPath.basename 41 "wan"
           "/tmp/results" 120 Examples.fresh_world (snd run)
           Examples.new_result Examples.new_result).
  vm_compute. reflexivity.
Defined.

(** ** Waiting for a device that restarts *)

Section ReconnectFacts.
Import Connection ResultHandler FileProcessor SingleFile.
Variable os_path_join : string -> string -> string.
Variable download_file : string -> string -> M bool.
Variable result_path_var : string.

Lemma slept_next (k : nat) (n : Z) (w : World) :
  slept k n (snd (sleep n w)) = slept (S k) n w.
Proof.
  unfold slept. cbn [Nat.iter]. apply Nat.iter_swap.
Qed.

Lemma slept_clock (k : nat) (n : Z) (w : World) :
  clock (env (slept k n w)) = clock (env w) + Z.of_nat k * n.
Proof.
  unfold slept. induction k as [|k IH]; [cbn; lia|].
  rewrite Nat2Z.inj_succ.
  change (clock (env (Nat.iter (S k) (fun w => snd (sleep n w)) w)))
    with (clock (env (Nat.iter k (fun w => snd (sleep n w)) w)) + n).
  rewrite IH. lia.
Qed.

(** A pass of the loop once the local [connected] is True and fewer than
    six attempts were made: it only looks at the cancellation and sleeps. *)
Lemma idle_pass (file_index : nat) (file_path file_name : string)
  (start_time upload_time : Z) (result_dir base_name : string)
  (w : World) (l : Reconnect) :
  connected_local l = true ->
  reconnect_attempt l < max_reconnect_attempts ->
  reconnect_iteration os_path_join download_file file_index file_path
    file_name start_time upload_time result_dir base_name (w, l)
  = if match cancel_at (env w) with
       | None => true
       | Some t => clock (env w) <? t
       end
    then (Ok Again, (snd (sleep reconnect_interval w), l))
    else (Raise "Processing cancelled by user", (w, l)).
Proof.
  intros Hc Ha. unfold reconnect_iteration.
  unfold bind at 1. unfold in_world at 1, processing, read. cbn [fst snd].
  destruct (match cancel_at (env w) with
            | None => true
            | Some t => clock (env w) <? t
            end); cbn [negb]; [|reflexivity].
  unfold bind at 1. unfold local at 1. cbn [fst snd]. rewrite Hc. cbn [negb].
  unfold bind at 1. unfold ret at 1.
  unfold bind at 1. unfold local at 1. cbn [fst snd].
  destruct (reconnect_attempt l >=? max_reconnect_attempts) eqn:E.
  - apply Z.geb_le in E. lia.
  - unfold bind, in_world, ret. cbn [fst snd].
    destruct (sleep reconnect_interval w) as [[[]|e] w'] eqn:Es;
      [reflexivity|discriminate].
Qed.

Lemma idle_loop (n : nat) (file_index : nat) (file_path file_name : string)
  (start_time upload_time timeout : Z) (result_dir base_name : string)
  (w : World) (l : Reconnect)
  (res : Exc (option bool) * (World * Reconnect)) :
  connected_local l = true ->
  reconnect_attempt l < max_reconnect_attempts ->
  Z.max 0 (start_time + timeout - clock (env w)) + 10 <= 10 * Z.of_nat n ->
  reconnect_loop os_path_join download_file n file_index file_path file_name
    start_time upload_time timeout result_dir base_name (w, l) = res ->
  exists k,
    res = (Ok None, (slept k 10 w, l))
    \/ res = (Raise "Processing cancelled by user", (slept k 10 w, l)).
Proof.
  intros Hc Ha. revert w. induction n as [|n IH]; intros w Hfuel E; [lia|].
  cbn [reconnect_loop] in E. unfold bind at 1 in E.
  unfold in_world at 1, time_now, read in E. cbn [fst snd] in E.
  destruct (clock (env w) - start_time <? timeout) eqn:Hlt.
  - unfold bind at 1 in E. rewrite (idle_pass _ _ _ _ _ _ _ w l Hc Ha) in E.
    destruct (match cancel_at (env w) with
              | None => true
              | Some t => clock (env w) <? t
              end).
    + apply Z.ltb_lt in Hlt.
      destruct (IH (snd (sleep reconnect_interval w))) as [k Hk].
      { unfold sleep, update, reconnect_interval.
        cbn [snd with_env env advance clock log_effect]. lia. }
      { exact E. }
      exists (S k). rewrite <- slept_next. exact Hk.
    + exists O. right. subst res. reflexivity.
  - exists O. left. subst res. reflexivity.
Qed.

Lemma first_pass (file_index : nat) (file_path file_name : string)
  (start_time upload_time : Z) (result_dir base_name : string)
  (w0 w1 w2 : World) (success : bool) (newest_file_info err : string) :
  fst (processing w0) = Ok true ->
  connect_from_fields w0 = (Ok true, w1) ->
  execute_command
    ("ls -lt " ++ result_dir ++ "/" ++ (base_name ++ "_*.json")
       ++ " 2>/dev/null | head -1") 30 w1
  = (Ok (Some (success, newest_file_info, err)), w2) ->
  success && negb (strip newest_file_info =? "")%string = false ->
  reconnect_iteration os_path_join download_file file_index file_path
    file_name start_time upload_time result_dir base_name
    (w0, mkReconnect false 0)
  = (Ok Again, (snd (sleep reconnect_interval w2), mkReconnect true 1)).
Proof.
  intros Hp Hc Hls Hnone. unfold reconnect_iteration.
  unfold bind at 1. unfold in_world at 1. cbn [fst snd].
  destruct (processing w0) as [rp wp] eqn:Ep.
  assert (wp = w0) by (unfold processing, read in Ep; congruence). subst wp.
  cbn [fst] in Hp. subst rp. cbn [negb].
  unfold bind at 1. unfold local at 1. cbn [fst snd connected_local negb].
  unfold bind at 1. unfold bind at 1. unfold assign at 1.
  cbn [fst snd connected_local reconnect_attempt]. unfold try_except.
  unfold look_for_result. unfold bind at 1. unfold in_world at 1.
  cbn [fst snd]. rewrite Hc.
  unfold bind at 1. unfold assign at 1. cbn [fst snd reconnect_attempt].
  unfold bind at 1. unfold in_world at 1. cbn [fst snd]. rewrite Hls.
  unfold bind at 1. unfold execute at 1, ret at 1. rewrite Hnone.
  unfold ret at 1.
  unfold bind at 1. unfold local at 1. cbn [fst snd reconnect_attempt].
  change (0 + 1 >=? max_reconnect_attempts) with false. cbv iota.
  unfold bind, in_world, ret. cbn [fst snd].
  destruct (sleep reconnect_interval w2) as [[[]|e] w'] eqn:Es;
    [reflexivity|discriminate].
Qed.

(** X23. After the upload of a test that affects the network,
    [_wait_for_result_with_reconnect] looks for the result once. If its
    first connection attempt succeeds and the listing made right after it
    shows no result file, it asks the device nothing more: the world it
    leaves is the world after that listing but for sleeps of 10 s, and it
    returns False with the row marked Failed, Timeout, or raises the
    cancellation, whatever the device would have answered later. *)
Theorem reconnected_without_result_waits_idle (fuel : nat)
  (file_name file_path : string) (file_index : nat) (upload_time timeout : Z)
  (w w1 w2 : World) (success : bool) (newest_file_info err : string) :
  let w0 :=
    snd (update_file_status file_index "Network Reset" (JStr "") "" w) in
  let r :=
    _wait_for_result_with_reconnect os_path_join download_file result_path_var
      fuel file_name file_path file_index upload_time timeout w in
  fst (processing w) = Ok true ->
  0 < timeout ->
  Z.max 0 timeout + 10 <= 10 * Z.of_nat fuel ->
  connect_from_fields w0 = (Ok true, w1) ->
  execute_command
    ("ls -lt " ++ result_path_var ++ "/"
       ++ (fst (OsPath.splitext file_name) ++ "_*.json")
       ++ " 2>/dev/null | head -1") 30 w1
  = (Ok (Some (success, newest_file_info, err)), w2) ->
  success && negb (strip newest_file_info =? "")%string = false ->
  exists k,
    r = (Ok false,
         snd (update_file_status file_index "Failed" (JStr "Timeout")
                (str_of_Z timeout ++ "s") (slept (S k) 10 w2)))
    \/ r = (Raise "Processing cancelled by user", slept (S k) 10 w2).
Proof.
  intros w0 r Hp Htimeout Hfuel Hc Hls Hnone.
  assert (Hclock : clock (env w0) <= clock (env w2)).
  { pose proof (adv_execute_command
                  ("ls -lt " ++ result_path_var ++ "/"
                     ++ (fst (OsPath.splitext file_name) ++ "_*.json")
                     ++ " 2>/dev/null | head -1") 30 w1) as H2.
    rewrite Hls in H2.
    pose proof (adv_connect (lan_ip_var (gui w0)) (username_var (gui w0))
                  (password_var (gui w0)) 22 10 w0) as H1.
    change (connect (lan_ip_var (gui w0)) (username_var (gui w0))
              (password_var (gui w0)) 22 10 w0)
      with (connect_from_fields w0) in H1.
    rewrite Hc in H1. unfold now_of, world_clock in *. cbn [snd] in *. lia. }
  destruct fuel as [|n]; [lia|].
  assert (Hloop : exists k,
    reconnect_loop os_path_join download_file (S n) file_index file_path
      file_name (clock (env w)) upload_time timeout result_path_var
      (fst (OsPath.splitext file_name)) (w0, mkReconnect false 0)
    = (Ok None, (slept (S k) 10 w2, mkReconnect true 1))
    \/ reconnect_loop os_path_join download_file (S n) file_index file_path
         file_name (clock (env w)) upload_time timeout result_path_var
         (fst (OsPath.splitext file_name)) (w0, mkReconnect false 0)
       = (Raise "Processing cancelled by user",
          (slept (S k) 10 w2, mkReconnect true 1))).
  { set (loop := reconnect_loop _ _ (S n) _ _ _ _ _ _ _ _ _).
    assert (E : loop
      = reconnect_loop os_path_join download_file n file_index file_path
          file_name (clock (env w)) upload_time timeout result_path_var
          (fst (OsPath.splitext file_name))
          (snd (sleep reconnect_interval w2), mkReconnect true 1)).
    { subst loop. cbn [reconnect_loop]. unfold bind at 1.
      unfold in_world at 1, time_now, read. cbn [fst snd].
      change (clock (env w0)) with (clock (env w)).
      replace (clock (env w) - clock (env w) <? timeout) with true
        by (symmetry; apply Z.ltb_lt; lia).
      unfold bind at 1.
      rewrite (first_pass file_index file_path file_name (clock (env w))
                 upload_time result_path_var (fst (OsPath.splitext file_name))
                 w0 w1 w2 success newest_file_info err Hp Hc Hls Hnone).
      reflexivity. }
    destruct (idle_loop n file_index file_path file_name (clock (env w))
                upload_time timeout result_path_var
                (fst (OsPath.splitext file_name))
                (snd (sleep reconnect_interval w2)) (mkReconnect true 1)
                loop eq_refl) as [k Hk].
    - unfold max_reconnect_attempts. cbn. lia.
    - unfold sleep, update, reconnect_interval.
      cbn [snd with_env env advance clock log_effect].
      change (clock (env w0)) with (clock (env w)) in Hclock. lia.
    - symmetry. exact E.
    - exists k. unfold reconnect_interval in Hk. rewrite slept_next in Hk.
      exact Hk. }
  destruct Hloop as [k [Hk|Hk]]; exists k; [left|right]; subst r;
    unfold _wait_for_result_with_reconnect;
    unfold bind at 1, time_now, read; unfold bind at 1;
    fold w0; cbn [fst snd];
    unfold bind at 1;
    match goal with
    | |- context [update_file_status file_index "Network Reset" (JStr "") "" w] =>
        change (update_file_status file_index "Network Reset" (JStr "") "" w)
          with (Ok tt, w0)
    end;
    cbv beta iota; rewrite Hk; reflexivity.
Qed.

End ReconnectFacts.

Lemma process_single_file_own_row_only_witness :
  other_rows_kept 1 Examples.three_jobs_world
    (snd (SingleFile._process_single_file OsPath.join OsPath.basename
            MoreExamples.no_transfer MoreExamples.no_transfer
            "/root/config" "/root/result" 120 2 1 "C:\tests\wan_check.json" 0
            Examples.three_jobs_world)).
Proof.
  apply (process_single_file_own_row_only 1 OsPath.join OsPath.basename
           MoreExamples.no_transfer MoreExamples.no_transfer
           "/root/config" "/root/result" 120 2).
  - intros local_path remote_path w. reflexivity.
  - intros remote_path local_path w. reflexivity.
Defined.

Lemma reconnected_without_result_waits_idle_witness :
  let w := MoreExamples.restarted_world in
  let w0 :=
    snd (FileProcessor.update_file_status 0 "Network Reset" (JStr "") "" w) in
  let w1 := snd (FileProcessor.connect_from_fields w0) in
  let w2 :=
    snd (Connection.execute_command
           ("ls -lt " ++ "/tmp/results" ++ "/"
              ++ (fst (OsPath.splitext "wan.json") ++ "_*.json")
              ++ " 2>/dev/null | head -1") 30 w1) in
  exists k,
    SingleFile._wait_for_result_with_reconnect OsPath.join
      MoreExamples.no_transfer "/tmp/results" 3 "wan.json" "C:\tests\wan.json"
      0 0 20 w
    = (Ok false,
       snd (FileProcessor.update_file_status 0 "Failed" (JStr "Timeout")
              (str_of_Z 20 ++ "s") (slept (S k) 10 w2)))
    \/ SingleFile._wait_for_result_with_reconnect OsPath.join
         MoreExamples.no_transfer "/tmp/results" 3 "wan.json"
         "C:\tests\wan.json" 0 0 20 w
       = (Raise "Processing cancelled by user", slept (S k) 10 w2).
Proof.
  intros w w0 w1 w2.
  apply (reconnected_without_result_waits_idle OsPath.join
           MoreExamples.no_transfer "/tmp/results" 3 "wan.json"
           "C:\tests\wan.json" 0 0 20 w w1 w2 true EmptyString EmptyString).
  - reflexivity.
  - lia.
  - lia.
  - reflexivity.
  - reflexivity.
  - reflexivity.
Defined.

(** ** The retry loop of one file *)

Section ReturnFacts.
Context {S : Type}.

Lemma ro_ret {A} (P : A -> Prop) (a : A) : P a -> returns_only P (ret (S := S) a).
Proof. intros H s a' s' E. injection E as <- _. exact H. Qed.

Lemma ro_raise {A} (P : A -> Prop) (e : string) :
  returns_only P (raise (S := S) (A := A) e).
Proof. intros s a s' E. discriminate. Qed.

Lemma ro_bind {A B} (Q : A -> Prop) (P : B -> Prop) (m : SE S A)
  (k : A -> SE S B) :
  returns_only Q m -> (forall a, Q a -> returns_only P (k a)) ->
  returns_only P (bind m k).
Proof.
  intros Hm Hk s b s' E. unfold bind in E.
  destruct (m s) as [[a|e] s1] eqn:Em; [|discriminate].
  exact (Hk a (Hm s a s1 Em) s1 b s' E).
Qed.

Lemma ro_try {A} (P : A -> Prop) (m : SE S A) (h : string -> SE S A) :
  returns_only P m -> (forall e, returns_only P (h e)) ->
  returns_only P (try_except m h).
Proof.
  intros Hm Hh s a s' E. unfold try_except in E.
  destruct (m s) as [[a0|e] s1] eqn:Em.
  - injection E as <- <-. exact (Hm s a0 s1 Em).
  - exact (Hh e s1 a s' E).
Qed.

Lemma ro_any {A} (m : SE S A) : returns_only (fun _ => True) m.
Proof. intros s a s' E. exact I. Qed.

End ReturnFacts.

Section AttemptFacts.
Import Connection ResultHandler FileProcessor SingleFile.
Variable os_path_join : string -> string -> string.
Variable os_path_basename : string -> string.
Variable upload_file : string -> string -> M bool.
Variable download_file : string -> string -> M bool.
Variable config_path_var result_path_var : string.
Variable DEFAULT_TIMEOUT : Z.
Variable fuel : nat.

(** The last attempt returns or raises: it does not go on to a next
    attempt. *)
Lemma last_attempt_returns (file_index : nat) (file_path file_name : string)
  (file_start_time : Z) (affects_network : bool) (network_timeout : Z) :
  returns_only returned
    (attempt_body os_path_join os_path_basename upload_file download_file
       config_path_var result_path_var fuel max_retries file_index file_path
       file_name file_start_time affects_network network_timeout).
Proof.
  unfold attempt_body.
  change (max_retries <? max_retries) with false.
  change (max_retries =? max_retries) with true. cbn [andb].
  apply ro_try; [|intros e; destruct (contains _ e); apply ro_raise].
  eapply ro_bind; [apply ro_any|]. intros running _.
  destruct (negb running); [apply ro_raise|].
  eapply ro_bind; [apply ro_any|]. intros alive _.
  apply ro_bind with (Q := fun proceed => proceed = true).
  - destruct (negb alive); [|apply ro_ret; reflexivity].
    eapply ro_bind; [apply ro_any|]. intros success _.
    destruct (negb success); [apply ro_raise|apply ro_ret; reflexivity].
  - intros proceed ->. cbn [negb].
    eapply ro_bind; [apply ro_any|]. intros upload_success _.
    destruct (negb upload_success); [apply ro_raise|].
    eapply ro_bind; [apply ro_any|]. intros _ _.
    destruct affects_network.
    + eapply ro_bind; [apply ro_any|]. intros upload_time _.
      eapply ro_bind; [apply ro_any|]. intros result _.
      apply ro_ret. exists result. reflexivity.
    + apply ro_try; [|intros e; apply ro_raise].
      eapply ro_bind; [apply ro_any|]. intros [p f] _.
      eapply ro_bind; [apply ro_any|]. intros result _.
      apply ro_ret. exists result. reflexivity.
Qed.

(** X24. [_process_single_file] returns a truth value or raises: its retry
    loop does not run out, since the second and last attempt returns or
    raises whatever happens, so Python's None is not returned. *)
Theorem process_single_file_returns_or_raises (file_index : nat)
  (file_path : string) (file_start_time : Z) (w : World) :
  exists w',
    (exists result,
       _process_single_file os_path_join os_path_basename upload_file
         download_file config_path_var result_path_var DEFAULT_TIMEOUT fuel file_index
         file_path file_start_time w
       = (Ok (Some result), w'))
    \/ (exists e,
          _process_single_file os_path_join os_path_basename upload_file
            download_file config_path_var result_path_var DEFAULT_TIMEOUT fuel file_index
            file_path file_start_time w
          = (Raise e, w')).
Proof.
  assert (H : returns_only (fun r => r <> None)
    (_process_single_file os_path_join os_path_basename upload_file
       download_file config_path_var result_path_var DEFAULT_TIMEOUT fuel file_index
       file_path file_start_time)).
  { unfold _process_single_file.
    eapply ro_bind; [apply ro_any|]. intros _ _.
    eapply ro_bind; [apply ro_any|]. intros [affects_wan affects_lan] _.
    cbn [attempts].
    eapply ro_bind; [apply ro_any|]. intros [result|] _;
      [apply ro_ret; discriminate|].
    apply ro_bind with (Q := returned);
      [apply last_attempt_returns|].
    intros a [result ->]. apply ro_ret. discriminate. }
  destruct (_process_single_file _ _ _ _ _ _ _ _ _ _ _ w) as [[[result|]|e] w']
    eqn:Er; exists w'.
  - left. exists result. reflexivity.
  - exfalso. exact (H w None w' Er eq_refl).
  - right. exists e. reflexivity.
Qed.

End AttemptFacts.

(** ** Remote directories *)

Section RemoteFacts.
Import Connection ResultHandler RemoteFiles.

Lemma execute_command_returns (command : string) (timeout : Z) (w : World) :
  exists v w', execute_command command timeout w = (Ok (Some v), w').
Proof.
  destruct (execute_command_sends_once command timeout w) as (v & new & Hv & _).
  destruct (execute_command command timeout w) as [r w'].
  cbn [fst] in Hv. subst r. exists v, w'. reflexivity.
Qed.

(** X25. [ensure_remote_directory] never raises. It answers True exactly
    when the session is live, the keepalive is answered with keepalive and
    [mkdir -p] completes with exit status 0. When it answers False, [chmod]
    is not sent: nothing, the keepalive alone, or the keepalive and [mkdir]
    (and the pause of two seconds after a [mkdir] that timed out) is all
    that happened. When it answers True, the keepalive of the [chmod] call is
    sent after [mkdir], and [chmod 755] itself at most once, only if that
    keepalive is answered; the answer is True whatever becomes of
    [chmod]. *)
Theorem ensure_remote_directory_follows_mkdir (remote_dir : string)
  (w : World) :
  let mkdir := SshExec ("mkdir -p '" ++ remote_dir ++ "'") 30 in
  let chmod := SshExec ("chmod 755 '" ++ remote_dir ++ "'") 30 in
  exists (made : bool) (w' : World) (sent : list Effect),
    ensure_remote_directory remote_dir w = (Ok made, w')
    /\ trace (env w') = (sent ++ trace (env w))%list
    /\ (made = true <->
        has_session w = true
        /\ exists o e s out err rest,
             remote (env w) = Done o e s :: Done out err 0 :: rest
             /\ strip o = "keepalive")
    /\ (made = false ->
        sent = [] \/ sent = [canary] \/ sent = [mkdir; canary]
        \/ sent = [Sleep 2; mkdir; canary])
    /\ (made = true ->
        sent = [canary; mkdir; canary]
        \/ sent = [chmod; canary; mkdir; canary]
        \/ sent = [Sleep 2; chmod; canary; mkdir; canary]).
Proof.
  cbv zeta. unfold ensure_remote_directory, try_except. unfold bind at 1.
  rewrite execute_command_world. cbv zeta.
  rewrite next_answer_of_remote.
  destruct (has_session w) eqn:Hs.
  2:{ exists false, w, []. split; [reflexivity|]. split; [reflexivity|].
      split; [split; [discriminate|intros [K _]; discriminate]|].
      split; [auto|discriminate]. }
  destruct (remote (env w)) as [|[o e s|m] rest] eqn:Hr.
  - eexists false, _, [canary]. split; [reflexivity|].
    split; [cbn [snd with_ssh env]; rewrite answered_trace; reflexivity|].
    split; [split; [discriminate|]|split; [auto|discriminate]].
    intros (_ & o & e & s & out & err & rest & K & _). discriminate.
  - destruct (strip o =? "keepalive")%string eqn:Hk.
    2:{ eexists false, _, [canary]. split; [reflexivity|].
        split; [rewrite answered_trace; reflexivity|].
        split; [split; [discriminate|]|split; [auto|discriminate]].
        intros (_ & o' & e' & s' & out & err & rest' & K & Hk').
        injection K as -> _ _ _. rewrite Hk' in Hk. discriminate. }
    apply String.eqb_eq in Hk.
    rewrite next_answer_of_remote, answered_remote, Hr. cbn [tl].
    set (w1 := answered canary w).
    set (w2 := answered (SshExec ("mkdir -p '" ++ remote_dir ++ "'") 30) w1).
    assert (T2 : trace (env w2)
                 = SshExec ("mkdir -p '" ++ remote_dir ++ "'") 30 :: canary
                   :: trace (env w))
      by (subst w2 w1; rewrite !answered_trace; reflexivity).
    destruct rest as [|[out err st|m] rest2].
    + eexists false, _, [SshExec ("mkdir -p '" ++ remote_dir ++ "'") 30; canary].
      split; [reflexivity|].
      split; [exact T2|].
      split; [split; [discriminate|]|split; [auto|discriminate]].
      intros (_ & o' & e' & s' & out & err & rest' & K & _). discriminate.
    + destruct (st =? 0) eqn:Hst.
      * apply Z.eqb_eq in Hst. subst st.
        unfold bind at 1. unfold execute at 1, ret at 1. cbn [negb].
        unfold bind at 1.
        destruct (execute_command_sends_once
                    ("chmod 755 '" ++ remote_dir ++ "'") 30 w2)
          as (v & new & Hv & Ht & Hnew).
        destruct (execute_command _ 30 w2) as [r w3] eqn:E3.
        cbn [fst snd] in Hv, Ht. subst r.
        assert (Hsession : has_session w2 = true).
        { subst w2 w1. unfold has_session. rewrite !answered_ssh. exact Hs. }
        assert (Hnonempty : new <> []).
        { intros K. subst new. cbn [app] in Ht.
          rewrite execute_command_world in E3. rewrite Hsession in E3.
          cbv zeta in E3.
          destruct (next_answer w2) as [o2 e2 s2|m2].
          - destruct (strip o2 =? "keepalive")%string.
            + destruct (next_answer (answered canary w2)) as [a b c|e'].
              * injection E3 as _ <-. rewrite !answered_trace in Ht.
                apply (f_equal (@length Effect)) in Ht. cbn in Ht. lia.
              * destruct (contains "timed out" (lower e'));
                  injection E3 as _ <-;
                  cbn [env with_env with_ssh trace advance log_effect] in Ht;
                  rewrite !answered_trace in Ht;
                  apply (f_equal (@length Effect)) in Ht; cbn in Ht; lia.
            + injection E3 as _ <-. rewrite answered_trace in Ht.
              apply (f_equal (@length Effect)) in Ht. cbn in Ht. lia.
          - injection E3 as _ <-. cbn [env with_ssh] in Ht.
            rewrite answered_trace in Ht.
            apply (f_equal (@length Effect)) in Ht. cbn in Ht. lia. }
        destruct v as [[s3 o3] e3].
        unfold bind, execute, ret.
        exists true, w3,
          (new ++ [SshExec ("mkdir -p '" ++ remote_dir ++ "'") 30; canary])%list.
        split; [reflexivity|].
        split; [rewrite Ht, T2, <- app_assoc; reflexivity|].
        split.
        { split; [|reflexivity]. intros _. split; [reflexivity|].
          exists o, e, s, out, err, rest2. split; [reflexivity|exact Hk]. }
        split; [discriminate|]. intros _.
        destruct Hnew as [K|[K|[K|[K _]]]]; subst new;
          [congruence|left|right; left|right; right]; reflexivity.
      * unfold bind at 1. unfold execute at 1, ret at 1. cbn [negb].
        eexists false, _, [SshExec ("mkdir -p '" ++ remote_dir ++ "'") 30; canary].
        split; [reflexivity|].
        split; [exact T2|].
        split; [split; [discriminate|]|split; [auto|discriminate]].
        intros (_ & o' & e' & s' & out' & err' & rest' & K & _).
        injection K as _ _ _ _ _ Hz _. subst st. discriminate.
    + destruct (contains "timed out" (lower m)).
      * unfold bind at 1. unfold execute at 1, ret at 1.
        unfold not_connected. cbn [negb].
        eexists false, _,
          [Sleep 2; SshExec ("mkdir -p '" ++ remote_dir ++ "'") 30; canary].
        split; [reflexivity|].
        split; [cbn [env with_env with_ssh trace advance log_effect];
                fold w1; fold w2; rewrite T2; reflexivity|].
        split; [split; [discriminate|]|].
        -- intros (_ & o' & e' & s' & out & err & rest' & K & _). discriminate.
        -- split; [intros _; right; right; right; reflexivity|discriminate].
      * unfold bind at 1. unfold execute at 1, ret at 1. cbn [negb].
        eexists false, _, [SshExec ("mkdir -p '" ++ remote_dir ++ "'") 30; canary].
        split; [reflexivity|].
        split; [exact T2|].
        split; [split; [discriminate|]|split; [auto|discriminate]].
        intros (_ & o' & e' & s' & out & err & rest' & K & _). discriminate.
  - eexists false, _, [canary]. split; [reflexivity|].
    split; [cbn [snd with_ssh env]; rewrite answered_trace; reflexivity|].
    split; [split; [discriminate|]|split; [auto|discriminate]].
    intros (_ & o & e & s & out & err & rest' & K & _). discriminate.
Qed.

End RemoteFacts.

(** ** How the wait for a result ends *)

Section WaitOutcomes.
Import Connection ResultHandler.
Variable os_path_join : string -> string -> string.
Variable os_path_basename : string -> string.

Lemma wait_loop_raises (fuel : nat) (start_wait timeout : Z)
  (result_dir pattern : string) (initial_files : list string)
  (latest : option string) (s s' : World * Locals) (e : string) :
  wait_loop os_path_join fuel start_wait timeout result_dir pattern
            initial_files latest s = (Raise e, s') ->
  e = "out of fuel"
  \/ e = "Processing cancelled by user"
  \/ e = "Timeout waiting for result file after "
           ++ str_of_Z timeout ++ " seconds".
Proof.
  revert s. induction fuel as [|fuel IH]; intros s E.
  - cbn in E. injection E as <- _. left. reflexivity.
  - cbn [wait_loop] in E. unfold bind at 1 in E.
    unfold in_world at 1, time_now, read in E. destruct s as [w l].
    cbn [fst snd] in E.
    destruct (clock (env w) - start_wait <? timeout).
    + unfold bind at 1 in E.
      destruct (wait_iteration _ _ _ _ _ _ (w, l)) as [[[found|]|e0] s1] eqn:Ei.
      * discriminate.
      * exact (IH s1 E).
      * injection E as <- _. apply wait_iteration_raises in Ei.
        right. left. exact Ei.
    + injection E as <- _. right. right. reflexivity.
Qed.

Lemma wait_for_result_file_raises (fuel : nat)
  (base_filename result_dir : string) (timeout : Z) (w w' : World)
  (e : string) :
  wait_for_result_file os_path_join os_path_basename fuel base_filename
                       result_dir timeout w = (Raise e, w') ->
  e = "out of fuel"
  \/ e = "Processing cancelled by user"
  \/ e = "Timeout waiting for result file after "
           ++ str_of_Z timeout ++ " seconds".
Proof.
  intros E. unfold wait_for_result_file in E.
  unfold bind at 1, time_now, read in E. unfold bind at 1 in E.
  unfold snapshot in E. unfold bind at 1 in E.
  destruct (execute_command_sends_once
              ("find " ++ result_dir ++ " -name '"
                 ++ (fst (OsPath.splitext base_filename) ++ "_*.json")
                 ++ "' -type f 2>/dev/null || echo ''") 30 w)
    as (v & new & Hv & _).
  destruct (execute_command _ 30 w) as [r w1]. cbn [fst] in Hv. subst r.
  destruct v as [[success out] err].
  unfold bind, execute, ret in E.
  destruct (wait_loop _ _ _ _ _ _ _ _ _) as [r [w2 l2]] eqn:El.
  injection E as -> _. exact (wait_loop_raises _ _ _ _ _ _ _ _ _ _ El).
Qed.

(** X26. How [wait_for_result_file] ends. It returns a path and a name,
    and then the path is the result directory joined with the name, and the
    file counts as new against the snapshot taken when the wait started; or
    it raises the cancellation; or it raises the timeout. Nothing else comes
    out of it: the exception of a failed reconnection and the errors of
    reading the listing are caught inside the loop. *)
Theorem wait_for_result_file_outcomes (fuel : nat)
  (base_filename result_dir : string) (timeout : Z) (w : World) :
  Z.max 0 timeout + 3 <= 3 * Z.of_nat fuel ->
  let r := fst (wait_for_result_file os_path_join os_path_basename fuel
                  base_filename result_dir timeout w) in
  (exists p f initial_files,
     r = Ok (p, f)
     /\ p = os_path_join result_dir f
     /\ fst (snapshot result_dir
               (fst (OsPath.splitext base_filename) ++ "_*.json") w)
        = Ok initial_files
     /\ counts_as_new initial_files
          (latest_timestamp_of os_path_basename initial_files) p f)
  \/ r = Raise "Processing cancelled by user"
  \/ r = Raise ("Timeout waiting for result file after "
                  ++ str_of_Z timeout ++ " seconds").
Proof.
  intros Hfuel r.
  pose proof (wait_for_result_file_enough_fuel os_path_join os_path_basename
                fuel base_filename result_dir timeout w Hfuel) as Hnf.
  subst r.
  destruct (wait_for_result_file os_path_join os_path_basename fuel
              base_filename result_dir timeout w) as [[[p f]|e] w'] eqn:E;
    cbn [fst] in *.
  - left. apply wait_for_result_file_found in E
      as (initial_files & w0 & Hs & Hp & Hnew & _).
    exists p, f, initial_files. split; [reflexivity|]. split; [exact Hp|].
    split; [rewrite Hs; reflexivity|exact Hnew].
  - right. apply wait_for_result_file_raises in E as [->|[->| ->]];
      [congruence|left; reflexivity|right; reflexivity].
Qed.

End WaitOutcomes.

Lemma wait_for_result_file_outcomes_witness :
  exists p f,
    fst (ResultHandler.wait_for_result_file OsPath.join OsPath.basename 40
           "wan.json" "/tmp/results" 100 Examples.fresh_world)
    = Ok (p, f)
    /\ p = OsPath.join "/tmp/results" f.
Proof.
  destruct (wait_for_result_file_outcomes OsPath.join OsPath.basename 40
              "wan.json" "/tmp/results" 100 Examples.fresh_world)
    as [(p & f & initial_files & Hr & Hp & _)|[H|H]].
  - lia.
  - exists p, f. split; [exact Hr|exact Hp].
  - vm_compute in H. discriminate.
  - vm_compute in H. discriminate.
Defined.
